(** * The EVL time-partition (TP) scheduling class, [kernel/evl/sched/tp.c]

    A shallow embedding of the TP policy: the per-CPU window state machine
    driven by the frame timer, the class operations invoked by the generic
    run queue, and the control protocol that installs, starts, stops and
    reads back a partition schedule.

    Conventions of the model.
    - [ktime_t] values (nanoseconds) and C [int]s are integers in [Z]; time
      arithmetic ([ktime_add], [ktime_sub], [ktime_compare]) is exact integer
      arithmetic, i.e. dates stay inside the 64-bit range of [ktime_t].
    - Pointers to schedule tables are keys of a heap ([gmap positive]); the
      table installed on a run queue and the snapshots taken by readers alias
      the same heap cell, whose [refcount] decides when it is released.
    - A pointer into [tp->partitions] or to [tp->idle] is a [tp_rq_ref].
    - Every operation that can dereference NULL, index outside an array or
      spin in the [for (;;)] loop of [tp_schedule_next] returns an
      [outcome]; the loop is unrolled at most [fuel] times.
    - Calls that only matter by their order (locking, timer programming,
      notifications, releases) are appended to an event [klog]. *)

From Stdlib Require Import ZArith Lia List Bool.
From stdpp Require Import base option list gmap.

Local Open Scope Z_scope.

(** ** Outcomes *)

Inductive outcome (A : Type) : Type :=
| Done (a : A)   (* the call returned *)
| Spin           (* the loop was still running when the unrolling ended *)
| Oops.          (* NULL dereference, access outside an array, division by 0 *)
Arguments Done {A} a.
Arguments Spin {A}.
Arguments Oops {A}.

#[global] Instance outcome_ret : MRet outcome := fun A a => Done a.
#[global] Instance outcome_bind : MBind outcome := fun A B f m =>
  match m with
  | Done a => f a
  | Spin => Spin
  | Oops => Oops
  end.

Definition deref {A : Type} (o : option A) : outcome A :=
  match o with
  | Some a => Done a
  | None => Oops
  end.

(** ** Error codes ([include/uapi/asm-generic/errno-base.h]) *)

Definition ENOMEM : Z := 12.
Definition EBUSY : Z := 16.
Definition EINVAL : Z := 22.

(** ** Data *)

Record evl_tp_window := {
  w_offset : Z;          (* ktime_t: start of the window inside the frame *)
  w_part : Z             (* partition id, or -1 for a time hole *)
}.

Record evl_tp_schedule := {
  pwin_nr : Z;
  tf_duration : Z;
  refcount : Z;
  pwins : list evl_tp_window
}.

Record evl_timer := {
  timer_running : bool;
  timer_date : Z
}.

(** [struct evl_tp_rq *]: either [&tp->idle] or [&tp->partitions[n]]. *)
Inductive tp_rq_ref : Type :=
| TpIdle
| TpPart (n : Z).

Record evl_sched_tp := {
  partitions : list (list nat);   (* partitions[n].runnable, thread ids *)
  idle : list nat;                (* idle.runnable *)
  tps : option tp_rq_ref;         (* active partition, NULL before start *)
  tf_timer : evl_timer;
  gps : option positive;          (* installed schedule, NULL if none *)
  wnext : Z;
  tf_start : Z;
  threads : list nat              (* threads attached through tp_link *)
}.

Record evl_thread := {
  state : Z;
  bprio : Z;
  cprio : Z;
  th_tps : option Z;              (* index of the assigned partition *)
  base_class_tp : bool            (* base_class == &evl_sched_tp *)
}.

Inductive event : Type :=
| EvLock                               (* raw_spin_lock(&rq->lock) *)
| EvUnlock                             (* raw_spin_unlock(&rq->lock) *)
| EvStartTimer (t : Z)                 (* evl_start_timer(&tf_timer, t, EVL_INFINITE) *)
| EvStopTimer                          (* evl_stop_timer(&tf_timer) *)
| EvResched                            (* evl_set_resched(rq) *)
| EvNotify (thread : nat) (frame : Z)  (* evl_notify_thread(.., EVL_HMDIAG_OVERRUN, ..) *)
| EvRefTake (p : positive)             (* atomic_inc(&p->refcount) *)
| EvRefDrop (p : positive)             (* atomic_dec_and_test(&p->refcount) *)
| EvFree (p : option positive)         (* evl_free(p) *)
| EvSchedule                           (* evl_schedule() *)
| EvWarn.                              (* EVL_WARN_ON() fired *)

(** The run queue of one CPU together with the kernel objects the TP class
    reaches from it. *)
Record kernel := {
  rq_tp : evl_sched_tp;                        (* rq->tp *)
  rq_curr : nat;                               (* rq->curr *)
  kthreads : gmap nat evl_thread;
  kheap : gmap positive evl_tp_schedule;
  kreads : nat;                                (* clock readings taken so far *)
  klog : list event
}.

(** ** What the class is linked against

    Constants, predicates and helpers of the EVL core whose definitions are
    not part of the sources at hand are parameters of the development. *)
Record evl_core := {
  CONFIG_EVL_SCHED_TP_NR_PART : Z;
  EVL_TP_MIN_PRIO : Z;
  EVL_TP_MAX_PRIO : Z;
  EVL_T_WOSO : Z;                   (* thread state bit: overrun notification wanted *)
  EVL_T_WEAK : Z;
  EVL_THREAD_BLOCK_BITS : Z;
  cpu_present : Z → bool;
  is_threading_cpu : Z → bool;
  evl_mono_clock : nat → Z;         (* n-th reading of the monotonic clock *)
  evl_tp_infolen : Z → Z;           (* byte length of a reply with n windows *)
  evl_add_schedq_tail : gmap nat evl_thread → list nat → nat → list nat;
  evl_add_schedq : gmap nat evl_thread → list nat → nat → list nat;
  evl_del_schedq : list nat → nat → list nat;
  evl_set_effective_thread_priority : evl_thread → Z → bool * evl_thread
}.

(** ** Field updates *)

Definition set_partitions (v : list (list nat)) (t : evl_sched_tp) : evl_sched_tp :=
  {| partitions := v; idle := idle t; tps := tps t; tf_timer := tf_timer t;
     gps := gps t; wnext := wnext t; tf_start := tf_start t; threads := threads t |}.

Definition set_tps (v : option tp_rq_ref) (t : evl_sched_tp) : evl_sched_tp :=
  {| partitions := partitions t; idle := idle t; tps := v; tf_timer := tf_timer t;
     gps := gps t; wnext := wnext t; tf_start := tf_start t; threads := threads t |}.

Definition set_tf_timer (v : evl_timer) (t : evl_sched_tp) : evl_sched_tp :=
  {| partitions := partitions t; idle := idle t; tps := tps t; tf_timer := v;
     gps := gps t; wnext := wnext t; tf_start := tf_start t; threads := threads t |}.

Definition set_gps (v : option positive) (t : evl_sched_tp) : evl_sched_tp :=
  {| partitions := partitions t; idle := idle t; tps := tps t; tf_timer := tf_timer t;
     gps := v; wnext := wnext t; tf_start := tf_start t; threads := threads t |}.

Definition set_wnext (v : Z) (t : evl_sched_tp) : evl_sched_tp :=
  {| partitions := partitions t; idle := idle t; tps := tps t; tf_timer := tf_timer t;
     gps := gps t; wnext := v; tf_start := tf_start t; threads := threads t |}.

Definition set_tf_start (v : Z) (t : evl_sched_tp) : evl_sched_tp :=
  {| partitions := partitions t; idle := idle t; tps := tps t; tf_timer := tf_timer t;
     gps := gps t; wnext := wnext t; tf_start := v; threads := threads t |}.

Definition set_threads (v : list nat) (t : evl_sched_tp) : evl_sched_tp :=
  {| partitions := partitions t; idle := idle t; tps := tps t; tf_timer := tf_timer t;
     gps := gps t; wnext := wnext t; tf_start := tf_start t; threads := v |}.

Definition upd_tp (f : evl_sched_tp → evl_sched_tp) (k : kernel) : kernel :=
  {| rq_tp := f (rq_tp k); rq_curr := rq_curr k; kthreads := kthreads k;
     kheap := kheap k; kreads := kreads k; klog := klog k |}.

Definition set_kthreads (v : gmap nat evl_thread) (k : kernel) : kernel :=
  {| rq_tp := rq_tp k; rq_curr := rq_curr k; kthreads := v;
     kheap := kheap k; kreads := kreads k; klog := klog k |}.

Definition set_kheap (v : gmap positive evl_tp_schedule) (k : kernel) : kernel :=
  {| rq_tp := rq_tp k; rq_curr := rq_curr k; kthreads := kthreads k;
     kheap := v; kreads := kreads k; klog := klog k |}.

Definition set_kreads (v : nat) (k : kernel) : kernel :=
  {| rq_tp := rq_tp k; rq_curr := rq_curr k; kthreads := kthreads k;
     kheap := kheap k; kreads := v; klog := klog k |}.

Definition emit (e : event) (k : kernel) : kernel :=
  {| rq_tp := rq_tp k; rq_curr := rq_curr k; kthreads := kthreads k;
     kheap := kheap k; kreads := kreads k; klog := klog k ++ [e] |}.

Definition set_refcount (v : Z) (g : evl_tp_schedule) : evl_tp_schedule :=
  {| pwin_nr := pwin_nr g; tf_duration := tf_duration g; refcount := v;
     pwins := pwins g |}.

Definition set_cprio (v : Z) (t : evl_thread) : evl_thread :=
  {| state := state t; bprio := bprio t; cprio := v; th_tps := th_tps t;
     base_class_tp := base_class_tp t |}.

Definition set_th_tps (v : option Z) (t : evl_thread) : evl_thread :=
  {| state := state t; bprio := bprio t; cprio := cprio t; th_tps := v;
     base_class_tp := base_class_tp t |}.

Definition set_state (v : Z) (t : evl_thread) : evl_thread :=
  {| state := v; bprio := bprio t; cprio := cprio t; th_tps := th_tps t;
     base_class_tp := base_class_tp t |}.

Ltac unfold_setters :=
  cbn [emit set_kreads set_kheap set_kthreads upd_tp set_threads set_tf_start
       set_wnext set_gps set_tf_timer set_tps set_partitions
       rq_tp rq_curr kthreads kheap kreads klog partitions idle tps tf_timer
       gps wnext tf_start threads].

(** Array access with a C [int] index. *)
Definition at_index {A : Type} (l : list A) (i : Z) : option A :=
  if i <? 0 then None else l !! Z.to_nat i.

(** ** Helpers of the EVL core used by the class *)

Section TP.

Context (E : evl_core).

(** Modelled from the spec: [evl_read_clock(&evl_mono_clock)] (EVL clock
    core, not among the sources) returns the current monotonic clock
    reading; each call consumes the next reading of [evl_mono_clock]. *)
Definition evl_read_clock (k : kernel) : Z * kernel :=
  (evl_mono_clock E (kreads k), set_kreads (S (kreads k)) k).

(** Modelled from the spec: [evl_start_timer(timer, t, EVL_INFINITE)] (EVL
    timer core, not among the sources) programs the one-shot frame timer for
    the date [t] and marks it running. *)
Definition evl_start_timer (t : Z) (k : kernel) : kernel :=
  emit (EvStartTimer t)
       (upd_tp (set_tf_timer {| timer_running := true; timer_date := t |}) k).

(** Modelled from the spec: [evl_stop_timer(timer)] (EVL timer core, not
    among the sources) cancels the frame timer. *)
Definition evl_stop_timer (k : kernel) : kernel :=
  emit EvStopTimer
       (upd_tp (fun t => set_tf_timer
                  {| timer_running := false;
                     timer_date := timer_date (tf_timer t) |} t) k).

(** Modelled from the spec: [evl_timer_is_running(timer)] (EVL timer core,
    not among the sources) tells whether the frame timer is running. *)
Definition evl_timer_is_running (t : evl_timer) : bool := timer_running t.

(** Modelled from the spec: [evl_set_resched(rq)] (EVL scheduler core, not
    among the sources) marks the run queue as needing a reschedule. *)
Definition evl_set_resched (k : kernel) : kernel := emit EvResched k.

(** Modelled from the spec: [raw_spin_lock(&rq->lock)] and its irqsave
    variant take the run-queue lock. *)
Definition raw_spin_lock (k : kernel) : kernel := emit EvLock k.

(** Modelled from the spec: [raw_spin_unlock(&rq->lock)] and its irqrestore
    variant release the run-queue lock. *)
Definition raw_spin_unlock (k : kernel) : kernel := emit EvUnlock k.

(** Modelled from the spec: [evl_notify_thread(thread, EVL_HMDIAG_OVERRUN,
    evl_intval(frame))] (EVL thread core, not among the sources) delivers an
    asynchronous overrun notification carrying the window index. *)
Definition evl_notify_thread (thread : nat) (frame : Z) (k : kernel) : kernel :=
  emit (EvNotify thread frame) k.

(** Modelled from the spec: [evl_free(p)] (EVL memory core, not among the
    sources) destroys the table [p] points to; nothing is released for
    NULL. *)
Definition evl_free (p : option positive) (k : kernel) : kernel :=
  emit (EvFree p)
       (match p with
        | Some q => set_kheap (delete q (kheap k)) k
        | None => k
        end).

(** Modelled from the spec: [evl_schedule()] (EVL scheduler core, not among
    the sources) is the rescheduling point reached at the end of a control
    request. *)
Definition evl_schedule (k : kernel) : kernel := emit EvSchedule k.

(** Modelled from the spec: [evl_get_schedq(q)] (EVL run-queue helpers, not
    among the sources) takes the thread at the head of a run queue, NULL if
    the queue is empty. *)
Definition evl_get_schedq (q : list nat) : option nat * list nat :=
  match q with
  | [] => (None, [])
  | t :: q' => (Some t, q')
  end.

Definition ref_queue (r : tp_rq_ref) (t : evl_sched_tp) : option (list nat) :=
  match r with
  | TpIdle => Some (idle t)
  | TpPart n => at_index (partitions t) n
  end.

Definition set_ref_queue (r : tp_rq_ref) (q : list nat) (t : evl_sched_tp)
  : evl_sched_tp :=
  match r with
  | TpIdle =>
      {| partitions := partitions t; idle := q; tps := tps t;
         tf_timer := tf_timer t; gps := gps t; wnext := wnext t;
         tf_start := tf_start t; threads := threads t |}
  | TpPart n => set_partitions (<[Z.to_nat n := q]> (partitions t)) t
  end.

(** [tp->gps->...]: the installed table, through the pointer. *)
Definition cur_schedule (k : kernel) : outcome evl_tp_schedule :=
  p ← deref (gps (rq_tp k)); deref (kheap k !! p).

(** ** The window state machine *)

(** The [for (;;)] loop of [tp_schedule_next]: [t] is the candidate date. *)
Fixpoint tp_resync (fuel : nat) (g : evl_tp_schedule) (t : Z) (k : kernel)
  : outcome (Z * kernel) :=
  match fuel with
  | O => Spin
  | S fuel' =>
      let '(now, k1) := evl_read_clock k in
      if now <=? t then Done (t, k1)
      else
        let t' := tf_start (rq_tp k1) + tf_duration g in
        tp_resync fuel' g t'
                  (upd_tp (fun tp => set_wnext 0 (set_tf_start t' tp)) k1)
  end.

Definition tp_schedule_next (fuel : nat) (k : kernel) : outcome kernel :=
  g ← cur_schedule k;
  w ← deref (at_index (pwins g) (wnext (rq_tp k)));
  let p_next := w_part w in
  let k1 := upd_tp (set_tps (Some (if p_next <? 0 then TpIdle
                                   else TpPart p_next))) k in
  if pwin_nr g =? 0 then Oops
  else
    let k2 := upd_tp (set_wnext ((wnext (rq_tp k1) + 1) `rem` pwin_nr g)) k1 in
    w' ← deref (at_index (pwins g) (wnext (rq_tp k2)));
    let t := tf_start (rq_tp k2) + w_offset w' in
    '(t', k3) ← tp_resync fuel g t k2;
    Done (evl_set_resched (evl_start_timer t' k3)).

Definition overrun_frame_of (curr : evl_thread) (tp : evl_sched_tp)
  (g : evl_tp_schedule) : Z :=
  if Z.land (state curr) (Z.lor (EVL_T_WOSO E) (EVL_THREAD_BLOCK_BITS E))
     =? EVL_T_WOSO E
  then
    let overrun_frame := wnext tp - 1 in
    if overrun_frame <? 0 then pwin_nr g - 1 else overrun_frame
  else -1.

Definition tp_tick_handler (fuel : nat) (k : kernel) : outcome kernel :=
  let curr := rq_curr k in
  let k1 := raw_spin_lock k in
  c ← deref (kthreads k1 !! curr);
  g ← cur_schedule k1;
  let overrun_frame := overrun_frame_of c (rq_tp k1) g in
  let k2 :=
    if wnext (rq_tp k1) + 1 =? pwin_nr g
    then upd_tp (fun tp => set_tf_start (tf_start tp + tf_duration g) tp) k1
    else k1 in
  k3 ← tp_schedule_next fuel k2;
  let k4 := raw_spin_unlock k3 in
  Done (if 0 <=? overrun_frame
        then evl_notify_thread curr overrun_frame k4
        else k4).

(** ** Class operations *)

Definition tp_init (k : kernel) : kernel :=
  let tp :=
    {| partitions := replicate (Z.to_nat (CONFIG_EVL_SCHED_TP_NR_PART E)) [];
       idle := [];
       tps := None;
       tf_timer := {| timer_running := false; timer_date := 0 |};
       gps := None;
       wnext := wnext (rq_tp k);
       tf_start := tf_start (rq_tp k);
       threads := [] |} in
  upd_tp (fun _ => tp) k.

Record evl_sched_param := {
  tp_prio : Z;
  tp_ptid : Z
}.

Definition upd_thread (thread : nat) (f : evl_thread → evl_thread) (k : kernel)
  : outcome kernel :=
  t ← deref (kthreads k !! thread);
  Done (set_kthreads (<[thread := f t]> (kthreads k)) k).

Definition tp_setparam (thread : nat) (p : evl_sched_param) (k : kernel)
  : outcome (bool * kernel) :=
  t ← deref (kthreads k !! thread);
  let t1 := set_th_tps (Some (tp_ptid p)) t in
  let t2 := set_state (Z.land (state t1) (Z.lnot (EVL_T_WEAK E))) t1 in
  let '(r, t3) := evl_set_effective_thread_priority E t2 (tp_prio p) in
  Done (r, set_kthreads (<[thread := t3]> (kthreads k)) k).

Definition tp_getparam (thread : nat) (k : kernel) : outcome evl_sched_param :=
  t ← deref (kthreads k !! thread);
  ptid ← deref (th_tps t);
  Done {| tp_prio := cprio t; tp_ptid := ptid |}.

Definition tp_trackprio (thread : nat) (p : option evl_sched_param)
  (k : kernel) : outcome kernel :=
  t ← deref (kthreads k !! thread);
  match p with
  | Some p =>
      let warn :=
        base_class_tp t &&
        negb (bool_decide (th_tps t = Some (tp_ptid p))) in
      let k1 := if warn then emit EvWarn k else k in
      Done (set_kthreads (<[thread := set_cprio (tp_prio p) t]> (kthreads k1)) k1)
  | None =>
      Done (set_kthreads (<[thread := set_cprio (bprio t) t]> (kthreads k)) k)
  end.

Definition tp_ceilprio (thread : nat) (prio : Z) (k : kernel) : outcome kernel :=
  let prio := if EVL_TP_MAX_PRIO E <? prio then EVL_TP_MAX_PRIO E else prio in
  upd_thread thread (set_cprio prio) k.

Definition tp_chkparam (thread : nat) (p : evl_sched_param) (k : kernel) : Z :=
  let tp := rq_tp k in
  if bool_decide (gps tp = None)
     || (tp_prio p <? EVL_TP_MIN_PRIO E)
     || (EVL_TP_MAX_PRIO E <? tp_prio p)
     || (tp_ptid p <? 0)
     || (CONFIG_EVL_SCHED_TP_NR_PART E <=? tp_ptid p)
  then - EINVAL
  else 0.

Definition tp_declare (thread : nat) (p : evl_sched_param) (k : kernel)
  : Z * kernel :=
  (0, upd_tp (fun tp => set_threads (threads tp ++ [thread]) tp) k).

Definition tp_forget (thread : nat) (k : kernel) : outcome kernel :=
  let k1 :=
    upd_tp (fun tp =>
              set_threads (filter (fun x => x ≠ thread) (threads tp)) tp) k in
  upd_thread thread (set_th_tps None) k1.

Definition thread_queue (thread : nat) (k : kernel)
  : outcome (tp_rq_ref * list nat) :=
  t ← deref (kthreads k !! thread);
  n ← deref (th_tps t);
  q ← deref (ref_queue (TpPart n) (rq_tp k));
  Done (TpPart n, q).

Definition tp_enqueue (thread : nat) (k : kernel) : outcome kernel :=
  '(r, q) ← thread_queue thread k;
  Done (upd_tp (set_ref_queue r (evl_add_schedq_tail E (kthreads k) q thread)) k).

Definition tp_dequeue (thread : nat) (k : kernel) : outcome kernel :=
  '(r, q) ← thread_queue thread k;
  Done (upd_tp (set_ref_queue r (evl_del_schedq E q thread)) k).

Definition tp_requeue (thread : nat) (k : kernel) : outcome kernel :=
  '(r, q) ← thread_queue thread k;
  Done (upd_tp (set_ref_queue r (evl_add_schedq E (kthreads k) q thread)) k).

Definition tp_pick (k : kernel) : outcome (option nat * kernel) :=
  if negb (evl_timer_is_running (tf_timer (rq_tp k))) then Done (None, k)
  else
    r ← deref (tps (rq_tp k));
    q ← deref (ref_queue r (rq_tp k));
    let '(t, q') := evl_get_schedq q in
    Done (t, upd_tp (set_ref_queue r q') k).

End TP.

(** ** User-visible shapes of the control interface ([uapi/evl/sched-abi.h]) *)

Record __evl_timespec := {
  tv_sec : Z;
  tv_nsec : Z
}.

Record __evl_tp_window := {
  offset : __evl_timespec;
  duration : __evl_timespec;
  ptid : Z
}.

Inductive evl_tp_ctlop : Type :=
| evl_tp_install
| evl_tp_uninstall
| evl_tp_start
| evl_tp_stop
| evl_tp_get
| evl_tp_unknown.      (* any other value of the request code *)

Record evl_tp_ctlparam := {
  op : evl_tp_ctlop;
  nr_windows : Z;
  windows : list __evl_tp_window
}.

Record evl_tp_ctlinfo := {
  it_nr_windows : Z;
  it_windows : list __evl_tp_window
}.

Definition NSEC_PER_SEC : Z := 1000000000.

(** Modelled from the spec: [u_timespec_to_ktime] (EVL clock helpers, not
    among the sources) turns a user timespec into the Duration it denotes,
    in nanoseconds. *)
Definition u_timespec_to_ktime (ts : __evl_timespec) : Z :=
  tv_sec ts * NSEC_PER_SEC + tv_nsec ts.

(** Modelled from the spec: [ktime_to_u_timespec] (EVL clock helpers, not
    among the sources) turns a Duration in nanoseconds into the normalised
    user timespec that denotes it. *)
Definition ktime_to_u_timespec (t : Z) : __evl_timespec :=
  {| tv_sec := t `div` NSEC_PER_SEC; tv_nsec := t `mod` NSEC_PER_SEC |}.

Definition set_offset (v : __evl_timespec) (p : __evl_tp_window) : __evl_tp_window :=
  {| offset := v; duration := duration p; ptid := ptid p |}.

Definition set_duration (v : __evl_timespec) (p : __evl_tp_window) : __evl_tp_window :=
  {| offset := offset p; duration := v; ptid := ptid p |}.

Definition set_ptid (v : Z) (p : __evl_tp_window) : __evl_tp_window :=
  {| offset := offset p; duration := duration p; ptid := v |}.

(** [p->field = v] for [p = &array[i]]. *)
Definition store {A : Type} (l : list A) (i : nat) (f : A → A) : outcome (list A) :=
  match l !! i with
  | Some x => Done (<[i := f x]> l)
  | None => Oops
  end.

(** [struct evl_tp_schedule *] or [ERR_PTR(-errno)]. *)
Inductive sched_ptr : Type :=
| Ptr (p : option positive)
| ErrPtr (e : Z).

Section Control.

Context (E : evl_core).

Definition start_tp_schedule (fuel : nat) (k : kernel) : outcome kernel :=
  match gps (rq_tp k) with
  | None => Done k
  | Some _ =>
      let k1 := upd_tp (set_wnext 0) k in
      let '(now, k2) := evl_read_clock E k1 in
      let k3 := upd_tp (set_tf_start now) k2 in
      tp_schedule_next E fuel k3
  end.

Definition stop_tp_schedule (k : kernel) : kernel :=
  match gps (rq_tp k) with
  | Some _ => evl_stop_timer k
  | None => k
  end.

Definition set_tp_schedule (new : option positive) (k : kernel)
  : outcome (sched_ptr * kernel) :=
  malformed ←
    match new with
    | None => Done false
    | Some p =>
        g ← deref (kheap k !! p);
        if pwin_nr g <=? 0 then Done true
        else w ← deref (pwins g !! 0%nat);
             Done (negb (w_offset w =? 0))
    end;
  if (malformed : bool) then Done (Ptr (gps (rq_tp k)), emit EvWarn k)
  else
    let k1 := raw_spin_lock k in
    if negb (bool_decide (threads (rq_tp k1) = [])) then
      Done (ErrPtr (- EBUSY), raw_spin_unlock k1)
    else
      let k2 := stop_tp_schedule k1 in
      let old_gps := gps (rq_tp k2) in
      let k3 := upd_tp (set_gps new) k2 in
      Done (Ptr old_gps, raw_spin_unlock k3).

Definition get_tp_schedule (k : kernel) : outcome (option positive * kernel) :=
  match gps (rq_tp k) with
  | None => Done (None, k)
  | Some p =>
      g ← deref (kheap k !! p);
      Done (Some p,
            emit (EvRefTake p)
              (set_kheap (<[p := set_refcount (refcount g + 1) g]> (kheap k)) k))
  end.

Definition put_tp_schedule (p : positive) (k : kernel) : outcome kernel :=
  g ← deref (kheap k !! p);
  let g' := set_refcount (refcount g - 1) g in
  let k1 := emit (EvRefDrop p) (set_kheap (<[p := g']> (kheap k)) k) in
  if refcount g' =? 0 then Done (evl_free (Some p) k1) else Done k1.

(** The validation loop of the install request; [None] stands for the jump
    to [fail]. *)
Fixpoint tp_scan_windows (n : nat) (ps : list __evl_tp_window) (next_offset : Z)
  : outcome (option (list evl_tp_window * Z)) :=
  match n with
  | O => Done (Some ([], next_offset))
  | S n' =>
      p ← deref (head ps);
      let offset := u_timespec_to_ktime (offset p) in
      if negb (offset =? next_offset) then Done None
      else
        let duration := u_timespec_to_ktime (duration p) in
        if duration <=? 0 then Done None
        else if (ptid p <? -1) || (CONFIG_EVL_SCHED_TP_NR_PART E <=? ptid p)
        then Done None
        else
          r ← tp_scan_windows n' (tail ps) (next_offset + duration);
          Done (match r with
                | None => None
                | Some (ws, d) =>
                    Some ({| w_offset := next_offset; w_part := ptid p |} :: ws, d)
                end)
  end.

(** The copy loop of the get request: [n] indexes both [p] and [w], [pp] and
    [pw] trail them by one iteration. *)
Fixpoint tp_copy_windows (todo : nat) (n pp pw : nat)
  (src : list evl_tp_window) (dst : list __evl_tp_window)
  : outcome (nat * nat * list __evl_tp_window) :=
  match todo with
  | O => Done (pp, pw, dst)
  | S todo' =>
      w ← deref (src !! n);
      pwv ← deref (src !! pw);
      dst1 ← store dst n (set_offset (ktime_to_u_timespec (w_offset w)));
      dst2 ← store dst1 pp
             (set_duration (ktime_to_u_timespec (w_offset w - w_offset pwv)));
      dst3 ← store dst2 n (set_ptid (w_part w));
      tp_copy_windows todo' (S n) n n src dst3
  end.

(** The copy loop run [nr] times from the start of both arrays, followed by
    the store that closes the duration of the last window copied. *)
Definition tp_copy_out (nr : Z) (g : evl_tp_schedule)
  (dst : list __evl_tp_window) : outcome (list __evl_tp_window) :=
  '(pp, pw, ws) ← tp_copy_windows (Z.to_nat nr) 0 0 0 (pwins g) dst;
  pwv ← deref (pwins g !! pw);
  store ws pp
        (set_duration (ktime_to_u_timespec (tf_duration g - w_offset pwv))).

(** The [switch_schedule], [done] and [fail] labels. *)
Definition tp_switch_schedule (new : option positive) (k : kernel)
  : outcome (Z * kernel) :=
  '(ogps, k1) ← set_tp_schedule new k;
  match ogps with
  | ErrPtr e => Done (e, evl_free new k1)
  | Ptr None => Done (0, evl_schedule k1)
  | Ptr (Some q) => k2 ← put_tp_schedule q k1; Done (0, evl_schedule k2)
  end.

(** [mem] is what [evl_alloc] hands out if the request comes to allocate a
    table: NULL, or a block of its own. *)
Definition tp_control (fuel : nat) (cpu : Z) (pt : evl_tp_ctlparam)
  (infp : option evl_tp_ctlinfo) (mem : option positive) (k : kernel)
  : outcome (Z * option evl_tp_ctlinfo * kernel) :=
  if (cpu <? 0) || negb (cpu_present E cpu) || negb (is_threading_cpu E cpu)
  then Done (- EINVAL, infp, k)
  else
    let uninstall :=
      '(ret, k1) ← tp_switch_schedule None k; Done (ret, infp, k1) in
    match op pt with
    | evl_tp_install =>
        if 0 <? nr_windows pt then
          match mem with
          | None => Done (- ENOMEM, infp, k)
          | Some p =>
              let blank :=
                {| pwin_nr := 0; tf_duration := 0; refcount := 0; pwins := [] |} in
              let k0 := set_kheap (<[p := blank]> (kheap k)) k in
              r ← tp_scan_windows (Z.to_nat (nr_windows pt)) (windows pt) 0;
              match r with
              | None => Done (- EINVAL, infp, evl_free (Some p) k0)
              | Some (ws, next_offset) =>
                  let g := {| pwin_nr := nr_windows pt;
                              tf_duration := next_offset;
                              refcount := 1;
                              pwins := ws |} in
                  let k1 := set_kheap (<[p := g]> (kheap k0)) k0 in
                  '(ret, k2) ← tp_switch_schedule (Some p) k1;
                  Done (ret, infp, k2)
              end
          end
        else uninstall
    | evl_tp_uninstall => uninstall
    | evl_tp_start =>
        k1 ← start_tp_schedule fuel (raw_spin_lock k);
        Done (0, infp, evl_schedule (raw_spin_unlock k1))
    | evl_tp_stop =>
        let k1 := stop_tp_schedule (raw_spin_lock k) in
        Done (0, infp, evl_schedule (raw_spin_unlock k1))
    | evl_tp_get =>
        '(g_ptr, k1) ← get_tp_schedule (raw_spin_lock k);
        let k2 := raw_spin_unlock k1 in
        match g_ptr with
        | None => Done (0, infp, evl_schedule k2)
        | Some p =>
            match infp with
            | None => k3 ← put_tp_schedule p k2; Done (- EINVAL, None, k3)
            | Some it =>
                g ← deref (kheap k2 !! p);
                let nr := Z.min (nr_windows pt) (pwin_nr g) in
                ws' ← tp_copy_out nr g (it_windows it);
                k3 ← put_tp_schedule p k2;
                Done (evl_tp_infolen E nr,
                      Some {| it_nr_windows := pwin_nr g; it_windows := ws' |},
                      k3)
            end
        end
    | evl_tp_unknown => Done (- EINVAL, infp, k)
    end.

End Control.

(** * Vocabulary of the statements *)

Section Vocabulary.

Context (E : evl_core).

(** The shape every table built by the install request has. *)
Record tp_table_ok (g : evl_tp_schedule) : Prop := {
  ok_len : pwin_nr g = Z.of_nat (length (pwins g));
  ok_nr : 0 < pwin_nr g;
  ok_first : ∃ w, pwins g !! 0%nat = Some w ∧ w_offset w = 0;
  ok_frame : 0 < tf_duration g
}.

(** A run queue with the table [g] installed and a window index in range. *)
Record tp_installed (k : kernel) (g : evl_tp_schedule) : Prop := {
  inst_ptr : ∃ p, gps (rq_tp k) = Some p ∧ kheap k !! p = Some g;
  inst_ok : tp_table_ok g;
  inst_wnext : 0 ≤ wnext (rq_tp k) < pwin_nr g
}.

Definition win_offset (g : evl_tp_schedule) (i : Z) : Z :=
  default 0 (w_offset <$> at_index (pwins g) i).

Definition win_part (g : evl_tp_schedule) (i : Z) : Z :=
  default 0 (w_part <$> at_index (pwins g) i).

(** [p_next < 0 ? &tp->idle : &tp->partitions[p_next]] *)
Definition part_ref (p : Z) : tp_rq_ref := if p <? 0 then TpIdle else TpPart p.

(** What [tp_schedule_next] has done by the time it reaches the loop. *)
Definition tp_advanced (g : evl_tp_schedule) (k : kernel) : kernel :=
  upd_tp (fun tp =>
            set_wnext ((wnext tp + 1) `mod` pwin_nr g)
                      (set_tps (Some (part_ref (win_part g (wnext tp)))) tp)) k.

Definition tp_first_date (g : evl_tp_schedule) (k : kernel) : Z :=
  tf_start (rq_tp k) + win_offset g ((wnext (rq_tp k) + 1) `mod` pwin_nr g).

(** The run queue after the loop went round [n] times before leaving. *)
Definition tp_resynced (n : nat) (g : evl_tp_schedule) (k : kernel) : kernel :=
  set_kreads (kreads k + S n)%nat
    (match n with
     | O => k
     | S _ =>
         upd_tp (fun tp =>
                   set_wnext 0
                     (set_tf_start
                        (tf_start tp + Z.of_nat n * tf_duration g) tp)) k
     end).

(** The clock gains less than [d] between two consecutive readings. *)
Definition clock_gains_less (d : Z) : Prop :=
  ∀ j : nat, evl_mono_clock E (S j) - evl_mono_clock E j < d.

(** What [tp_schedule_next] leaves alone, whichever way it went. *)
Record tp_next_frame (k k' : kernel) : Prop := {
  nf_gps : gps (rq_tp k') = gps (rq_tp k);
  nf_partitions : partitions (rq_tp k') = partitions (rq_tp k);
  nf_idle : idle (rq_tp k') = idle (rq_tp k);
  nf_threads : threads (rq_tp k') = threads (rq_tp k);
  nf_curr : rq_curr k' = rq_curr k;
  nf_kthreads : kthreads k' = kthreads k;
  nf_kheap : kheap k' = kheap k;
  nf_running : timer_running (tf_timer (rq_tp k')) = true;
  nf_log : klog k' =
           klog k ++ [EvStartTimer (timer_date (tf_timer (rq_tp k'))); EvResched]
}.

(** The handler's state on entering [tp_schedule_next]: lock taken, frame
    start moved on if the window about to begin is the last one. *)
Definition tp_tick_entered (g : evl_tp_schedule) (k : kernel) : kernel :=
  let k1 := raw_spin_lock k in
  if wnext (rq_tp k1) + 1 =? pwin_nr g
  then upd_tp (fun tp => set_tf_start (tf_start tp + tf_duration g) tp) k1
  else k1.

(** The handler's last steps: unlock, then notify if an overrun was seen. *)
Definition tp_tick_leave (curr : nat) (overrun_frame : Z) (k3 : kernel) : kernel :=
  let k4 := raw_spin_unlock k3 in
  if 0 <=? overrun_frame then evl_notify_thread curr overrun_frame k4 else k4.






(** ** Valid window lists, in the words of the specification *)

(** Sum of the durations of a window list. *)
Definition tp_total (ws : list __evl_tp_window) : Z :=
  foldr (fun p s => u_timespec_to_ktime (duration p) + s) 0 ws.

(** Counting from the date [acc]: every offset is [acc] plus the sum of the
    durations of the windows before it, every duration is strictly
    positive, every partition id is in range or the idle sentinel. *)
Record tp_windows_valid_from (acc : Z) (ws : list __evl_tp_window) : Prop := {
  valid_contiguous :
    ∀ (i : nat) (p : __evl_tp_window),
      ws !! i = Some p →
      u_timespec_to_ktime (offset p) = acc + tp_total (take i ws);
  valid_positive :
    ∀ p : __evl_tp_window, p ∈ ws → 0 < u_timespec_to_ktime (duration p);
  valid_partition :
    ∀ p : __evl_tp_window,
      p ∈ ws → 0 ≤ ptid p < CONFIG_EVL_SCHED_TP_NR_PART E ∨ ptid p = -1
}.

(** The first offset is 0 and the list is contiguous from there. *)
Definition tp_windows_valid (ws : list __evl_tp_window) : Prop :=
  (∀ p : __evl_tp_window, head ws = Some p → u_timespec_to_ktime (offset p) = 0) ∧
  tp_windows_valid_from 0 ws.

(** The kernel windows of a contiguous list that begins at [acc]. *)
Fixpoint tp_built (acc : Z) (ws : list __evl_tp_window) : list evl_tp_window :=
  match ws with
  | [] => []
  | p :: ws' =>
      {| w_offset := acc; w_part := ptid p |}
        :: tp_built (acc + u_timespec_to_ktime (duration p)) ws'
  end.

(** The table the install request builds from a valid list. *)
Definition tp_installed_table (ws : list __evl_tp_window) : evl_tp_schedule :=
  {| pwin_nr := Z.of_nat (length ws);
     tf_duration := tp_total ws;
     refcount := 1;
     pwins := tp_built 0 ws |}.

(** The target CPU passes the test at the top of [tp_control]. *)
Definition tp_cpu_ok (cpu : Z) : Prop :=
  0 ≤ cpu ∧ cpu_present E cpu = true ∧ is_threading_cpu E cpu = true.

(** The installed table, if any, is a live heap cell the run queue holds a
    reference to. *)
Definition tp_heap_ok (k : kernel) : Prop :=
  ∀ q : positive,
    gps (rq_tp k) = Some q →
    ∃ g : evl_tp_schedule, kheap k !! q = Some g ∧ 0 < refcount g.

(** The run queue after a granted swap, before the old table is put. *)
Definition tp_swapped (new : option positive) (k : kernel) : kernel :=
  raw_spin_unlock (upd_tp (set_gps new) (stop_tp_schedule (raw_spin_lock k))).

(** The run queue after a refused swap. *)
Definition tp_refused (new : option positive) (k : kernel) : kernel :=
  evl_free new (raw_spin_unlock (raw_spin_lock k)).

(** The table handed to [set_tp_schedule], if any, is a well-formed live
    cell. *)
Definition tp_new_ok (new : option positive) (k : kernel) : Prop :=
  match new with
  | None => True
  | Some p => ∃ g : evl_tp_schedule, kheap k !! p = Some g ∧ tp_table_ok g
  end.

(** The heap once the install request has built its table in the block
    [p]. *)
Definition tp_candidate (p : positive) (ws : list __evl_tp_window) (k : kernel)
  : kernel :=
  set_kheap (<[p := tp_installed_table ws]> (kheap k)) k.

(** The heap after one reference to the table [q] has been put. *)
Definition tp_put_heap (q : positive) (h : gmap positive evl_tp_schedule)
  : gmap positive evl_tp_schedule :=
  match h !! q with
  | Some g =>
      if refcount g - 1 =? 0 then delete q h
      else <[q := set_refcount (refcount g - 1) g]> h
  | None => h
  end.

(** What putting that reference adds to the log. *)
Definition tp_put_log (q : positive) (h : gmap positive evl_tp_schedule)
  : list event :=
  match h !! q with
  | Some g =>
      EvRefDrop q :: (if refcount g - 1 =? 0 then [EvFree (Some q)] else [])
  | None => []
  end.

(** The kernel after a granted swap to [new]. *)
Definition tp_granted (new : option positive) (k : kernel) : kernel :=
  {| rq_tp :=
       set_gps new
         (match gps (rq_tp k) with
          | Some _ =>
              set_tf_timer
                {| timer_running := false;
                   timer_date := timer_date (tf_timer (rq_tp k)) |} (rq_tp k)
          | None => rq_tp k
          end);
     rq_curr := rq_curr k;
     kthreads := kthreads k;
     kheap := match gps (rq_tp k) with
              | Some q => tp_put_heap q (kheap k)
              | None => kheap k
              end;
     kreads := kreads k;
     klog := klog k
             ++ [EvLock]
             ++ match gps (rq_tp k) with
                | Some _ => [EvStopTimer]
                | None => []
                end
             ++ [EvUnlock]
             ++ match gps (rq_tp k) with
                | Some q => tp_put_log q (kheap k)
                | None => []
                end
             ++ [EvSchedule] |}.

(** The thread state asks for an overrun notification: the overrun bit is
    set and none of the blocking bits is. *)
Definition tp_overrun_wanted (c : evl_thread) : bool :=
  (Z.land (state c) (EVL_T_WOSO E) =? EVL_T_WOSO E)
  && (Z.land (state c) (EVL_THREAD_BLOCK_BITS E) =? 0).

(** The window that ends when the tick finds the index at [i]. *)
Definition tp_ending_window (g : evl_tp_schedule) (i : Z) : Z :=
  if i - 1 <? 0 then pwin_nr g - 1 else i - 1.

(** ** Reading a schedule back *)

(** The copy loop entered at index [n] with [pp] and [pw] trailing, and the
    closing store, for a frame of duration [d]. *)
Definition tp_copy_close (d : Z) (todo n pp pw : nat)
  (src : list evl_tp_window) (dst : list __evl_tp_window)
  : outcome (list __evl_tp_window) :=
  '(pp', pw', ws) ← tp_copy_windows todo n pp pw src dst;
  pwv ← deref (src !! pw');
  store ws pp' (set_duration (ktime_to_u_timespec (d - w_offset pwv))).

(** A user window with both timespecs normalised. *)
Definition tp_normalised (p : __evl_tp_window) : __evl_tp_window :=
  {| offset := ktime_to_u_timespec (u_timespec_to_ktime (offset p));
     duration := ktime_to_u_timespec (u_timespec_to_ktime (duration p));
     ptid := ptid p |}.

(** The entry of the last window copied: it runs to the end of the frame. *)
Definition tp_last_entry (d acc : Z) (p : __evl_tp_window) : __evl_tp_window :=
  {| offset := ktime_to_u_timespec acc;
     duration := ktime_to_u_timespec (d - acc);
     ptid := ptid p |}.

(** What is copied out for the window [p0], which begins at [acc], and the
    [todo] windows after it. *)
Fixpoint tp_snapshot (d : Z) (todo : nat) (acc : Z) (p0 : __evl_tp_window)
  (ws : list __evl_tp_window) : list __evl_tp_window :=
  match todo, ws with
  | S todo', p1 :: ws' =>
      tp_normalised p0
        :: tp_snapshot d todo' (acc + u_timespec_to_ktime (duration p0)) p1 ws'
  | _, _ => [tp_last_entry d acc p0]
  end.

(** A sequence of priority-tracking calls on one thread: a boost to the
    given parameters, or a restore when none are given. *)
Fixpoint tp_track_all (thread : nat) (ps : list (option evl_sched_param))
  (k : kernel) : outcome kernel :=
  match ps with
  | [] => Done k
  | p :: ps' => k' ← tp_trackprio thread p k; tp_track_all thread ps' k'
  end.

(** ** Calls into the class *)

(** The operations of the scheduling class that change the state, and the
    expiry of the frame timer. *)
Inductive tp_call : Type :=
| CallEnqueue (thread : nat)
| CallDequeue (thread : nat)
| CallRequeue (thread : nat)
| CallPick
| CallTick
| CallSetparam (thread : nat) (p : evl_sched_param)
| CallTrackprio (thread : nat) (p : option evl_sched_param)
| CallCeilprio (thread : nat) (prio : Z)
| CallDeclare (thread : nat) (p : evl_sched_param)
| CallForget (thread : nat)
| CallControl (cpu : Z) (pt : evl_tp_ctlparam) (infp : option evl_tp_ctlinfo)
              (mem : option positive).

Definition tp_call_run (fuel : nat) (c : tp_call) (k : kernel) : outcome kernel :=
  match c with
  | CallEnqueue t => tp_enqueue E t k
  | CallDequeue t => tp_dequeue E t k
  | CallRequeue t => tp_requeue E t k
  | CallPick => '(_, k') ← tp_pick k; Done k'
  | CallTick => tp_tick_handler E fuel k
  | CallSetparam t p => '(_, k') ← tp_setparam E t p k; Done k'
  | CallTrackprio t p => tp_trackprio t p k
  | CallCeilprio t prio => tp_ceilprio E t prio k
  | CallDeclare t p => Done (tp_declare t p k).2
  | CallForget t => tp_forget t k
  | CallControl cpu pt infp mem =>
      '(_, _, k') ← tp_control E fuel cpu pt infp mem k; Done k'
  end.

Fixpoint tp_calls_run (fuel : nat) (cs : list tp_call) (k : kernel)
  : outcome kernel :=
  match cs with
  | [] => Done k
  | c :: cs' => k' ← tp_call_run fuel c k; tp_calls_run fuel cs' k'
  end.

(** The kernel after a get request on the table [p]: the table was pinned
    under the lock and released after the copy. *)
Definition tp_read (p : positive) (k : kernel) : kernel :=
  emit (EvRefDrop p) (emit EvUnlock (emit (EvRefTake p) (emit EvLock k))).

(** ** Readers of the installed table *)

(** [n] readers pin the installed table, one after the other. *)
Fixpoint tp_pins (n : nat) (k : kernel) : outcome kernel :=
  match n with
  | O => Done k
  | S n' => '(_, k1) ← get_tp_schedule k; tp_pins n' k1
  end.

(** [n] references to the table [p] are put, one after the other. *)
Fixpoint tp_puts (n : nat) (p : positive) (k : kernel) : outcome kernel :=
  match n with
  | O => Done k
  | S n' => k1 ← put_tp_schedule p k; tp_puts n' p k1
  end.

(** ** Threads and their partitions *)

(** What the class relies on when it calls
    [evl_set_effective_thread_priority]: the helper leaves the partition
    pointer of the thread alone. *)
Definition tp_prio_keeps_partition : Prop :=
  ∀ (t : evl_thread) (prio : Z),
    th_tps (evl_set_effective_thread_priority E t prio).2 = th_tps t.

(** [n] calls of the pick operation in a row, with what each returned. *)
Fixpoint tp_picks (n : nat) (k : kernel) : outcome (list (option nat) * kernel) :=
  match n with
  | O => Done ([], k)
  | S n' =>
      '(t, k1) ← tp_pick k;
      '(l, k2) ← tp_picks n' k1;
      Done (t :: l, k2)
  end.

(** ** What holds of every run queue the class can reach *)

(** A well-formed table whose partition ids all pass the test of the
    install request. *)
Record tp_table_sound (g : evl_tp_schedule) : Prop := {
  sound_ok : tp_table_ok g;
  sound_parts :
    ∀ w : evl_tp_window,
      w ∈ pwins g → -1 ≤ w_part w < CONFIG_EVL_SCHED_TP_NR_PART E
}.

(** A pointer to the idle queue or to an existing partition. *)
Definition tp_ref_ok (r : tp_rq_ref) : Prop :=
  match r with
  | TpIdle => True
  | TpPart n => 0 ≤ n < CONFIG_EVL_SCHED_TP_NR_PART E
  end.

(** The array of partitions has its configured size; the installed table,
    if any, is a live, well-formed table the run queue holds a reference
    to; and a running frame timer comes with a table, a window index inside
    it and an active partition that exists. *)
Record tp_sound (k : kernel) : Prop := {
  snd_partitions :
    length (partitions (rq_tp k)) = Z.to_nat (CONFIG_EVL_SCHED_TP_NR_PART E);
  snd_table :
    ∀ p : positive,
      gps (rq_tp k) = Some p →
      ∃ g : evl_tp_schedule,
        kheap k !! p = Some g ∧ tp_table_sound g ∧ 0 < refcount g;
  snd_running :
    timer_running (tf_timer (rq_tp k)) = true →
    ∃ (p : positive) (g : evl_tp_schedule) (r : tp_rq_ref),
      gps (rq_tp k) = Some p ∧ kheap k !! p = Some g ∧
      0 ≤ wnext (rq_tp k) < pwin_nr g ∧
      tps (rq_tp k) = Some r ∧ tp_ref_ok r
}.

(** What the callers of the class see to: the timer core runs the handler
    of a running timer only, and [evl_alloc] hands out a block that is not
    in use. *)
Definition tp_call_ok (c : tp_call) (k : kernel) : Prop :=
  match c with
  | CallTick => timer_running (tf_timer (rq_tp k)) = true
  | CallControl _ _ _ (Some p) => kheap k !! p = None
  | _ => True
  end.

(** The run queues reached from [tp_init] by such calls. *)
Inductive tp_reachable : kernel → Prop :=
| tp_reach_init (k0 : kernel) : tp_reachable (tp_init E k0)
| tp_reach_call (fuel : nat) (c : tp_call) (k k' : kernel) :
    tp_reachable k →
    tp_call_ok c k →
    tp_call_run fuel c k = Done k' →
    tp_reachable k'.

(** ** Priorities and warnings *)

(** A call that tracks or caps the priority of a thread. *)
Definition tp_priority_call (c : tp_call) : Prop :=
  match c with
  | CallTrackprio _ _ | CallCeilprio _ _ => True
  | _ => False
  end.

(** The thread such a call is about is a thread of the kernel [k]. *)
Definition tp_call_known (c : tp_call) (k : kernel) : Prop :=
  match c with
  | CallTrackprio t _ | CallCeilprio t _ => is_Some (kthreads k !! t)
  | _ => True
  end.

(** Where a thread stands: its partition, state bits, base priority and
    base class. *)
Definition tp_placement (th : evl_thread) : option Z * Z * Z * bool :=
  (th_tps th, state th, bprio th, base_class_tp th).

(** The windows of a table tile its frame: offsets increase strictly with
    the index and stay inside the frame. *)
Record tp_table_tiled (g : evl_tp_schedule) : Prop := {
  tiled_increasing :
    ∀ (i j : nat) (wi wj : evl_tp_window),
      (i < j)%nat → pwins g !! i = Some wi → pwins g !! j = Some wj →
      w_offset wi < w_offset wj;
  tiled_inside :
    ∀ (i : nat) (w : evl_tp_window),
      pwins g !! i = Some w → 0 ≤ w_offset w < tf_duration g
}.

(** ** What a control request needs from its caller *)

(** The user memory a control request reads and writes is there: an
    install request comes with at least [nr_windows] windows, and the reply
    buffer of a get request has room for the windows to copy and for one
    window at least. *)
Definition tp_request_ok (pt : evl_tp_ctlparam) (infp : option evl_tp_ctlinfo)
  (k : kernel) : Prop :=
  match op pt with
  | evl_tp_install => nr_windows pt ≤ Z.of_nat (length (windows pt))
  | evl_tp_get =>
      ∀ (it : evl_tp_ctlinfo) (p : positive) (g : evl_tp_schedule),
        infp = Some it → gps (rq_tp k) = Some p → kheap k !! p = Some g →
        (0 < length (it_windows it))%nat ∧
        Z.min (nr_windows pt) (pwin_nr g) ≤ Z.of_nat (length (it_windows it))
  | _ => True
  end.


End Vocabulary.

(** * Scenarios *)

(** A configuration to run the scenarios on: four partitions, state bits as
    in the EVL user ABI, arrival-order run queues, and a clock that returns
    the given readings. *)
Definition sample_core (clock : nat → Z) : evl_core :=
  {| CONFIG_EVL_SCHED_TP_NR_PART := 4;
     EVL_TP_MIN_PRIO := 1;
     EVL_TP_MAX_PRIO := 50;
     EVL_T_WOSO := 0x400000;
     EVL_T_WEAK := 0x2000;
     EVL_THREAD_BLOCK_BITS := 0x5af;
     cpu_present := fun cpu => cpu <? 4;
     is_threading_cpu := fun _ => true;
     evl_mono_clock := clock;
     evl_tp_infolen := fun n => 8 + 40 * n;
     evl_add_schedq_tail := fun _ q t => q ++ [t];
     evl_add_schedq := fun _ q t => t :: q;
     evl_del_schedq := fun q t => filter (fun x => x ≠ t) q;
     evl_set_effective_thread_priority := fun t prio => (true, set_cprio prio t) |}.

(** A clock that returns the listed readings in turn, then stands still. *)
Definition readings (l : list Z) (n : nat) : Z := nth n l (default 0 (last l)).

Definition msec (n : Z) : Z := n * 1000000.

Definition root_thread : evl_thread :=
  {| state := 0; bprio := 0; cprio := 0; th_tps := None; base_class_tp := false |}.

(** A CPU right after [tp_init], running thread 0. *)
Definition booted (E : evl_core) : kernel :=
  tp_init E
    {| rq_tp := {| partitions := []; idle := []; tps := None;
                   tf_timer := {| timer_running := false; timer_date := 0 |};
                   gps := None; wnext := 0; tf_start := 0; threads := [] |};
       rq_curr := 0%nat;
       kthreads := {[ 0%nat := root_thread ]};
       kheap := ∅;
       kreads := 0%nat;
       klog := [] |}.

Definition outcome_get {A : Type} (d : A) (o : outcome A) : A :=
  match o with
  | Done a => a
  | _ => d
  end.

Definition request (o : evl_tp_ctlop) (ws : list __evl_tp_window) : evl_tp_ctlparam :=
  {| op := o; nr_windows := Z.of_nat (length ws); windows := ws |}.

Definition window (off dur : Z) (part : Z) : __evl_tp_window :=
  {| offset := ktime_to_u_timespec off;
     duration := ktime_to_u_timespec dur;
     ptid := part |}.

(** [(0,10ms,P0), (10ms,5ms,Idle), (15ms,10ms,P1)] *)
Definition three_windows : list __evl_tp_window :=
  [window (msec 0) (msec 10) 0; window (msec 10) (msec 5) (-1);
   window (msec 15) (msec 10) 1].

Definition three_windows_table : evl_tp_schedule :=
  {| pwin_nr := 3; tf_duration := msec 25; refcount := 1;
     pwins := [ {| w_offset := msec 0; w_part := 0 |};
                {| w_offset := msec 10; w_part := -1 |};
                {| w_offset := msec 15; w_part := 1 |} ] |}.

(** The clock of the frame scenario: [start] reads it twice at t = 0, and
    every expiry of the frame timer reads it once, at the programmed date. *)
Definition frame_core : evl_core :=
  sample_core (readings (map msec [0; 0; 10; 15; 25; 35; 40])).



(** A run queue with the three windows installed, about to enter window 0
    of the frame that started at t = 0. *)
Definition late_kernel : kernel :=
  {| rq_tp := {| partitions := [[]; []; []; []]; idle := []; tps := None;
                 tf_timer := {| timer_running := true; timer_date := 0 |};
                 gps := Some 1%positive; wnext := 0; tf_start := 0;
                 threads := [] |};
     rq_curr := 0%nat;
     kthreads := {[ 0%nat := root_thread ]};
     kheap := {[ 1%positive := three_windows_table ]};
     kreads := 0%nat;
     klog := [] |}.

(** The clock reads 50 ms, two whole frames after the frame start, and does
    not move while the loop runs. *)
Definition standing_core : evl_core := sample_core (readings [msec 50]).





(** [(0,10ms,P0), (5ms,10ms,P1)]: the second offset should be 10 ms. *)
Definition gapped_windows : list __evl_tp_window :=
  [window (msec 0) (msec 10) 0; window (msec 5) (msec 10) 1].

Definition some_param : evl_sched_param := {| tp_prio := 10; tp_ptid := 0 |}.

(** The booted CPU with thread 0 attached to the TP policy. *)
Definition attached : kernel := (tp_declare 0%nat some_param (booted frame_core)).2.

(** The booted CPU with the three windows installed. *)
Definition installed : kernel :=
  outcome_get (booted frame_core)
    ('(_, _, k1) ← tp_control frame_core 1 0
                     (request evl_tp_install three_windows)
                     None (Some 1%positive) (booted frame_core);
     Done k1).

(** A running thread that asked for overrun notifications. *)
Definition woso_thread : evl_thread :=
  {| state := 0x400000; bprio := 10; cprio := 10; th_tps := Some 0;
     base_class_tp := true |}.

(** [late_kernel] with that thread running. *)
Definition overrun_kernel : kernel :=
  set_kthreads {[ 0%nat := woso_thread ]} late_kernel.

(** A reply buffer with room for [n] windows, not yet written. *)
Definition blank_info (n : nat) : evl_tp_ctlinfo :=
  {| it_nr_windows := 0; it_windows := replicate n (window 0 0 0) |}.

(** The three windows installed, the schedule not started, and thread 0
    waiting on the run queue of partition 0. *)
Definition stopped_with_thread : kernel :=
  upd_tp (set_partitions [[0%nat]; []; []; []]) installed.

(** * Properties *)

(** ** Basic facts about outcomes, records and arithmetic *)

Lemma evl_sched_tp_eq (a b : evl_sched_tp) :
  partitions a = partitions b → idle a = idle b → tps a = tps b →
  tf_timer a = tf_timer b → gps a = gps b → wnext a = wnext b →
  tf_start a = tf_start b → threads a = threads b →
  a = b.
Proof. destruct a, b. cbn. by intros -> -> -> -> -> -> -> ->. Qed.

Lemma kernel_eq (a b : kernel) :
  rq_tp a = rq_tp b → rq_curr a = rq_curr b → kthreads a = kthreads b →
  kheap a = kheap b → kreads a = kreads b → klog a = klog b →
  a = b.
Proof. destruct a, b. cbn. by intros -> -> -> -> -> ->. Qed.

Ltac kernel_ext :=
  apply kernel_eq; [apply evl_sched_tp_eq | ..]; unfold_setters.

Lemma bind_Done {A B : Type} (a : A) (f : A → outcome B) :
  (Done a ≫= f) = f a.
Proof. reflexivity. Qed.

Lemma bind_inv_Done {A B : Type} (m : outcome A) (f : A → outcome B) (b : B) :
  (m ≫= f) = Done b → ∃ a, m = Done a ∧ f a = Done b.
Proof. destruct m as [a| |]; try discriminate. intros H. by exists a. Qed.

Lemma deref_Some {A : Type} (o : option A) (a : A) : o = Some a → deref o = Done a.
Proof. by intros ->. Qed.

Lemma rem_is_mod (a b : Z) : 0 ≤ a → 0 < b → a `rem` b = a `mod` b.
Proof. intros Ha Hb. apply Z.rem_mod_nonneg; lia. Qed.

Lemma at_index_lookup {A : Type} (l : list A) (i : Z) :
  0 ≤ i → at_index l i = l !! Z.to_nat i.
Proof.
  intros Hi. unfold at_index.
  destruct (i <? 0) eqn:Hlt; [apply Z.ltb_lt in Hlt; lia | reflexivity].
Qed.

Lemma at_index_is_Some {A : Type} (l : list A) (i : Z) :
  0 ≤ i < Z.of_nat (length l) → is_Some (at_index l i).
Proof.
  intros [Hi Hlen]. rewrite at_index_lookup by done.
  apply lookup_lt_is_Some. lia.
Qed.

(** ** Well-formed tables and run queues *)

Lemma win_lookup (g : evl_tp_schedule) (i : Z) :
  tp_table_ok g → 0 ≤ i < pwin_nr g →
  at_index (pwins g) i =
    Some {| w_offset := win_offset g i; w_part := win_part g i |}.
Proof.
  intros Hok Hi. unfold win_offset, win_part.
  destruct (at_index_is_Some (pwins g) i) as [w Hw].
  { rewrite <- (ok_len g Hok). lia. }
  rewrite Hw. simpl. by destruct w.
Qed.

Lemma win_offset_0 (g : evl_tp_schedule) : tp_table_ok g → win_offset g 0 = 0.
Proof.
  intros Hok. destruct (ok_first g Hok) as (w & Hw & H0).
  unfold win_offset. rewrite at_index_lookup by lia.
  change (Z.to_nat 0) with 0%nat. rewrite Hw. simpl. exact H0.
Qed.

Section Windows.

Context (E : evl_core).

(** ** One pass through [tp_schedule_next] *)

Lemma cur_schedule_installed (k : kernel) (g : evl_tp_schedule) :
  tp_installed k g → cur_schedule k = Done g.
Proof.
  intros [(p & Hp & Hg) _ _]. unfold cur_schedule. rewrite Hp. simpl.
  rewrite Hg. reflexivity.
Qed.

(** The loop leaves at once when the clock has not passed the date. *)
Lemma tp_resync_on_time (fuel : nat) (g : evl_tp_schedule) (t : Z) (k : kernel) :
  evl_mono_clock E (kreads k) ≤ t →
  tp_resync E (S fuel) g t k = Done (t, set_kreads (S (kreads k)) k).
Proof.
  intros Hle. simpl.
  destruct (evl_mono_clock E (kreads k) <=? t) eqn:Hc; [reflexivity|].
  apply Z.leb_gt in Hc. lia.
Qed.

Lemma tp_schedule_next_unfold (fuel : nat) (k : kernel) (g : evl_tp_schedule) :
  tp_installed k g →
  tp_schedule_next E fuel k =
    ('(t', k3) ← tp_resync E fuel g (tp_first_date g k) (tp_advanced g k);
     Done (evl_set_resched (evl_start_timer t' k3))).
Proof.
  intros Hin. pose proof (inst_ok k g Hin) as Hok.
  pose proof (inst_wnext k g Hin) as Hw. pose proof (ok_nr g Hok) as Hn.
  unfold tp_schedule_next. rewrite (cur_schedule_installed k g Hin), bind_Done.
  rewrite (win_lookup g _ Hok Hw). simpl deref. rewrite bind_Done.
  destruct (pwin_nr g =? 0) eqn:H0; [apply Z.eqb_eq in H0; lia|].
  cbn [upd_tp rq_tp set_wnext set_tps wnext tf_start w_part].
  rewrite rem_is_mod by lia.
  rewrite (win_lookup g ((wnext (rq_tp k) + 1) `mod` pwin_nr g) Hok)
    by (apply Z.mod_pos_bound; lia).
  simpl deref. rewrite bind_Done. reflexivity.
Qed.

(** ** The catch-up loop *)

(** Once the candidate date is the frame start itself, every further round
    reduces the lag by at least one nanosecond. *)
Lemma tp_resync_aligned (g : evl_tp_schedule) :
  clock_gains_less E (tf_duration g) →
  ∀ (m : nat) (k : kernel),
    evl_mono_clock E (kreads k) - tf_start (rq_tp k) ≤ Z.of_nat m →
    ∃ n : nat,
      (n ≤ m)%nat ∧
      evl_mono_clock E (kreads k + n)%nat
        ≤ tf_start (rq_tp k) + Z.of_nat n * tf_duration g ∧
      ∀ fuel : nat,
        tp_resync E (S n + fuel) g (tf_start (rq_tp k)) k =
          Done (tf_start (rq_tp k) + Z.of_nat n * tf_duration g,
                tp_resynced n g k).
Proof.
  intros Hrate m. induction m as [|m IH]; intros k Hlag.
  - exists 0%nat. split; [lia|]. rewrite Nat.add_0_r. split; [lia|].
    intros fuel. rewrite tp_resync_on_time by lia.
    unfold tp_resynced. do 2 f_equal; [lia|]. f_equal. lia.
  - destruct (Z_le_gt_dec (evl_mono_clock E (kreads k)) (tf_start (rq_tp k)))
      as [Hle|Hgt].
    + exists 0%nat. split; [lia|]. rewrite Nat.add_0_r. split; [lia|].
      intros fuel. rewrite tp_resync_on_time by lia.
      unfold tp_resynced. do 2 f_equal; [lia|]. f_equal. lia.
    + set (t' := tf_start (rq_tp k) + tf_duration g).
      set (k1 := upd_tp (fun tp => set_wnext 0 (set_tf_start t' tp))
                        (set_kreads (S (kreads k)) k)).
      destruct (IH k1) as (n & Hn & Hclk & Hrun).
      { subst k1 t'. cbn. pose proof (Hrate (kreads k)). lia. }
      exists (S n). split; [lia|]. split.
      { replace (kreads k + S n)%nat with (kreads k1 + n)%nat
          by (subst k1; cbn; lia).
        etrans; [exact Hclk|]. subst k1 t'. cbn. lia. }
      intros fuel. change (S (S n) + fuel)%nat with (S (S n + fuel)).
      cbn [tp_resync evl_read_clock].
      destruct (evl_mono_clock E (kreads k) <=? tf_start (rq_tp k)) eqn:Hc;
        [apply Z.leb_le in Hc; lia|].
      specialize (Hrun fuel).
      replace (tf_start (rq_tp k1)) with t' in Hrun by reflexivity.
      etrans; [exact Hrun|]. subst k1 t'. unfold tp_resynced. cbn.
      f_equal. f_equal; [lia|].
      destruct n; kernel_ext; try reflexivity; lia.
Qed.

(** A late entry: the first round aligns the candidate date on the frame
    start, the aligned rounds then catch up with the clock. *)
Lemma tp_resync_late (g : evl_tp_schedule) (t : Z) (k : kernel) :
  clock_gains_less E (tf_duration g) →
  t < evl_mono_clock E (kreads k) →
  ∃ n : nat,
    evl_mono_clock E (kreads k + S n)%nat
      ≤ tf_start (rq_tp k) + Z.of_nat (S n) * tf_duration g ∧
    ∀ fuel : nat,
      tp_resync E (S (S n) + fuel) g t k =
        Done (tf_start (rq_tp k) + Z.of_nat (S n) * tf_duration g,
              tp_resynced (S n) g k).
Proof.
  intros Hrate Hlate.
  set (t' := tf_start (rq_tp k) + tf_duration g).
  set (k1 := upd_tp (fun tp => set_wnext 0 (set_tf_start t' tp))
                    (set_kreads (S (kreads k)) k)).
  destruct (tp_resync_aligned g Hrate
              (Z.to_nat (evl_mono_clock E (kreads k1) - tf_start (rq_tp k1))) k1)
    as (n & _ & Hclk & Hrun); [lia|].
  exists n. split.
  { replace (kreads k + S n)%nat with (kreads k1 + n)%nat
      by (subst k1; cbn; lia).
    etrans; [exact Hclk|]. subst k1 t'. cbn. lia. }
  intros fuel. change (S (S n) + fuel)%nat with (S (S n + fuel)).
  cbn [tp_resync evl_read_clock].
  destruct (evl_mono_clock E (kreads k) <=? t) eqn:Hc;
    [apply Z.leb_le in Hc; lia|].
  specialize (Hrun fuel).
  replace (tf_start (rq_tp k1)) with t' in Hrun by reflexivity.
  etrans; [exact Hrun|]. subst k1 t'. unfold tp_resynced. cbn.
  f_equal. f_equal; [lia|].
  destruct n; kernel_ext; try reflexivity; lia.
Qed.

Lemma tp_schedule_next_on_time (fuel : nat) (k : kernel) (g : evl_tp_schedule) :
  tp_installed k g →
  evl_mono_clock E (kreads k) ≤ tp_first_date g k →
  tp_schedule_next E (S fuel) k =
    Done (evl_set_resched
            (evl_start_timer (tp_first_date g k)
               (set_kreads (S (kreads k)) (tp_advanced g k)))).
Proof.
  intros Hin Hle. rewrite (tp_schedule_next_unfold (S fuel) k g Hin).
  rewrite tp_resync_on_time by exact Hle. reflexivity.
Qed.

Lemma tp_schedule_next_late (k : kernel) (g : evl_tp_schedule) :
  tp_installed k g →
  clock_gains_less E (tf_duration g) →
  tp_first_date g k < evl_mono_clock E (kreads k) →
  ∃ n : nat,
    evl_mono_clock E (kreads k + S n)%nat
      ≤ tf_start (rq_tp k) + Z.of_nat (S n) * tf_duration g ∧
    ∀ fuel : nat,
      tp_schedule_next E (S (S n) + fuel) k =
        Done (evl_set_resched
                (evl_start_timer
                   (tf_start (rq_tp k) + Z.of_nat (S n) * tf_duration g)
                   (tp_resynced (S n) g (tp_advanced g k)))).
Proof.
  intros Hin Hrate Hlate.
  destruct (tp_resync_late g (tp_first_date g k) (tp_advanced g k) Hrate Hlate)
    as (n & Hclk & Hrun).
  exists n. split; [exact Hclk|]. intros fuel.
  rewrite (tp_schedule_next_unfold _ k g Hin), Hrun. reflexivity.
Qed.

(** With a clock that gains less than a frame per round, the window advance
    always returns. *)
Lemma tp_schedule_next_returns (k : kernel) (g : evl_tp_schedule) :
  tp_installed k g →
  clock_gains_less E (tf_duration g) →
  ∃ (n : nat) (k' : kernel),
    (∀ fuel : nat, tp_schedule_next E (S n + fuel) k = Done k') ∧
    tp_next_frame k k' ∧
    tps (rq_tp k') = Some (part_ref (win_part g (wnext (rq_tp k)))) ∧
    0 ≤ wnext (rq_tp k') < pwin_nr g ∧
    timer_date (tf_timer (rq_tp k'))
      = tf_start (rq_tp k') + win_offset g (wnext (rq_tp k')).
Proof.
  intros Hin Hrate. pose proof (inst_ok k g Hin) as Hok.
  pose proof (ok_nr g Hok) as Hn.
  destruct (Z_le_gt_dec (evl_mono_clock E (kreads k)) (tp_first_date g k))
    as [Hle|Hgt].
  - exists 0%nat. eexists. split.
    { intros fuel. apply tp_schedule_next_on_time; done. }
    split; [split; try reflexivity; cbn; by rewrite <- app_assoc|].
    split; [reflexivity|]. split; [|reflexivity].
    cbn. apply Z.mod_pos_bound. lia.
  - destruct (tp_schedule_next_late k g Hin Hrate) as (n & _ & Hrun); [lia|].
    exists (S n). eexists. split; [exact Hrun|].
    split; [split; try reflexivity; cbn; by rewrite <- app_assoc|].
    split; [reflexivity|]. split; [cbn; lia|].
    cbn [tp_resynced evl_set_resched evl_start_timer emit upd_tp set_kreads
         rq_tp tf_timer timer_date set_tf_timer set_wnext set_tf_start wnext
         tf_start].
    by rewrite (win_offset_0 g Hok), Z.add_0_r.
Qed.

(** ** The tick handler *)

Lemma tp_installed_same (k k' : kernel) (g : evl_tp_schedule) :
  tp_installed k g →
  gps (rq_tp k') = gps (rq_tp k) → kheap k' = kheap k →
  0 ≤ wnext (rq_tp k') < pwin_nr g →
  tp_installed k' g.
Proof.
  intros [(p & Hp & Hg) Hok _] Hgps Hheap Hw. split; [|done|done].
  exists p. by rewrite Hgps, Hheap.
Qed.

Lemma tp_tick_entered_installed (k : kernel) (g : evl_tp_schedule) :
  tp_installed k g → tp_installed (tp_tick_entered g k) g.
Proof.
  intros Hin. pose proof (inst_wnext k g Hin).
  apply (tp_installed_same k); [done| | |];
    unfold tp_tick_entered; cbn;
    destruct (wnext (rq_tp k) + 1 =? pwin_nr g); done.
Qed.

Lemma tp_tick_handler_unfold (fuel : nat) (k : kernel) (g : evl_tp_schedule)
  (c : evl_thread) :
  tp_installed k g →
  kthreads k !! rq_curr k = Some c →
  tp_tick_handler E fuel k =
    (k3 ← tp_schedule_next E fuel (tp_tick_entered g k);
     Done (tp_tick_leave (rq_curr k) (overrun_frame_of E c (rq_tp k) g) k3)).
Proof.
  intros Hin Hc. unfold tp_tick_handler.
  change (kthreads (raw_spin_lock k)) with (kthreads k). rewrite Hc.
  simpl deref. rewrite bind_Done.
  assert (tp_installed (raw_spin_lock k) g) as Hin1.
  { apply (tp_installed_same k); try done. apply (inst_wnext k g Hin). }
  rewrite (cur_schedule_installed _ g Hin1), bind_Done. reflexivity.
Qed.




End Windows.

(** ** Cycling through the windows *)


Section Cycle.

Context (E : evl_core).


End Cycle.

(** ** Starting the schedule *)

Section Start.

Context (E : evl_core).

Lemma start_tp_schedule_unfold (fuel : nat) (k : kernel) (p : positive) :
  gps (rq_tp k) = Some p →
  start_tp_schedule E fuel k =
    tp_schedule_next E fuel
      (upd_tp (set_tf_start (evl_mono_clock E (kreads k)))
         (set_kreads (S (kreads k)) (upd_tp (set_wnext 0) k))).
Proof. intros Hp. unfold start_tp_schedule. by rewrite Hp. Qed.


End Start.

(** ** C1: the frame timer walks the windows in order *)



(** ** C2: catching up after a late expiry *)




Lemma standing_clock_gains_nothing (d : Z) :
  0 < d → clock_gains_less standing_core d.
Proof.
  intros Hd j. replace (evl_mono_clock standing_core (S j)) with (msec 50).
  - replace (evl_mono_clock standing_core j) with (msec 50); [lia|].
    by destruct j as [|[|j]].
  - by destruct j as [|[|j]].
Qed.


(** ** Validation of the window list *)

Section Validation.

Context (E : evl_core).

(** The kernel is configured with at least one partition. *)
Hypothesis nr_part_positive : 0 < CONFIG_EVL_SCHED_TP_NR_PART E.

Lemma tp_windows_valid_from_nil (acc : Z) : tp_windows_valid_from E acc [].
Proof using Type. split; [intros i p Hp; done | intros p Hp; by apply elem_of_nil in Hp ..]. Qed.

Lemma tp_total_cons (p : __evl_tp_window) (ws : list __evl_tp_window) :
  tp_total (p :: ws) = u_timespec_to_ktime (duration p) + tp_total ws.
Proof using Type. reflexivity. Qed.

Lemma tp_windows_valid_from_cons (acc : Z) (p : __evl_tp_window)
  (ws : list __evl_tp_window) :
  tp_windows_valid_from E acc (p :: ws) ↔
  u_timespec_to_ktime (offset p) = acc ∧
  0 < u_timespec_to_ktime (duration p) ∧
  (0 ≤ ptid p < CONFIG_EVL_SCHED_TP_NR_PART E ∨ ptid p = -1) ∧
  tp_windows_valid_from E (acc + u_timespec_to_ktime (duration p)) ws.
Proof using Type.
  split.
  - intros [Hc Hd Hp]. split_and!.
    + rewrite (Hc 0%nat p eq_refl). change (tp_total (take 0 (p :: ws))) with 0. lia.
    + apply Hd. by left.
    + apply Hp. by left.
    + split.
      * intros i q Hq. rewrite (Hc (S i) q Hq).
        change (take (S i) (p :: ws)) with (p :: take i ws).
        rewrite tp_total_cons. lia.
      * intros q Hq. apply Hd. by right.
      * intros q Hq. apply Hp. by right.
  - intros (Ho & Hd & Hp & [Hc' Hd' Hp']). split.
    + intros [|i] q Hq.
      * injection Hq as <-. change (tp_total (take 0 (p :: ws))) with 0. lia.
      * rewrite (Hc' i q Hq).
        change (take (S i) (p :: ws)) with (p :: take i ws).
        rewrite tp_total_cons. lia.
    + intros q Hq. apply elem_of_cons in Hq as [->|Hq]; [done | by apply Hd'].
    + intros q Hq. apply elem_of_cons in Hq as [->|Hq]; [done | by apply Hp'].
Qed.

(** The loop accepts exactly the contiguous lists, and builds their table. *)
Lemma tp_scan_windows_spec (ws : list __evl_tp_window) :
  ∀ acc : Z,
    (tp_windows_valid_from E acc ws ∧
     tp_scan_windows E (length ws) ws acc =
       Done (Some (tp_built acc ws, acc + tp_total ws))) ∨
    (¬ tp_windows_valid_from E acc ws ∧
     tp_scan_windows E (length ws) ws acc = Done None).
Proof using nr_part_positive.
  induction ws as [|p ws IH]; intros acc.
  - left. split; [apply tp_windows_valid_from_nil|].
    change (tp_total []) with 0. by rewrite Z.add_0_r.
  - cbn [length tp_scan_windows head tail deref]. rewrite bind_Done.
    destruct (u_timespec_to_ktime (offset p) =? acc) eqn:Ho; cbn [negb].
    2:{ right. split; [|done]. rewrite tp_windows_valid_from_cons.
        apply Z.eqb_neq in Ho. tauto. }
    apply Z.eqb_eq in Ho.
    destruct (u_timespec_to_ktime (duration p) <=? 0) eqn:Hd.
    { right. split; [|done]. rewrite tp_windows_valid_from_cons.
      apply Z.leb_le in Hd. intros (_ & Hq & _). lia. }
    apply Z.leb_gt in Hd.
    destruct ((ptid p <? -1) || (CONFIG_EVL_SCHED_TP_NR_PART E <=? ptid p))
      eqn:Hp.
    { right. split; [|done]. rewrite tp_windows_valid_from_cons.
      apply orb_true_iff in Hp as [Hp|Hp];
        [apply Z.ltb_lt in Hp | apply Z.leb_le in Hp];
        intros (_ & _ & Hq & _); lia. }
    apply orb_false_iff in Hp as [Hp1 Hp2].
    apply Z.ltb_ge in Hp1. apply Z.leb_gt in Hp2.
    destruct (IH (acc + u_timespec_to_ktime (duration p))) as [[Hv Hs]|[Hv Hs]];
      rewrite Hs, bind_Done.
    + left. split.
      * rewrite tp_windows_valid_from_cons. split_and!; try done. lia.
      * rewrite tp_total_cons. cbn [tp_built]. do 3 f_equal. lia.
    + right. split; [|done]. rewrite tp_windows_valid_from_cons. tauto.
Qed.

Lemma tp_built_length (ws : list __evl_tp_window) (acc : Z) :
  length (tp_built acc ws) = length ws.
Proof using Type. revert acc. induction ws as [|p ws IH]; intros acc; cbn; by rewrite ?IH. Qed.

Lemma tp_total_positive (ws : list __evl_tp_window) (acc : Z) :
  tp_windows_valid_from E acc ws → ws ≠ [] → 0 < tp_total ws.
Proof using Type.
  revert acc. induction ws as [|p ws IH]; intros acc Hv Hne; [done|].
  apply tp_windows_valid_from_cons in Hv as (_ & Hd & _ & Hv).
  rewrite tp_total_cons. destruct ws as [|q ws].
  - change (tp_total []) with 0. lia.
  - specialize (IH _ Hv ltac:(done)). lia.
Qed.

(** Every table built from a valid, non-empty list is well formed. *)
Lemma tp_installed_table_ok (ws : list __evl_tp_window) (rc : Z) :
  tp_windows_valid E ws → ws ≠ [] →
  tp_table_ok (set_refcount rc (tp_installed_table ws)).
Proof using Type.
  intros [_ Hv] Hne. split; cbn.
  - by rewrite tp_built_length.
  - destruct ws; [done | cbn; lia].
  - destruct ws as [|p ws]; [done|]. eexists. split; reflexivity.
  - by apply (tp_total_positive ws 0).
Qed.

End Validation.

(** ** Swapping the installed table *)

Section Swap.

Context (E : evl_core).

Lemma set_tp_schedule_checked (new : option positive) (k : kernel) :
  tp_new_ok new k →
  set_tp_schedule new k =
    Done (if bool_decide (threads (rq_tp k) = [])
          then (Ptr (gps (rq_tp k)), tp_swapped new k)
          else (ErrPtr (- EBUSY), raw_spin_unlock (raw_spin_lock k))).
Proof.
  intros Hnew. unfold set_tp_schedule.
  assert ((match new with
           | None => Done false
           | Some p =>
               g ← deref (kheap k !! p);
               if pwin_nr g <=? 0 then Done true
               else w ← deref (pwins g !! 0%nat);
                    Done (negb (w_offset w =? 0))
           end) = Done false) as ->.
  { destruct new as [p|]; [|done]. destruct Hnew as (g & Hg & Hok).
    rewrite Hg. simpl deref. rewrite bind_Done.
    pose proof (ok_nr g Hok) as Hn.
    destruct (pwin_nr g <=? 0) eqn:Hc; [apply Z.leb_le in Hc; lia|].
    destruct (ok_first g Hok) as (w & Hw & H0). rewrite Hw. simpl deref.
    rewrite bind_Done, H0. reflexivity. }
  rewrite bind_Done. cbn [raw_spin_lock emit rq_tp].
  destruct (bool_decide (threads (rq_tp k) = [])); cbn [negb]; [|reflexivity].
  unfold tp_swapped, stop_tp_schedule. cbn [raw_spin_lock emit rq_tp].
  destruct (gps (rq_tp k)) eqn:Hg; cbn [evl_stop_timer upd_tp raw_spin_lock
    emit rq_tp gps set_tf_timer]; by rewrite Hg.
Qed.

Lemma tp_switch_schedule_refused (new : option positive) (k : kernel) :
  tp_new_ok new k →
  threads (rq_tp k) ≠ [] →
  tp_switch_schedule new k = Done (- EBUSY, tp_refused new k).
Proof.
  intros Hnew Hth. unfold tp_switch_schedule.
  rewrite (set_tp_schedule_checked new k Hnew), bind_Done.
  by rewrite bool_decide_false.
Qed.

Lemma tp_switch_schedule_granted (new : option positive) (k : kernel) :
  tp_new_ok new k →
  threads (rq_tp k) = [] →
  tp_switch_schedule new k =
    match gps (rq_tp k) with
    | None => Done (0, evl_schedule (tp_swapped new k))
    | Some q =>
        k2 ← put_tp_schedule q (tp_swapped new k); Done (0, evl_schedule k2)
    end.
Proof.
  intros Hnew Hth. unfold tp_switch_schedule.
  rewrite (set_tp_schedule_checked new k Hnew), bind_Done.
  by rewrite bool_decide_true.
Qed.

Lemma put_tp_schedule_live (q : positive) (g : evl_tp_schedule) (k : kernel) :
  kheap k !! q = Some g →
  put_tp_schedule q k =
    Done (let k1 := emit (EvRefDrop q)
                      (set_kheap
                         (<[q := set_refcount (refcount g - 1) g]> (kheap k))
                         k) in
          if refcount g - 1 =? 0 then evl_free (Some q) k1 else k1).
Proof.
  intros Hg. unfold put_tp_schedule. rewrite Hg. simpl deref.
  rewrite bind_Done. cbn [refcount set_refcount].
  by destruct (refcount g - 1 =? 0).
Qed.

Lemma tp_cpu_ok_check (cpu : Z) :
  tp_cpu_ok E cpu →
  (cpu <? 0) || negb (cpu_present E cpu) || negb (is_threading_cpu E cpu) = false.
Proof.
  intros (H0 & -> & ->). destruct (cpu <? 0) eqn:Hc; [|done].
  apply Z.ltb_lt in Hc. lia.
Qed.

Lemma tp_control_uninstall (fuel : nat) (cpu : Z) (ws : list __evl_tp_window)
  (n : Z) (infp : option evl_tp_ctlinfo) (mem : option positive) (k : kernel) :
  tp_cpu_ok E cpu →
  tp_control E fuel cpu {| op := evl_tp_uninstall; nr_windows := n; windows := ws |}
             infp mem k =
    ('(ret, k1) ← tp_switch_schedule None k; Done (ret, infp, k1)).
Proof.
  intros Hcpu. unfold tp_control. by rewrite (tp_cpu_ok_check cpu Hcpu).
Qed.

Hypothesis nr_part_positive : 0 < CONFIG_EVL_SCHED_TP_NR_PART E.

Lemma tp_windows_valid_iff (ws : list __evl_tp_window) :
  tp_windows_valid E ws ↔ tp_windows_valid_from E 0 ws.
Proof using Type.
  split; [by intros [_ H]|]. intros H. split; [|done].
  intros p Hp. destruct ws as [|q ws]; [done|]. injection Hp as ->.
  by rewrite (valid_contiguous E 0 _ H 0%nat p eq_refl).
Qed.


Lemma tp_control_install_valid (fuel : nat) (cpu : Z)
  (ws : list __evl_tp_window) (infp : option evl_tp_ctlinfo) (p : positive)
  (k : kernel) :
  tp_cpu_ok E cpu → ws ≠ [] →
  tp_windows_valid E ws →
  tp_control E fuel cpu (request evl_tp_install ws) infp (Some p) k =
    ('(ret, k2) ← tp_switch_schedule (Some p) (tp_candidate p ws k);
     Done (ret, infp, k2)).
Proof using nr_part_positive.
  intros Hcpu Hne Hv. unfold tp_control, request. cbn [op nr_windows windows].
  rewrite (tp_cpu_ok_check cpu Hcpu).
  destruct (0 <? Z.of_nat (length ws)) eqn:Hn.
  2:{ apply Z.ltb_ge in Hn. destruct ws; [done | cbn in Hn; lia]. }
  rewrite Nat2Z.id.
  destruct (tp_scan_windows_spec E nr_part_positive ws 0) as [[_ Hs]|[Hbad _]].
  2:{ by apply tp_windows_valid_iff in Hv. }
  rewrite Hs, bind_Done. cbn [kheap set_kheap]. rewrite insert_insert_eq.
  unfold tp_candidate, tp_installed_table. by rewrite Z.add_0_l.
Qed.

Lemma tp_candidate_new_ok (p : positive) (ws : list __evl_tp_window) (k : kernel) :
  tp_windows_valid E ws → ws ≠ [] →
  tp_new_ok (Some p) (tp_candidate p ws k).
Proof using Type.
  intros Hv Hne. exists (tp_installed_table ws). split.
  - cbn. apply lookup_insert_eq.
  - apply (tp_installed_table_ok E ws 1 Hv Hne).
Qed.

End Swap.

Section Granted.

Context (E : evl_core).

Lemma tp_switch_schedule_grants (new : option positive) (k : kernel) :
  tp_new_ok new k →
  threads (rq_tp k) = [] →
  (∀ q, gps (rq_tp k) = Some q → new ≠ Some q ∧ is_Some (kheap k !! q)) →
  tp_switch_schedule new k = Done (0, tp_granted new k).
Proof.
  intros Hnew Hth Hold. rewrite (tp_switch_schedule_granted new k Hnew Hth).
  unfold tp_granted, tp_swapped, stop_tp_schedule.
  change (gps (rq_tp (raw_spin_lock k))) with (gps (rq_tp k)).
  destruct (gps (rq_tp k)) as [q|] eqn:Hg.
  - destruct (Hold q eq_refl) as [_ [g Hq]].
    rewrite (put_tp_schedule_live q g) by exact Hq. rewrite bind_Done.
    cbv zeta. cbn [kheap raw_spin_unlock emit upd_tp evl_stop_timer raw_spin_lock].
    unfold tp_put_heap, tp_put_log. rewrite Hq.
    f_equal. f_equal.
    destruct (refcount g - 1 =? 0);
      unfold evl_free, evl_schedule, evl_stop_timer, raw_spin_lock,
        raw_spin_unlock;
      kernel_ext; try reflexivity.
    + apply delete_insert_eq.
    + by rewrite <- !app_assoc.
    + by rewrite <- !app_assoc.
  - f_equal. f_equal.
    unfold evl_schedule, raw_spin_lock, raw_spin_unlock.
    kernel_ext; try reflexivity. by rewrite <- !app_assoc.
Qed.

End Granted.


(** ** C4: the busy guard of install and uninstall *)

(** C4, as stated, fails on the code in two ways. An install request whose
    window list is malformed is refused with [-EINVAL] before the attached
    threads are looked at, so with a thread attached it does not fail with
    [-EBUSY]. And the reference to the previous table is dropped after the
    run-queue lock has been released, not inside the critical section that
    stops the timer and swaps the table: uninstalling the three-window table
    logs the unlock before the release of the table. *)
Lemma tp_swap_counterexample :
  (threads (rq_tp attached) = [0%nat] ∧
   ∃ k' : kernel,
     tp_control frame_core 1 0 (request evl_tp_install gapped_windows) None
                (Some 1%positive) attached = Done (- EINVAL, None, k')) ∧
  (gps (rq_tp installed) = Some 1%positive ∧
   threads (rq_tp installed) = [] ∧
   ∃ k' : kernel,
     tp_control frame_core 1 0 (request evl_tp_uninstall []) None None installed
       = Done (0, None, k') ∧
     klog k' =
       klog installed
       ++ [EvLock; EvStopTimer; EvUnlock; EvRefDrop 1%positive;
           EvFree (Some 1%positive); EvSchedule]).
Proof.
  split.
  - split; [reflexivity|]. eexists. vm_compute. reflexivity.
  - split; [reflexivity|]. split; [reflexivity|].
    eexists. split; vm_compute; reflexivity.
Qed.


(** C4, amended. An uninstall request, and an install request that passed
    validation and allocation, fail with [-EBUSY] if and only if at least
    one thread is attached to the TP policy of the CPU (added by
    [tp_declare], removed by [tp_forget]). A refused request leaves the run
    queue, its timer, the installed table and the heap as they were. With no
    thread attached the request returns 0: inside one critical section the
    timer of an installed table is stopped and the new table pointer is
    swapped in, and after the lock has been released one reference to the
    previous table is dropped. *)
Theorem tp_swap_busy (E : evl_core) (fuel : nat) (cpu : Z)
  (infp : option evl_tp_ctlinfo) (mem : option positive) (k : kernel) :
  0 < CONFIG_EVL_SCHED_TP_NR_PART E →
  tp_cpu_ok E cpu →
  tp_heap_ok k →
  (* uninstall *)
  (∃ (ret : Z) (k' : kernel),
     tp_control E fuel cpu (request evl_tp_uninstall []) infp mem k =
       Done (ret, infp, k') ∧
     (ret = - EBUSY ↔ threads (rq_tp k) ≠ []) ∧
     (threads (rq_tp k) ≠ [] →
      rq_tp k' = rq_tp k ∧ kheap k' = kheap k ∧ kthreads k' = kthreads k) ∧
     (threads (rq_tp k) = [] →
      ret = 0 ∧ gps (rq_tp k') = None ∧
      ∀ (q : positive) (g : evl_tp_schedule),
        gps (rq_tp k) = Some q →
        kheap k !! q = Some g →
        timer_running (tf_timer (rq_tp k')) = false ∧
        kheap k' =
          (if refcount g - 1 =? 0 then delete q (kheap k)
           else <[q := set_refcount (refcount g - 1) g]> (kheap k)) ∧
        klog k' =
          klog k ++ [EvLock; EvStopTimer; EvUnlock; EvRefDrop q]
                 ++ (if refcount g - 1 =? 0 then [EvFree (Some q)] else [])
                 ++ [EvSchedule])) ∧
  (* install *)
  (∀ (ws : list __evl_tp_window) (p : positive),
     ws ≠ [] → tp_windows_valid E ws → kheap k !! p = None →
     ∃ (ret : Z) (k' : kernel),
       tp_control E fuel cpu (request evl_tp_install ws) infp (Some p) k =
         Done (ret, infp, k') ∧
       (ret = - EBUSY ↔ threads (rq_tp k) ≠ []) ∧
       (threads (rq_tp k) ≠ [] →
        rq_tp k' = rq_tp k ∧ kheap k' = kheap k ∧ kthreads k' = kthreads k) ∧
       (threads (rq_tp k) = [] →
        ret = 0 ∧ gps (rq_tp k') = Some p ∧
        ∀ (q : positive) (g : evl_tp_schedule),
          gps (rq_tp k) = Some q →
          kheap k !! q = Some g →
          timer_running (tf_timer (rq_tp k')) = false ∧
          kheap k' =
            (if refcount g - 1 =? 0
             then delete q (<[p := tp_installed_table ws]> (kheap k))
             else <[q := set_refcount (refcount g - 1) g]>
                    (<[p := tp_installed_table ws]> (kheap k))) ∧
          klog k' =
            klog k ++ [EvLock; EvStopTimer; EvUnlock; EvRefDrop q]
                   ++ (if refcount g - 1 =? 0 then [EvFree (Some q)] else [])
                   ++ [EvSchedule])) ∧
  (* attaching and detaching *)
  (∀ (t : nat) (prm : evl_sched_param),
     threads (rq_tp (tp_declare t prm k).2) ≠ []) ∧
  (∀ (t : nat) (th : evl_thread),
     kthreads k !! t = Some th →
     ∃ k2 : kernel,
       tp_forget t k = Done k2 ∧
       threads (rq_tp k2) = filter (fun x => x ≠ t) (threads (rq_tp k)) ∧
       gps (rq_tp k2) = gps (rq_tp k) ∧ kheap k2 = kheap k).
Proof.
  intros Hnr Hcpu Hheap. split_and!.
  - unfold request. cbn [length]. rewrite (tp_control_uninstall E fuel cpu) by done.
    destruct (threads (rq_tp k)) as [|t ts] eqn:Hth.
    + rewrite tp_switch_schedule_grants; [| done | done |].
      2:{ intros q Hq. destruct (Hheap q Hq) as (g & Hg & _).
          split; [done | by exists g]. }
      rewrite bind_Done. eexists _, _. split; [reflexivity|].
      split; [split; [discriminate | done]|]. split; [done|].
      intros _. split_and!; try done.
      intros q g Hq Hg. unfold tp_granted.
      cbn [rq_tp kheap klog gps tf_timer set_gps]. rewrite Hq.
      unfold tp_put_heap, tp_put_log. rewrite Hg.
      cbn [tf_timer set_tf_timer timer_running].
      by destruct (refcount g - 1 =? 0).
    + rewrite tp_switch_schedule_refused; [| done | by rewrite Hth].
      rewrite bind_Done. eexists _, _. split; [reflexivity|].
      split; [done|]. split; [|done]. intros _.
      unfold tp_refused, evl_free, raw_spin_lock, raw_spin_unlock.
      by unfold_setters.
  - intros ws p Hne Hv Hp.
    rewrite (tp_control_install_valid E Hnr fuel cpu ws infp p k Hcpu Hne Hv).
    pose proof (tp_candidate_new_ok E p ws k Hv Hne) as Hnew.
    destruct (threads (rq_tp k)) as [|t ts] eqn:Hth.
    + rewrite tp_switch_schedule_grants; [| done | done |].
      2:{ intros q Hq. cbn in Hq. destruct (Hheap q Hq) as (g & Hg & _).
          assert (q ≠ p) as Hqp by congruence.
          split; [congruence|]. cbn. rewrite lookup_insert_ne by done.
          by exists g. }
      rewrite bind_Done. eexists _, _. split; [reflexivity|].
      split; [split; [discriminate | done]|]. split; [done|].
      intros _. split_and!; try done.
      intros q g Hq Hg. assert (q ≠ p) as Hqp by congruence.
      unfold tp_granted, tp_candidate.
      cbn [rq_tp kheap klog gps tf_timer set_gps set_kheap]. rewrite Hq.
      unfold tp_put_heap, tp_put_log. rewrite lookup_insert_ne, Hg by done.
      cbn [tf_timer set_tf_timer timer_running].
      by destruct (refcount g - 1 =? 0).
    + rewrite tp_switch_schedule_refused; [| done | cbn; by rewrite Hth].
      rewrite bind_Done. eexists _, _. split; [reflexivity|].
      split; [done|]. split; [|done]. intros _.
      unfold tp_refused, evl_free, raw_spin_lock, raw_spin_unlock, tp_candidate.
      unfold_setters. split_and!; try done. by apply delete_insert_id.
  - intros t prm. cbn. by destruct (threads (rq_tp k)).
  - intros t th Ht. unfold tp_forget, upd_thread. cbn [kthreads upd_tp].
    rewrite Ht. simpl deref. rewrite bind_Done. eexists. split; [reflexivity|].
    done.
Qed.

Lemma tp_swap_busy_witness :
  ∃ (ret : Z) (k' : kernel),
    tp_control frame_core 1 0 (request evl_tp_uninstall []) None None attached =
      Done (ret, None, k') ∧
    (ret = - EBUSY ↔ threads (rq_tp attached) ≠ []).
Proof.
  destruct (tp_swap_busy frame_core 1 0 None None attached)
    as ((ret & k' & Hrun & Hiff & _) & _).
  - reflexivity.
  - by vm_compute.
  - intros q Hq. discriminate.
  - by exists ret, k'.
Defined.

(** ** C5: overrun notification *)

Lemma land_mask_split (s w b : Z) :
  Z.land w b = 0 →
  (Z.land s (Z.lor w b) = w ↔ Z.land s w = w ∧ Z.land s b = 0).
Proof.
  intros Hdisj.
  assert (∀ n, Z.testbit w n && Z.testbit b n = false) as Hbits.
  { intros n. rewrite <- Z.land_spec, Hdisj. apply Z.bits_0. }
  split.
  - intros H.
    assert (∀ n, Z.testbit s n && (Z.testbit w n || Z.testbit b n)
                 = Z.testbit w n) as Hn.
    { intros n. by rewrite <- Z.lor_spec, <- Z.land_spec, H. }
    split; apply Z.bits_inj'; intros n _; specialize (Hn n);
      specialize (Hbits n); rewrite Z.land_spec, ?Z.bits_0;
      destruct (Z.testbit s n), (Z.testbit w n), (Z.testbit b n); done.
  - intros [Hw Hb]. rewrite Z.land_lor_distr_r, Hw, Hb. apply Z.lor_0_r.
Qed.

Section Overrun.

Context (E : evl_core).

Hypothesis state_bits_disjoint :
  Z.land (EVL_T_WOSO E) (EVL_THREAD_BLOCK_BITS E) = 0.

Lemma overrun_frame_of_spec (c : evl_thread) (k : kernel) (g : evl_tp_schedule) :
  tp_installed k g →
  overrun_frame_of E c (rq_tp k) g =
    if tp_overrun_wanted E c then tp_ending_window g (wnext (rq_tp k)) else -1.
Proof using state_bits_disjoint.
  intros Hin. unfold overrun_frame_of, tp_overrun_wanted, tp_ending_window.
  pose proof (land_mask_split (state c) _ _ state_bits_disjoint) as Hsplit.
  destruct (Z.land (state c) (Z.lor (EVL_T_WOSO E) (EVL_THREAD_BLOCK_BITS E))
            =? EVL_T_WOSO E) eqn:Hc.
  - apply Z.eqb_eq, Hsplit in Hc as [-> ->]. by rewrite !Z.eqb_refl.
  - apply Z.eqb_neq in Hc.
    destruct (Z.land (state c) (EVL_T_WOSO E) =? EVL_T_WOSO E) eqn:Hw; [|done].
    destruct (Z.land (state c) (EVL_THREAD_BLOCK_BITS E) =? 0) eqn:Hb; [|done].
    apply Z.eqb_eq in Hw, Hb. exfalso. apply Hc, Hsplit. done.
Qed.

Lemma tp_ending_window_range (k : kernel) (g : evl_tp_schedule) :
  tp_installed k g →
  0 ≤ tp_ending_window g (wnext (rq_tp k)) < pwin_nr g.
Proof using Type.
  intros Hin. pose proof (inst_wnext k g Hin).
  unfold tp_ending_window.
  destruct (wnext (rq_tp k) - 1 <? 0) eqn:Hc;
    [apply Z.ltb_lt in Hc | apply Z.ltb_ge in Hc]; lia.
Qed.

End Overrun.

(** C5. When the frame timer expires, the handler notifies an overrun to the
    thread running on the CPU if and only if that thread's state has the
    overrun-notification bit set (the spec's weak TP attribute,
    [EVL_T_WOSO]) and none of the blocking bits. The notification carries
    the index of the window that has just ended, the next window index
    minus one, or the last index of the table when that is negative, and it
    is sent after the run-queue lock has been released. *)
Theorem tp_overrun_notified (E : evl_core) (k : kernel) (g : evl_tp_schedule)
  (c : evl_thread) :
  Z.land (EVL_T_WOSO E) (EVL_THREAD_BLOCK_BITS E) = 0 →
  tp_installed k g →
  kthreads k !! rq_curr k = Some c →
  clock_gains_less E (tf_duration g) →
  ∃ (n : nat) (k' : kernel) (t : Z),
    (∀ fuel : nat, tp_tick_handler E (S n + fuel) k = Done k') ∧
    klog k' =
      klog k ++ [EvLock; EvStartTimer t; EvResched; EvUnlock]
      ++ (if (Z.land (state c) (EVL_T_WOSO E) =? EVL_T_WOSO E)
             && (Z.land (state c) (EVL_THREAD_BLOCK_BITS E) =? 0)
          then [EvNotify (rq_curr k)
                  (if wnext (rq_tp k) - 1 <? 0 then pwin_nr g - 1
                   else wnext (rq_tp k) - 1)]
          else []).
Proof.
  intros Hbits Hin Hc Hrate.
  pose proof (tp_tick_entered_installed k g Hin) as Hin'.
  destruct (tp_schedule_next_returns E (tp_tick_entered g k) g Hin' Hrate)
    as (n & k3 & Hrun & Hframe & _ & _ & _).
  exists n. eexists. exists (timer_date (tf_timer (rq_tp k3))). split.
  { intros fuel. rewrite (tp_tick_handler_unfold E _ k g c Hin Hc).
    rewrite Hrun, bind_Done. reflexivity. }
  rewrite (overrun_frame_of_spec E Hbits c k g Hin).
  fold (tp_overrun_wanted E c). fold (tp_ending_window g (wnext (rq_tp k))).
  pose proof (tp_ending_window_range k g Hin) as Hrange.
  assert (klog k3 = klog k ++ [EvLock; EvStartTimer (timer_date (tf_timer (rq_tp k3)));
                               EvResched]) as Hlog.
  { rewrite (nf_log _ _ Hframe). unfold tp_tick_entered.
    destruct (wnext (rq_tp (raw_spin_lock k)) + 1 =? pwin_nr g);
      cbn; by rewrite <- app_assoc. }
  unfold tp_tick_leave. destruct (tp_overrun_wanted E c).
  - destruct (0 <=? tp_ending_window g (wnext (rq_tp k))) eqn:Hz;
      [|apply Z.leb_gt in Hz; lia].
    cbn. rewrite Hlog, <- !app_assoc. reflexivity.
  - cbn. rewrite Hlog, <- !app_assoc. reflexivity.
Qed.

Lemma tp_overrun_notified_witness :
  ∃ (n : nat) (k' : kernel) (t : Z),
    (∀ fuel : nat, tp_tick_handler standing_core (S n + fuel) overrun_kernel
                   = Done k') ∧
    klog k' = [EvLock; EvStartTimer t; EvResched; EvUnlock; EvNotify 0%nat 2].
Proof.
  apply (tp_overrun_notified standing_core overrun_kernel three_windows_table
           woso_thread).
  - reflexivity.
  - split; [exists 1%positive; by vm_compute | | by vm_compute].
    split; [reflexivity | reflexivity | | reflexivity].
    eexists. split; reflexivity.
  - reflexivity.
  - apply standing_clock_gains_nothing. reflexivity.
Defined.

(** ** C6: reading the schedule back *)

Lemma u_timespec_roundtrip (t : Z) :
  u_timespec_to_ktime (ktime_to_u_timespec t) = t.
Proof.
  unfold u_timespec_to_ktime, ktime_to_u_timespec, NSEC_PER_SEC. cbn.
  pose proof (Z.div_mod t 1000000000 ltac:(lia)). lia.
Qed.

Lemma store_middle {A : Type} (pre : list A) (x : A) (post : list A) (f : A → A) :
  store (pre ++ x :: post) (length pre) f = Done (pre ++ f x :: post).
Proof.
  unfold store. rewrite list_lookup_middle by done.
  rewrite <- (Nat.add_0_r (length pre)), insert_app_r. reflexivity.
Qed.

Lemma store_head {A : Type} (x : A) (l : list A) (f : A → A) :
  store (x :: l) 0 f = Done (f x :: l).
Proof. reflexivity. Qed.

Section ReadBack.

Context (E : evl_core).

Lemma tp_copy_close_spec (d : Z) (todo : nat) :
  ∀ (pre : list __evl_tp_window) (e : __evl_tp_window)
    (rest : list __evl_tp_window) (src_pre : list evl_tp_window)
    (ws : list __evl_tp_window) (acc : Z) (p0 : __evl_tp_window),
    length src_pre = length pre →
    (todo ≤ length ws)%nat →
    (todo ≤ length rest)%nat →
    offset e = ktime_to_u_timespec acc →
    ptid e = ptid p0 →
    u_timespec_to_ktime (offset p0) = acc →
    tp_windows_valid_from E (acc + u_timespec_to_ktime (duration p0)) ws →
    tp_copy_close d todo (S (length pre)) (length pre) (length pre)
      (src_pre ++ {| w_offset := acc; w_part := ptid p0 |}
                 :: tp_built (acc + u_timespec_to_ktime (duration p0)) ws)
      (pre ++ e :: rest) =
    Done (pre ++ tp_snapshot d todo acc p0 ws ++ drop todo rest).
Proof.
  induction todo as [|todo IH];
    intros pre e rest src_pre ws acc p0 Hlen Hws Hrest He Hpt Hp0 Hv.
  - unfold tp_copy_close. cbn [tp_copy_windows]. rewrite bind_Done.
    cbv beta iota.
    rewrite <- Hlen at 1. rewrite list_lookup_middle by done.
    simpl deref. rewrite bind_Done. rewrite store_middle.
    cbn [tp_snapshot drop app w_offset]. do 3 f_equal.
    destruct e as [eo ed ep]. cbn in He, Hpt. subst eo ep. reflexivity.
  - destruct ws as [|p1 ws]; [cbn in Hws; lia|].
    destruct rest as [|d1 rest]; [cbn in Hrest; lia|].
    apply tp_windows_valid_from_cons in Hv as (Ho1 & _ & _ & Hv).
    cbn [length] in Hws, Hrest.
    set (acc1 := acc + u_timespec_to_ktime (duration p0)) in *.
    set (w0 := {| w_offset := acc; w_part := ptid p0 |}).
    set (w1 := {| w_offset := acc1; w_part := ptid p1 |}).
    set (e1 := set_ptid (ptid p1)
                 (set_offset (ktime_to_u_timespec acc1) d1)).
    unfold tp_copy_close. cbn [tp_copy_windows tp_built]. fold w1.
    assert ((src_pre ++ w0 :: w1 :: tp_built (acc1 + u_timespec_to_ktime (duration p1)) ws)
              !! S (length pre) = Some w1) as ->.
    { rewrite <- Hlen.
      change (src_pre ++ w0 :: w1 :: ?l) with (src_pre ++ [w0] ++ w1 :: l).
      rewrite app_assoc.
      replace (S (length src_pre)) with (length (src_pre ++ [w0]))
        by (rewrite length_app; cbn; lia).
      by rewrite list_lookup_middle. }
    simpl deref. rewrite bind_Done.
    assert ((src_pre ++ w0 :: w1 :: tp_built (acc1 + u_timespec_to_ktime (duration p1)) ws)
              !! length pre = Some w0) as ->.
    { rewrite <- Hlen. by rewrite list_lookup_middle. }
    simpl deref. rewrite bind_Done.
    assert (store (pre ++ e :: d1 :: rest) (S (length pre))
                  (set_offset (ktime_to_u_timespec (w_offset w1))) =
            Done ((pre ++ [e]) ++
                  set_offset (ktime_to_u_timespec acc1) d1 :: rest)) as ->.
    { change (pre ++ e :: d1 :: rest) with (pre ++ [e] ++ d1 :: rest).
      rewrite app_assoc.
      replace (S (length pre)) with (length (pre ++ [e]))
        by (rewrite length_app; cbn; lia).
      by rewrite store_middle. }
    rewrite bind_Done. rewrite <- app_assoc. cbn [app].
    rewrite store_middle, bind_Done.
    assert (store (pre ++ set_duration
                     (ktime_to_u_timespec (w_offset w1 - w_offset w0)) e
                   :: set_offset (ktime_to_u_timespec acc1) d1 :: rest)
                  (S (length pre)) (set_ptid (w_part w1)) =
            Done ((pre ++ [tp_normalised p0]) ++ e1 :: rest)) as ->.
    { change (pre ++ ?a :: ?b :: rest) with (pre ++ [a] ++ b :: rest).
      rewrite app_assoc.
      replace (S (length pre))
        with (length (pre ++ [set_duration
                (ktime_to_u_timespec (w_offset w1 - w_offset w0)) e]))
        by (rewrite length_app; cbn; lia).
      rewrite store_middle. do 3 f_equal.
      destruct e as [eo ed ep]. cbn in He, Hpt. subst eo ep.
      unfold tp_normalised, set_duration. cbn. subst acc1.
      rewrite Hp0. repeat f_equal. lia. }
    rewrite bind_Done.
    pose proof (IH (pre ++ [tp_normalised p0]) e1 rest (src_pre ++ [w0]) ws
                  acc1 p1) as IH'.
    rewrite !length_app in IH'. cbn [length] in IH'.
    rewrite !Nat.add_1_r in IH'. unfold tp_copy_close in IH'.
    rewrite <- !app_assoc in IH'. cbn [app] in IH'. fold w1 in IH'.
    rewrite <- !app_assoc. cbn [app].
    rewrite IH'; try done; try lia.
Qed.

End ReadBack.

Section ReadBackTable.

Context (E : evl_core).

(** Copying out every window of a table gives back the installed list. *)
Lemma tp_snapshot_full (ws : list __evl_tp_window) :
  ∀ (acc : Z) (p0 : __evl_tp_window),
    u_timespec_to_ktime (offset p0) = acc →
    tp_windows_valid_from E (acc + u_timespec_to_ktime (duration p0)) ws →
    tp_snapshot (acc + tp_total (p0 :: ws)) (length ws) acc p0 ws =
      map tp_normalised (p0 :: ws).
Proof.
  induction ws as [|p1 ws IH]; intros acc p0 Hp0 Hv.
  - cbn [tp_snapshot length map]. rewrite tp_total_cons.
    change (tp_total []) with 0. unfold tp_last_entry, tp_normalised.
    rewrite Hp0. do 3 f_equal. lia.
  - apply tp_windows_valid_from_cons in Hv as (Ho1 & _ & _ & Hv).
    cbn [tp_snapshot length]. rewrite tp_total_cons.
    replace (acc + (u_timespec_to_ktime (duration p0) + tp_total (p1 :: ws)))
      with (acc + u_timespec_to_ktime (duration p0) + tp_total (p1 :: ws))
      by lia.
    change (map tp_normalised (p0 :: p1 :: ws))
      with (tp_normalised p0 :: map tp_normalised (p1 :: ws)).
    f_equal. by apply IH.
Qed.

Lemma tp_snapshot_length (d : Z) (todo : nat) :
  ∀ (ws : list __evl_tp_window) (acc : Z) (p0 : __evl_tp_window),
    (todo ≤ length ws)%nat →
    length (tp_snapshot d todo acc p0 ws) = S todo.
Proof.
  induction todo as [|todo IH]; intros ws acc p0 Hlen.
  - by destruct ws.
  - destruct ws as [|p1 ws]; [cbn in Hlen; lia|]. cbn [tp_snapshot length].
    rewrite IH; [done | cbn in Hlen; lia].
Qed.

(** Whatever the count, the entries copied carry the offsets and the
    partition ids of the installed windows. *)
Lemma tp_snapshot_lookup (d : Z) (todo : nat) :
  ∀ (ws : list __evl_tp_window) (acc : Z) (p0 : __evl_tp_window) (i : nat),
    (todo ≤ length ws)%nat →
    u_timespec_to_ktime (offset p0) = acc →
    tp_windows_valid_from E (acc + u_timespec_to_ktime (duration p0)) ws →
    (i ≤ todo)%nat →
    ∃ p p' : __evl_tp_window,
      (p0 :: ws) !! i = Some p ∧
      tp_snapshot d todo acc p0 ws !! i = Some p' ∧
      offset p' = offset (tp_normalised p) ∧ ptid p' = ptid p.
Proof.
  induction todo as [|todo IH]; intros ws acc p0 i Hlen Hp0 Hv Hi.
  - assert (i = 0%nat) as -> by lia. exists p0, (tp_last_entry d acc p0).
    split; [done|]. split; [by destruct ws|]. cbn. by rewrite Hp0.
  - destruct ws as [|p1 ws]; [cbn in Hlen; lia|].
    apply tp_windows_valid_from_cons in Hv as (Ho1 & _ & _ & Hv).
    destruct i as [|i].
    + exists p0, (tp_normalised p0). done.
    + cbn [tp_snapshot]. cbn in Hlen.
      destruct (IH ws (acc + u_timespec_to_ktime (duration p0)) p1 i)
        as (p & p' & H1 & H2 & H3); [lia | done | done | lia |].
      by exists p, p'.
Qed.

Lemma tp_copy_out_first (g : evl_tp_schedule) (todo : nat)
  (p0 : __evl_tp_window) (ws : list __evl_tp_window)
  (d0 : __evl_tp_window) (rest : list __evl_tp_window) :
  pwins g = tp_built 0 (p0 :: ws) →
  tp_windows_valid_from E 0 (p0 :: ws) →
  (todo ≤ length ws)%nat →
  (todo ≤ length rest)%nat →
  tp_copy_out (Z.of_nat (S todo)) g (d0 :: rest) =
    Done (tp_snapshot (tf_duration g) todo 0 p0 ws ++ drop todo rest).
Proof.
  intros Hsrc Hv Hws Hrest.
  apply tp_windows_valid_from_cons in Hv as (Ho & _ & _ & Hv).
  unfold tp_copy_out. rewrite Nat2Z.id, Hsrc.
  cbn [tp_copy_windows tp_built]. cbn [lookup list_lookup].
  simpl deref. rewrite !bind_Done.
  do 3 (rewrite store_head, bind_Done). cbn [w_offset w_part].
  pose proof (tp_copy_close_spec E (tf_duration g) todo [] 
                (set_ptid (ptid p0)
                   (set_duration (ktime_to_u_timespec (0 - 0))
                      (set_offset (ktime_to_u_timespec 0) d0)))
                rest [] ws 0 p0) as H.
  cbn [length app] in H. unfold tp_copy_close in H.
  rewrite Z.add_0_l in H. apply H; done.
Qed.

Lemma tp_copy_out_none (g : evl_tp_schedule) (nr : Z)
  (w0 : evl_tp_window) (d0 : __evl_tp_window) (rest : list __evl_tp_window) :
  nr ≤ 0 →
  pwins g !! 0%nat = Some w0 →
  tp_copy_out nr g (d0 :: rest) =
    Done (set_duration (ktime_to_u_timespec (tf_duration g - w_offset w0)) d0
            :: rest).
Proof.
  intros Hnr Hw. unfold tp_copy_out.
  replace (Z.to_nat nr) with 0%nat by lia.
  cbn [tp_copy_windows]. rewrite bind_Done. cbv beta iota.
  by rewrite Hw.
Qed.

(** A get request on a run queue that holds a live table. *)
Lemma tp_control_get (fuel : nat) (cpu : Z) (req : Z)
  (wsx : list __evl_tp_window) (it : evl_tp_ctlinfo) (mem : option positive)
  (k : kernel) (p : positive) (g : evl_tp_schedule) :
  tp_cpu_ok E cpu →
  gps (rq_tp k) = Some p →
  kheap k !! p = Some g →
  0 < refcount g →
  tp_control E fuel cpu {| op := evl_tp_get; nr_windows := req; windows := wsx |}
             (Some it) mem k =
    (ws' ← tp_copy_out (Z.min req (pwin_nr g)) g (it_windows it);
     Done (evl_tp_infolen E (Z.min req (pwin_nr g)),
           Some {| it_nr_windows := pwin_nr g; it_windows := ws' |},
           tp_read p k)).
Proof.
  intros Hcpu Hp Hg Hrc. unfold tp_control. rewrite (tp_cpu_ok_check E cpu Hcpu).
  cbn [op nr_windows]. unfold get_tp_schedule.
  change (gps (rq_tp (raw_spin_lock k))) with (gps (rq_tp k)).
  change (kheap (raw_spin_lock k)) with (kheap k).
  rewrite Hp, Hg. simpl deref. rewrite !bind_Done.
  cbn [kheap raw_spin_unlock emit set_kheap]. rewrite lookup_insert_eq.
  simpl deref. rewrite bind_Done.
  change (tp_copy_out ?n (set_refcount ?r g) ?b) with (tp_copy_out n g b).
  change (pwin_nr (set_refcount ?r g)) with (pwin_nr g).
  destruct (tp_copy_out (Z.min req (pwin_nr g)) g (it_windows it)) as [ws'| |];
    [|done|done].
  rewrite !bind_Done.
  rewrite (put_tp_schedule_live p (set_refcount (refcount g + 1) g))
    by (cbn; apply lookup_insert_eq).
  rewrite bind_Done. cbn [refcount set_refcount].
  destruct (refcount g + 1 - 1 =? 0) eqn:Hz; [apply Z.eqb_eq in Hz; lia|].
  do 2 f_equal. unfold tp_read, raw_spin_unlock, raw_spin_lock.
  kernel_ext; try reflexivity.
  rewrite insert_insert_eq. apply insert_id. rewrite Hg. f_equal.
  destruct g. unfold set_refcount. cbn. f_equal. lia.
Qed.

End ReadBackTable.

Section InstallThenGet.

Context (E : evl_core).

Hypothesis nr_part_positive : 0 < CONFIG_EVL_SCHED_TP_NR_PART E.

(** A valid install request on a run queue without attached threads. *)
Lemma tp_control_install_granted (fuel : nat) (cpu : Z)
  (ws : list __evl_tp_window) (infp : option evl_tp_ctlinfo) (p : positive)
  (k : kernel) :
  tp_cpu_ok E cpu → ws ≠ [] → tp_windows_valid E ws →
  kheap k !! p = None → tp_heap_ok k → threads (rq_tp k) = [] →
  tp_control E fuel cpu (request evl_tp_install ws) infp (Some p) k =
    Done (0, infp, tp_granted (Some p) (tp_candidate p ws k)) ∧
  gps (rq_tp (tp_granted (Some p) (tp_candidate p ws k))) = Some p ∧
  kheap (tp_granted (Some p) (tp_candidate p ws k)) !! p =
    Some (tp_installed_table ws).
Proof using nr_part_positive.
  intros Hcpu Hne Hv Hp Hheap Hth.
  rewrite (tp_control_install_valid E nr_part_positive fuel cpu ws infp p k
             Hcpu Hne Hv).
  pose proof (tp_candidate_new_ok E p ws k Hv Hne) as Hnew.
  rewrite tp_switch_schedule_grants; [| done | done |].
  - rewrite bind_Done. split; [done|]. split; [reflexivity|].
    cbn [tp_granted kheap tp_candidate set_kheap rq_tp].
    destruct (gps (rq_tp k)) as [q|] eqn:Hq; [|apply lookup_insert_eq].
    destruct (Hheap q Hq) as (g & Hg & Hrc).
    assert (q ≠ p) as Hqp by congruence.
    unfold tp_put_heap. rewrite lookup_insert_ne, Hg by done.
    destruct (refcount g - 1 =? 0).
    + rewrite lookup_delete_ne by done. apply lookup_insert_eq.
    + rewrite lookup_insert_ne by done. apply lookup_insert_eq.
  - intros q Hq. cbn in Hq. destruct (Hheap q Hq) as (g & Hg & _).
    assert (q ≠ p) as Hqp by congruence.
    split; [congruence|]. cbn. rewrite lookup_insert_ne by done. by exists g.
Qed.

(** What a get request copies out of the table built from [ws]. *)
Lemma tp_copy_out_installed (ws : list __evl_tp_window) (req : Z)
  (buf : list __evl_tp_window) :
  ws ≠ [] → tp_windows_valid E ws →
  (0 < length buf)%nat →
  Z.min req (Z.of_nat (length ws)) ≤ Z.of_nat (length buf) →
  ∃ out : list __evl_tp_window,
    tp_copy_out (Z.min req (Z.of_nat (length ws))) (tp_installed_table ws) buf
      = Done out ∧
    length out = length buf ∧
    (Z.of_nat (length ws) ≤ req →
     out = map tp_normalised ws ++ drop (length ws) buf) ∧
    (∀ (i : nat) (p0 : __evl_tp_window),
       Z.of_nat i < req → ws !! i = Some p0 →
       ∃ p' : __evl_tp_window,
         out !! i = Some p' ∧
         offset p' = offset (tp_normalised p0) ∧ ptid p' = ptid p0) ∧
    (∀ i : nat, (1 ≤ i)%nat → req ≤ Z.of_nat i → out !! i = buf !! i).
Proof using nr_part_positive.
  intros Hne Hv Hbuf Hroom. apply (tp_windows_valid_iff E) in Hv.
  destruct ws as [|p0 ws]; [done|]. destruct buf as [|d0 rest]; [cbn in Hbuf; lia|].
  set (g := tp_installed_table (p0 :: ws)).
  destruct (Z_le_gt_dec (Z.min req (Z.of_nat (length (p0 :: ws)))) 0) as [Hz|Hpos].
  - (* nothing requested *)
    assert (req ≤ 0) as Hreq by (cbn [length] in Hz; lia).
    eexists. split.
    { apply (tp_copy_out_none g _ {| w_offset := 0; w_part := ptid p0 |});
        [exact Hz | reflexivity]. }
    split; [reflexivity|]. split; [cbn [length]; lia|].
    split; [intros i p1 Hi; lia|].
    intros [|i] Hi _; [lia | reflexivity].
  - set (m := Z.to_nat (Z.min req (Z.of_nat (length (p0 :: ws))))).
    assert (∃ todo, m = S todo) as [todo Hm] by (exists (pred m); lia).
    assert (Z.min req (Z.of_nat (length (p0 :: ws))) = Z.of_nat (S todo)) as Hmin
      by lia.
    cbn [length] in Hroom, Hmin |- *.
    assert (todo ≤ length ws)%nat as Htodo by lia.
    assert (todo ≤ length rest)%nat as Hrest by lia.
    rewrite Hmin. eexists. split.
    { apply (tp_copy_out_first E g todo p0 ws d0 rest); done. }
    pose proof (tp_windows_valid_from_cons E 0 p0 ws) as [Hcons _].
    destruct (Hcons Hv) as (Ho & _ & _ & Hv').
    split.
    { rewrite length_app, tp_snapshot_length by done.
      rewrite length_drop. cbn. lia. }
    split.
    { intros Hfull. assert (todo = length ws) as -> by lia.
      change (tf_duration g) with (tp_total (p0 :: ws)).
      rewrite <- (Z.add_0_l (tp_total (p0 :: ws))).
      rewrite (tp_snapshot_full E ws 0 p0 Ho); [done|].
      by rewrite Z.add_0_l in Hv'. }
    split.
    { intros i p1 Hi Hp1.
      pose proof (lookup_lt_Some _ _ _ Hp1) as Hlt. cbn [length] in Hlt.
      destruct (tp_snapshot_lookup E (tf_duration g) todo ws 0 p0 i)
        as (q & q' & Hq & Hq' & Hoff & Hpt); [done | done | | lia |].
      { by rewrite Z.add_0_l in Hv' |- *. }
      rewrite Hp1 in Hq. injection Hq as <-. exists q'.
      split; [|done]. rewrite lookup_app_l; [done|].
      rewrite tp_snapshot_length by done. lia. }
    intros i Hi1 Hi. rewrite lookup_app_r;
      rewrite tp_snapshot_length by done; [|lia].
    rewrite lookup_drop. destruct i as [|i]; [lia|]. cbn.
    f_equal. lia.
Qed.

End InstallThenGet.

(** ** C3: the install request validates its window list *)



(** ** C6: what a get request returns after an install *)

(** Reading back what was installed. After a successful install of a valid
    window list, a get request returns the number of installed windows as
    the actual count. When it asks for at least that many windows, the
    windows copied out are the installed ones: same offsets, same partition
    ids, and durations (the next offset minus the own offset, the frame
    duration minus the own offset for the last window) equal to the
    durations given at install time. When it asks for fewer, the length
    returned covers [min(requested, actual)] windows, these carry the
    installed offsets and partition ids, and the entries of the buffer from
    the requested count on are left as they were, except for entry 0 when no
    window is requested. The request
    changes nothing in the run queue, the threads or the heap: the reference
    it takes on the table is dropped again. *)
Theorem tp_get_after_install (E : evl_core) (fuel : nat) (cpu : Z)
  (ws : list __evl_tp_window) (infp : option evl_tp_ctlinfo) (p : positive)
  (k : kernel) :
  0 < CONFIG_EVL_SCHED_TP_NR_PART E →
  tp_cpu_ok E cpu →
  ws ≠ [] →
  tp_windows_valid E ws →
  kheap k !! p = None →
  tp_heap_ok k →
  threads (rq_tp k) = [] →
  ∃ k1 : kernel,
    tp_control E fuel cpu (request evl_tp_install ws) infp (Some p) k =
      Done (0, infp, k1) ∧
    ∀ (req : Z) (it : evl_tp_ctlinfo) (mem : option positive),
      (0 < length (it_windows it))%nat →
      Z.min req (Z.of_nat (length ws)) ≤ Z.of_nat (length (it_windows it)) →
      ∃ (out : list __evl_tp_window) (k2 : kernel),
        tp_control E fuel cpu
                   {| op := evl_tp_get; nr_windows := req; windows := [] |}
                   (Some it) mem k1 =
          Done (evl_tp_infolen E (Z.min req (Z.of_nat (length ws))),
                Some {| it_nr_windows := Z.of_nat (length ws);
                        it_windows := out |},
                k2) ∧
        (* the table is pinned and released, nothing else is touched *)
        rq_tp k2 = rq_tp k1 ∧ kheap k2 = kheap k1 ∧ kthreads k2 = kthreads k1 ∧
        klog k2 = klog k1 ++ [EvLock; EvRefTake p; EvUnlock; EvRefDrop p] ∧
        length out = length (it_windows it) ∧
        (* at least as many windows requested as installed *)
        (Z.of_nat (length ws) ≤ req →
         out = map tp_normalised ws ++ drop (length ws) (it_windows it) ∧
         ∀ (i : nat) (p0 : __evl_tp_window),
           ws !! i = Some p0 →
           ∃ p' : __evl_tp_window,
             out !! i = Some p' ∧
             u_timespec_to_ktime (offset p') = u_timespec_to_ktime (offset p0) ∧
             u_timespec_to_ktime (duration p')
               = u_timespec_to_ktime (duration p0) ∧
             ptid p' = ptid p0) ∧
        (* fewer windows requested *)
        (∀ (i : nat) (p0 : __evl_tp_window),
           Z.of_nat i < req → ws !! i = Some p0 →
           ∃ p' : __evl_tp_window,
             out !! i = Some p' ∧
             u_timespec_to_ktime (offset p') = u_timespec_to_ktime (offset p0) ∧
             ptid p' = ptid p0) ∧
        (∀ i : nat,
           (1 ≤ i)%nat → req ≤ Z.of_nat i → out !! i = it_windows it !! i).
Proof.
  intros Hnr Hcpu Hne Hv Hp Hheap Hth.
  destruct (tp_control_install_granted E Hnr fuel cpu ws infp p k)
    as (Hinst & Hgps & Htable); try done.
  eexists. split; [exact Hinst|]. intros req it mem Hbuf Hroom.
  destruct (tp_copy_out_installed E Hnr ws req (it_windows it))
    as (out & Hout & Hlen & Hfull & Hfew & Hkeep); try done.
  exists out. eexists. split.
  { rewrite (tp_control_get E fuel cpu req [] it mem _ p (tp_installed_table ws));
      try done.
    cbn [pwin_nr tp_installed_table]. cbn [pwin_nr tp_installed_table] in Hout.
    rewrite Hout, bind_Done. reflexivity. }
  split; [reflexivity|]. split; [reflexivity|]. split; [reflexivity|].
  split.
  { unfold tp_read, emit. cbn [klog]. by rewrite <- !app_assoc. }
  split; [exact Hlen|]. split; [|split; [|exact Hkeep]].
  - intros Hreq. split; [by apply Hfull|]. intros i p0 Hi.
    exists (tp_normalised p0). rewrite (Hfull Hreq). split.
    + rewrite lookup_app_l by (rewrite length_map; by eapply lookup_lt_Some).
      by rewrite list_lookup_fmap, Hi.
    + cbn. by rewrite !u_timespec_roundtrip.
  - intros i p0 Hi Hp0. destruct (Hfew i p0 Hi Hp0) as (p' & Hp' & Hoff & Hpt).
    exists p'. split; [done|]. split; [|done]. rewrite Hoff. cbn.
    by rewrite u_timespec_roundtrip.
Qed.

Lemma tp_get_after_install_witness :
  ∃ k1 : kernel,
    tp_control frame_core 1 0 (request evl_tp_install three_windows) None
               (Some 1%positive) (booted frame_core) = Done (0, None, k1) ∧
    ∃ k2 : kernel,
      tp_control frame_core 1 0
                 {| op := evl_tp_get; nr_windows := 8; windows := [] |}
                 (Some (blank_info 4)) None k1 =
        Done (128,
              Some {| it_nr_windows := 3;
                      it_windows := three_windows ++ [window 0 0 0] |},
              k2) ∧
      rq_tp k2 = rq_tp k1 ∧ kheap k2 = kheap k1.
Proof.
  destruct (tp_get_after_install frame_core 1 0 three_windows None 1%positive
              (booted frame_core)) as (k1 & Hinst & Hget).
  - reflexivity.
  - by vm_compute.
  - discriminate.
  - split.
    + intros p Hp. injection Hp as <-. reflexivity.
    + split.
      * intros [|[|[|i]]] p Hp; try (injection Hp as <-; reflexivity).
        discriminate.
      * intros p Hp.
        repeat (apply elem_of_cons in Hp as [->|Hp]; [by vm_compute|]).
        by apply elem_of_nil in Hp.
      * intros p Hp.
        repeat (apply elem_of_cons in Hp as [->|Hp];
                [vm_compute; intuition congruence|]).
        by apply elem_of_nil in Hp.
  - reflexivity.
  - intros q Hq. discriminate.
  - reflexivity.
  - exists k1. split; [exact Hinst|].
    destruct (Hget 8 (blank_info 4) None) as (out & k2 & Hrun & Hrq & Hh & _ & _ & _ & Hfull & _).
    + cbn. lia.
    + cbn. lia.
    + exists k2. destruct (Hfull ltac:(cbn; lia)) as [-> _].
      split; [exact Hrun|]. done.
Defined.

(** C6, at a request for no window. With the three windows installed, a get
    request with a window count of 0 returns the length of a reply without
    windows and the actual count 3, as claimed, but it does not leave the
    windows of the reply alone: the store that closes the duration of the
    last window copied runs even when the loop copied none, and writes the
    frame duration, 25 ms, into entry 0. On a reply buffer without room for
    any window that store falls outside the buffer. *)
Lemma tp_get_nothing_requested :
  ∃ k1 k2 : kernel,
    tp_control frame_core 1 0 (request evl_tp_install three_windows) None
               (Some 1%positive) (booted frame_core) = Done (0, None, k1) ∧
    Z.min 0 (pwin_nr three_windows_table) = 0 ∧
    it_windows (blank_info 1) = [window 0 0 0] ∧
    tp_control frame_core 1 0
               {| op := evl_tp_get; nr_windows := 0; windows := [] |}
               (Some (blank_info 1)) None k1 =
      Done (evl_tp_infolen frame_core 0,
            Some {| it_nr_windows := 3;
                    it_windows := [window 0 (msec 25) 0] |},
            k2) ∧
    tp_control frame_core 1 0
               {| op := evl_tp_get; nr_windows := 0; windows := [] |}
               (Some (blank_info 0)) None k1 = Oops.
Proof.
  eexists _, _. split; [vm_compute; reflexivity|].
  split; [reflexivity|]. split; [reflexivity|].
  split; vm_compute; reflexivity.
Qed.

(** ** C7: priority tracking never changes the partition *)

Lemma tp_trackprio_thread (thread : nat) (th : evl_thread)
  (p : option evl_sched_param) (k : kernel) :
  kthreads k !! thread = Some th →
  ∃ k' : kernel,
    tp_trackprio thread p k = Done k' ∧
    kthreads k' =
      <[thread := set_cprio (match p with
                             | Some prm => tp_prio prm
                             | None => bprio th
                             end) th]> (kthreads k) ∧
    rq_tp k' = rq_tp k ∧ kheap k' = kheap k ∧ rq_curr k' = rq_curr k.
Proof.
  intros Hth. unfold tp_trackprio. rewrite Hth. simpl deref. rewrite bind_Done.
  destruct p as [prm|]; [|by eexists].
  destruct (base_class_tp th && negb (bool_decide (th_tps th = Some (tp_ptid prm))));
    by eexists.
Qed.

(** C7. A [track_priority] call on a thread changes the current priority of
    that thread and nothing else: the priority becomes the one supplied, or
    the base priority when no parameters are given; the partition the thread
    is assigned to, its state and base priority, the other threads and the
    partition run queues stay as they are. So the partition assignment is
    the same after any sequence of boosts and restores. *)
Theorem tp_trackprio_keeps_partition (thread : nat) (th : evl_thread)
  (k : kernel) :
  kthreads k !! thread = Some th →
  (∀ p : option evl_sched_param,
     ∃ k' : kernel,
       tp_trackprio thread p k = Done k' ∧
       kthreads k' !! thread =
         Some {| state := state th;
                 bprio := bprio th;
                 cprio := match p with
                          | Some prm => tp_prio prm
                          | None => bprio th
                          end;
                 th_tps := th_tps th;
                 base_class_tp := base_class_tp th |} ∧
       (∀ other : nat, other ≠ thread →
                       kthreads k' !! other = kthreads k !! other) ∧
       rq_tp k' = rq_tp k) ∧
  (∀ ps : list (option evl_sched_param),
     ∃ (k' : kernel) (th' : evl_thread),
       tp_track_all thread ps k = Done k' ∧
       kthreads k' !! thread = Some th' ∧
       th_tps th' = th_tps th ∧
       state th' = state th ∧
       bprio th' = bprio th ∧
       (∀ other : nat, other ≠ thread →
                       kthreads k' !! other = kthreads k !! other) ∧
       rq_tp k' = rq_tp k).
Proof.
  intros Hth. split.
  - intros p. destruct (tp_trackprio_thread thread th p k Hth)
      as (k' & Hrun & Hthr & Hrq & _).
    exists k'. split; [exact Hrun|]. rewrite Hthr. split_and!.
    + by rewrite lookup_insert_eq.
    + intros other Hne. by rewrite lookup_insert_ne.
    + exact Hrq.
  - intros ps. revert k th Hth.
    induction ps as [|p ps IH]; intros k th Hth.
    + exists k, th. done.
    + destruct (tp_trackprio_thread thread th p k Hth)
        as (k1 & Hrun & Hthr & Hrq & _).
      destruct (IH k1 (set_cprio (match p with
                                  | Some prm => tp_prio prm
                                  | None => bprio th
                                  end) th))
        as (k' & th' & Hrun' & Hth' & Htps & Hst & Hbp & Hoth & Hrq').
      { rewrite Hthr. apply lookup_insert_eq. }
      exists k', th'. cbn [tp_track_all]. rewrite Hrun, bind_Done.
      split_and!; try done.
      * intros other Hne. rewrite (Hoth other Hne), Hthr.
        by rewrite lookup_insert_ne.
      * by rewrite Hrq'.
Qed.

Lemma tp_trackprio_keeps_partition_witness :
  ∃ (k' : kernel) (th' : evl_thread),
    tp_track_all 0%nat [Some {| tp_prio := 40; tp_ptid := 0 |}; None;
                        Some {| tp_prio := 7; tp_ptid := 3 |}] overrun_kernel
      = Done k' ∧
    kthreads k' !! 0%nat = Some th' ∧
    th_tps th' = Some 0.
Proof.
  destruct (tp_trackprio_keeps_partition 0%nat woso_thread overrun_kernel)
    as [_ Hall]; [reflexivity|].
  destruct (Hall [Some {| tp_prio := 40; tp_ptid := 0 |}; None;
                  Some {| tp_prio := 7; tp_ptid := 3 |}])
    as (k' & th' & H1 & H2 & H3 & _).
  by exists k', th'.
Defined.

(** ** C9: an install request without windows uninstalls *)

(** C9. An install request whose window count is zero (or negative) takes
    the path of the uninstall request: on a CPU that passes the checks it is
    not refused with [-EINVAL]; with a thread attached it fails with
    [-EBUSY], otherwise it returns 0, removes the installed table and drops
    the run queue's reference to it. *)
Theorem tp_install_nothing_uninstalls (E : evl_core) (fuel : nat) (cpu : Z)
  (n : Z) (ws : list __evl_tp_window) (infp : option evl_tp_ctlinfo)
  (mem : option positive) (k : kernel) :
  n ≤ 0 →
  tp_control E fuel cpu {| op := evl_tp_install; nr_windows := n; windows := ws |}
             infp mem k =
  tp_control E fuel cpu {| op := evl_tp_uninstall; nr_windows := n; windows := ws |}
             infp mem k ∧
  (tp_cpu_ok E cpu → tp_heap_ok k →
   ∃ (ret : Z) (k' : kernel),
     tp_control E fuel cpu
                {| op := evl_tp_install; nr_windows := n; windows := ws |}
                infp mem k = Done (ret, infp, k') ∧
     ret ≠ - EINVAL ∧
     (threads (rq_tp k) ≠ [] → ret = - EBUSY ∧ rq_tp k' = rq_tp k) ∧
     (threads (rq_tp k) = [] →
      ret = 0 ∧ gps (rq_tp k') = None ∧
      ∀ q : positive, gps (rq_tp k) = Some q →
                      kheap k' = tp_put_heap q (kheap k))).
Proof.
  intros Hn.
  assert (tp_control E fuel cpu
            {| op := evl_tp_install; nr_windows := n; windows := ws |} infp mem k =
          tp_control E fuel cpu
            {| op := evl_tp_uninstall; nr_windows := n; windows := ws |} infp mem k)
    as Heq.
  { unfold tp_control. cbn [op nr_windows].
    destruct (0 <? n) eqn:Hc; [apply Z.ltb_lt in Hc; lia | reflexivity]. }
  split; [exact Heq|]. intros Hcpu Hheap. rewrite Heq.
  rewrite (tp_control_uninstall E fuel cpu) by done.
  destruct (threads (rq_tp k)) as [|t ts] eqn:Hth.
  - rewrite tp_switch_schedule_grants; [| done | done |].
    2:{ intros q Hq. destruct (Hheap q Hq) as (g & Hg & _).
        split; [done | by exists g]. }
    rewrite bind_Done. eexists _, _. split; [reflexivity|].
    split; [done|]. split; [done|]. intros _. split_and!; try done.
    intros q Hq. cbn. by rewrite Hq.
  - rewrite tp_switch_schedule_refused; [| done | by rewrite Hth].
    rewrite bind_Done. eexists _, _. split; [reflexivity|].
    split; [done|]. split; [|done]. intros _. done.
Qed.

Lemma tp_install_nothing_uninstalls_witness :
  ∃ k' : kernel,
    tp_control frame_core 1 0 (request evl_tp_install []) None None installed =
      Done (0, None, k') ∧
    gps (rq_tp k') = None ∧ kheap k' = ∅.
Proof.
  destruct (tp_install_nothing_uninstalls frame_core 1 0 0 [] None None installed)
    as [_ Hrun]; [lia|].
  destruct Hrun as (ret & k' & Hrun & _ & _ & Hok).
  - by vm_compute.
  - intros q Hq. injection Hq as <-. eexists. split; [reflexivity|]. done.
  - destruct (Hok eq_refl) as (-> & Hgps & Hheap).
    exists k'. split; [exact Hrun|]. split; [exact Hgps|].
    rewrite (Hheap 1%positive eq_refl). by vm_compute.
Defined.

(** ** C10: no thread is admitted without a schedule *)

(** C10. [check_param] answers [-EINVAL] whenever no schedule table is
    installed on the thread's CPU, whatever the parameters, in particular
    for a priority in [EVL_TP_MIN_PRIO, EVL_TP_MAX_PRIO] and a partition id
    in [0, CONFIG_EVL_SCHED_TP_NR_PART). *)
Theorem tp_chkparam_needs_schedule (E : evl_core) (thread : nat)
  (p : evl_sched_param) (k : kernel) :
  gps (rq_tp k) = None →
  tp_chkparam E thread p k = - EINVAL.
Proof. intros Hg. unfold tp_chkparam. by rewrite Hg. Qed.

Lemma tp_chkparam_needs_schedule_witness :
  EVL_TP_MIN_PRIO frame_core ≤ tp_prio some_param ≤ EVL_TP_MAX_PRIO frame_core ∧
  0 ≤ tp_ptid some_param < CONFIG_EVL_SCHED_TP_NR_PART frame_core ∧
  tp_chkparam frame_core 0%nat some_param (booted frame_core) = - EINVAL.
Proof.
  split; [by vm_compute|]. split; [by vm_compute|].
  apply (tp_chkparam_needs_schedule frame_core 0%nat some_param
           (booted frame_core)).
  reflexivity.
Defined.

(** ** C8: picking the next thread *)

Section IdleQueue.

Context (E : evl_core).

Lemma tp_resync_idle (fuel : nat) :
  ∀ (g : evl_tp_schedule) (t : Z) (k : kernel) (t' : Z) (k' : kernel),
    tp_resync E fuel g t k = Done (t', k') →
    idle (rq_tp k') = idle (rq_tp k).
Proof.
  induction fuel as [|fuel IH]; intros g t k t' k' H; [discriminate|].
  cbn [tp_resync evl_read_clock] in H.
  destruct (evl_mono_clock E (kreads k) <=? t).
  - by injection H as <- <-.
  - by apply IH in H.
Qed.

Lemma tp_schedule_next_idle (fuel : nat) (k k' : kernel) :
  tp_schedule_next E fuel k = Done k' → idle (rq_tp k') = idle (rq_tp k).
Proof.
  unfold tp_schedule_next. intros H.
  apply bind_inv_Done in H as (g & _ & H).
  apply bind_inv_Done in H as (w & _ & H).
  destruct (pwin_nr g =? 0); [discriminate|].
  apply bind_inv_Done in H as (w' & _ & H).
  apply bind_inv_Done in H as ([t' k3] & Hr & H).
  injection H as <-. by apply tp_resync_idle in Hr.
Qed.

Lemma tp_tick_handler_idle (fuel : nat) (k k' : kernel) :
  tp_tick_handler E fuel k = Done k' → idle (rq_tp k') = idle (rq_tp k).
Proof.
  unfold tp_tick_handler. intros H.
  apply bind_inv_Done in H as (c & _ & H).
  apply bind_inv_Done in H as (g & _ & H).
  apply bind_inv_Done in H as (k3 & Hn & H).
  apply tp_schedule_next_idle in Hn. injection H as <-.
  assert (idle (rq_tp k3) = idle (rq_tp k)) as Hk3.
  { rewrite Hn. by destruct (wnext (rq_tp (raw_spin_lock k)) + 1 =? pwin_nr g). }
  by destruct (0 <=? _).
Qed.

Lemma thread_queue_part (thread : nat) (k : kernel) (r : tp_rq_ref)
  (q : list nat) :
  thread_queue thread k = Done (r, q) → ∃ n, r = TpPart n.
Proof.
  unfold thread_queue. intros H.
  apply bind_inv_Done in H as (t & _ & H).
  apply bind_inv_Done in H as (n & _ & H).
  apply bind_inv_Done in H as (q' & _ & H).
  injection H as <- _. by exists n.
Qed.

Lemma tp_queue_op_idle (thread : nat) (f : list nat → list nat) (k k' : kernel) :
  ('(r, q) ← thread_queue thread k; Done (upd_tp (set_ref_queue r (f q)) k))
    = Done k' →
  idle (rq_tp k') = idle (rq_tp k).
Proof.
  intros H. apply bind_inv_Done in H as ([r q] & Hq & H).
  apply thread_queue_part in Hq as [n ->]. by injection H as <-.
Qed.

Lemma put_tp_schedule_idle (p : positive) (k k' : kernel) :
  put_tp_schedule p k = Done k' → idle (rq_tp k') = idle (rq_tp k).
Proof.
  unfold put_tp_schedule. intros H.
  apply bind_inv_Done in H as (g & _ & H). cbn [refcount set_refcount] in H.
  destruct (refcount g - 1 =? 0); by injection H as <-.
Qed.

Lemma tp_switch_schedule_idle (new : option positive) (k : kernel) (ret : Z)
  (k' : kernel) :
  tp_switch_schedule new k = Done (ret, k') → idle (rq_tp k') = idle (rq_tp k).
Proof.
  unfold tp_switch_schedule, set_tp_schedule. intros H.
  apply bind_inv_Done in H as ([ogps k1] & Hs & H).
  apply bind_inv_Done in Hs as (bad & _ & Hs).
  assert (idle (rq_tp k1) = idle (rq_tp k)) as Hk1.
  { destruct bad; [by injection Hs as _ <-|].
    destruct (negb (bool_decide (threads (rq_tp (raw_spin_lock k)) = [])));
      injection Hs as _ <-; [done|].
    unfold stop_tp_schedule. cbn.
    by destruct (gps (rq_tp k)). }
  destruct ogps as [[q|]|e].
  - apply bind_inv_Done in H as (k2 & Hp & H). injection H as _ <-.
    apply put_tp_schedule_idle in Hp. cbn. congruence.
  - injection H as _ <-. exact Hk1.
  - injection H as _ <-. unfold evl_free. by destruct new.
Qed.

Lemma start_tp_schedule_idle (fuel : nat) (k k' : kernel) :
  start_tp_schedule E fuel k = Done k' → idle (rq_tp k') = idle (rq_tp k).
Proof.
  unfold start_tp_schedule. intros H.
  destruct (gps (rq_tp k)); [|by injection H as <-].
  by apply tp_schedule_next_idle in H.
Qed.

Lemma tp_control_idle (fuel : nat) (cpu : Z) (pt : evl_tp_ctlparam)
  (infp : option evl_tp_ctlinfo) (mem : option positive) (k : kernel)
  (ret : Z) (infp' : option evl_tp_ctlinfo) (k' : kernel) :
  tp_control E fuel cpu pt infp mem k = Done (ret, infp', k') →
  idle (rq_tp k') = idle (rq_tp k).
Proof.
  unfold tp_control. intros H.
  destruct ((cpu <? 0) || negb (cpu_present E cpu)
            || negb (is_threading_cpu E cpu)); [by injection H as _ _ <-|].
  assert (∀ r, ('(ret, k1) ← tp_switch_schedule None k; Done (ret, infp, k1))
               = Done r → idle (rq_tp r.2) = idle (rq_tp k)) as Hun.
  { intros [[r1 r2] r3] Hr. apply bind_inv_Done in Hr as ([e k1] & Hs & Hr).
    injection Hr as _ _ <-. by apply tp_switch_schedule_idle in Hs. }
  destruct (op pt).
  - destruct (0 <? nr_windows pt); [|by apply Hun in H].
    destruct mem as [p|]; [|by injection H as _ _ <-].
    apply bind_inv_Done in H as (r & _ & H).
    destruct r as [[ws d]|]; [|by injection H as _ _ <-].
    apply bind_inv_Done in H as ([e k2] & Hs & H). injection H as _ _ <-.
    by apply tp_switch_schedule_idle in Hs.
  - by apply Hun in H.
  - apply bind_inv_Done in H as (k1 & Hs & H). injection H as _ _ <-.
    by apply start_tp_schedule_idle in Hs.
  - injection H as _ _ <-. unfold stop_tp_schedule. cbn.
    by destruct (gps (rq_tp k)).
  - apply bind_inv_Done in H as ([gp k1] & Hg & H).
    assert (idle (rq_tp k1) = idle (rq_tp k)) as Hk1.
    { unfold get_tp_schedule in Hg.
      destruct (gps (rq_tp (raw_spin_lock k))); [|by injection Hg as _ <-].
      apply bind_inv_Done in Hg as (g & _ & Hg). by injection Hg as _ <-. }
    destruct gp as [p|]; [|by injection H as _ _ <-].
    destruct infp as [it|].
    + apply bind_inv_Done in H as (g & _ & H).
      apply bind_inv_Done in H as (ws' & _ & H).
      apply bind_inv_Done in H as (k3 & Hp & H). injection H as _ _ <-.
      apply put_tp_schedule_idle in Hp. cbn in Hp. congruence.
    + apply bind_inv_Done in H as (k3 & Hp & H). injection H as _ _ <-.
      apply put_tp_schedule_idle in Hp. cbn in Hp. congruence.
  - by injection H as _ _ <-.
Qed.

(** No call into the class puts a thread on the idle queue. *)
Lemma tp_call_run_idle (fuel : nat) (c : tp_call) (k k' : kernel) :
  idle (rq_tp k) = [] →
  tp_call_run E fuel c k = Done k' →
  idle (rq_tp k') = [].
Proof.
  intros Hidle H. destruct c; cbn [tp_call_run] in H.
  - rewrite <- Hidle.
    exact (tp_queue_op_idle thread
             (fun q => evl_add_schedq_tail E (kthreads k) q thread) k k' H).
  - rewrite <- Hidle.
    exact (tp_queue_op_idle thread (fun q => evl_del_schedq E q thread) k k' H).
  - rewrite <- Hidle.
    exact (tp_queue_op_idle thread
             (fun q => evl_add_schedq E (kthreads k) q thread) k k' H).
  - apply bind_inv_Done in H as ([t k1] & Hp & H). injection H as <-.
    unfold tp_pick in Hp.
    destruct (negb (evl_timer_is_running (tf_timer (rq_tp k))));
      [by injection Hp as _ <-|].
    apply bind_inv_Done in Hp as (r & _ & Hp).
    apply bind_inv_Done in Hp as (q & Hq & Hp).
    destruct r as [|n].
    + cbn in Hq. injection Hq as <-. rewrite Hidle in Hp.
      by injection Hp as _ <-.
    + destruct (evl_get_schedq q) as [t' q']. by injection Hp as _ <-.
  - rewrite <- Hidle. by apply (tp_tick_handler_idle fuel).
  - apply bind_inv_Done in H as ([b k1] & Hs & H). injection H as <-.
    unfold tp_setparam in Hs. apply bind_inv_Done in Hs as (t & _ & Hs).
    destruct (evl_set_effective_thread_priority E _ _) as [r t3].
    by injection Hs as _ <-.
  - unfold tp_trackprio in H. apply bind_inv_Done in H as (t & _ & H).
    destruct p as [prm|]; [|by injection H as <-].
    destruct (base_class_tp t && _); by injection H as <-.
  - unfold tp_ceilprio, upd_thread in H.
    apply bind_inv_Done in H as (t & _ & H). by injection H as <-.
  - by injection H as <-.
  - unfold tp_forget, upd_thread in H.
    apply bind_inv_Done in H as (t & _ & H). by injection H as <-.
  - apply bind_inv_Done in H as ([[r i] k1] & Hc & H). injection H as <-.
    rewrite <- Hidle. by apply tp_control_idle in Hc.
Qed.

Lemma tp_calls_run_idle (fuel : nat) (cs : list tp_call) :
  ∀ k k' : kernel,
    idle (rq_tp k) = [] →
    tp_calls_run E fuel cs k = Done k' →
    idle (rq_tp k') = [].
Proof.
  induction cs as [|c cs IH]; intros k k' Hidle H.
  - by injection H as <-.
  - cbn [tp_calls_run] in H. apply bind_inv_Done in H as (k1 & Hc & H).
    apply (IH k1 k'); [|done]. by apply (tp_call_run_idle fuel c k).
Qed.

End IdleQueue.

Lemma tp_pick_idle_window (k : kernel) :
  timer_running (tf_timer (rq_tp k)) = true →
  tps (rq_tp k) = Some TpIdle →
  idle (rq_tp k) = [] →
  tp_pick k = Done (None, k).
Proof.
  intros Hrun Htps Hidle. unfold tp_pick, evl_timer_is_running.
  rewrite Hrun, Htps. cbn. rewrite Hidle. cbn.
  destruct k as [tp c th h r l]. destruct tp. cbn in *. by subst.
Qed.

(** C8. The pick operation returns no thread, and changes nothing, whenever
    the frame timer is not running: with no table installed, and also with
    a table installed but the schedule stopped, whatever waits on the
    partition run queues. When the timer is running it takes the thread at
    the head of the run queue of the active partition; the idle queue stays
    empty under every call into the class, so nothing is picked during an
    idle window. *)
Theorem tp_pick_follows_timer (E : evl_core) (k : kernel) :
  (timer_running (tf_timer (rq_tp k)) = false → tp_pick k = Done (None, k)) ∧
  (timer_running (tf_timer (rq_tp k)) = true →
   ∀ (r : tp_rq_ref) (q : list nat),
     tps (rq_tp k) = Some r →
     ref_queue r (rq_tp k) = Some q →
     tp_pick k = Done (head q, upd_tp (set_ref_queue r (tail q)) k)) ∧
  (timer_running (tf_timer (rq_tp k)) = true →
   tps (rq_tp k) = Some TpIdle →
   idle (rq_tp k) = [] →
   tp_pick k = Done (None, k)) ∧
  (∀ (fuel : nat) (cs : list tp_call) (k' : kernel),
     tp_calls_run E fuel cs (tp_init E k) = Done k' →
     idle (rq_tp k') = [] ∧
     (timer_running (tf_timer (rq_tp k')) = true →
      tps (rq_tp k') = Some TpIdle →
      tp_pick k' = Done (None, k'))).
Proof.
  split_and!.
  - intros Hoff. unfold tp_pick, evl_timer_is_running. by rewrite Hoff.
  - intros Hon r q Hr Hq. unfold tp_pick, evl_timer_is_running.
    rewrite Hon, Hr. cbn [negb deref]. rewrite bind_Done, Hq.
    cbn [deref]. rewrite bind_Done. by destruct q.
  - apply tp_pick_idle_window.
  - intros fuel cs k' Hrun.
    assert (idle (rq_tp k') = []) as Hidle
      by (by apply (tp_calls_run_idle E fuel cs (tp_init E k) k')).
    split; [exact Hidle|]. intros Hon Htps. by apply tp_pick_idle_window.
Qed.

Lemma tp_pick_follows_timer_witness :
  gps (rq_tp stopped_with_thread) = Some 1%positive ∧
  partitions (rq_tp stopped_with_thread) !! 0%nat = Some [0%nat] ∧
  tp_pick stopped_with_thread = Done (None, stopped_with_thread).
Proof.
  split; [reflexivity|]. split; [reflexivity|].
  destruct (tp_pick_follows_timer frame_core stopped_with_thread) as [Hoff _].
  apply Hoff. reflexivity.
Defined.

(** For the record: with a table installed, [check_param] admits exactly the
    parameters in range. *)
Lemma tp_chkparam_spec (E : evl_core) (thread : nat) (p : evl_sched_param)
  (k : kernel) :
  tp_chkparam E thread p k = 0 ↔
  gps (rq_tp k) ≠ None ∧
  EVL_TP_MIN_PRIO E ≤ tp_prio p ≤ EVL_TP_MAX_PRIO E ∧
  0 ≤ tp_ptid p < CONFIG_EVL_SCHED_TP_NR_PART E.
Proof.
  unfold tp_chkparam, EINVAL.
  destruct (gps (rq_tp k)) as [q|]; cbn [bool_decide]; [|cbn; split; [lia|]].
  2:{ intros [H _]. done. }
  rewrite bool_decide_false by done. cbn [orb].
  destruct (tp_prio p <? EVL_TP_MIN_PRIO E) eqn:H1;
    [apply Z.ltb_lt in H1 | apply Z.ltb_ge in H1]; cbn [orb];
    [split; [lia|intros (_ & ? & _); lia]|].
  destruct (EVL_TP_MAX_PRIO E <? tp_prio p) eqn:H2;
    [apply Z.ltb_lt in H2 | apply Z.ltb_ge in H2]; cbn [orb];
    [split; [lia|intros (_ & ? & _); lia]|].
  destruct (tp_ptid p <? 0) eqn:H3;
    [apply Z.ltb_lt in H3 | apply Z.ltb_ge in H3]; cbn [orb];
    [split; [lia|intros (_ & _ & ?); lia]|].
  destruct (CONFIG_EVL_SCHED_TP_NR_PART E <=? tp_ptid p) eqn:H4;
    [apply Z.leb_le in H4 | apply Z.leb_gt in H4];
    [split; [lia|intros (_ & _ & ?); lia]|].
  split; [|done]. intros _. split_and!; (done || lia).
Qed.

(** * Further properties of the class *)

(** ** The window advance, whatever the clock does *)


Section Advance.

Context (E : evl_core).

(** The ways out of the catch-up loop: after [n] rounds, with the date it
    was entered with if [n = 0], with the frame start reached otherwise. *)
Lemma tp_resync_inv (fuel : nat) :
  ∀ (g : evl_tp_schedule) (t : Z) (k : kernel) (t' : Z) (k' : kernel),
    tp_resync E fuel g t k = Done (t', k') →
    ∃ n : nat,
      (n < fuel)%nat ∧
      k' = tp_resynced n g k ∧
      t' = match n with
           | O => t
           | S _ => tf_start (rq_tp k) + Z.of_nat n * tf_duration g
           end ∧
      evl_mono_clock E (kreads k + n)%nat ≤ t'.
Proof.
  induction fuel as [|fuel IH]; intros g t k t' k' H; [discriminate|].
  cbn [tp_resync evl_read_clock] in H.
  destruct (evl_mono_clock E (kreads k) <=? t) eqn:Hc.
  - injection H as <- <-. apply Z.leb_le in Hc. exists 0%nat.
    split; [lia|]. split; [unfold tp_resynced; f_equal; lia|].
    split; [reflexivity|]. by rewrite Nat.add_0_r.
  - apply IH in H as (n & Hn & -> & -> & Hclk). exists (S n).
    split; [lia|]. split.
    { destruct n; unfold tp_resynced; kernel_ext; try reflexivity; cbn; lia. }
    split.
    { destruct n; cbn [upd_tp set_kreads rq_tp set_wnext set_tf_start tf_start];
        lia. }
    cbn [upd_tp set_kreads rq_tp set_wnext set_tf_start tf_start kreads]
      in Hclk |- *.
    replace (kreads k + S n)%nat with (S (kreads k) + n)%nat by lia.
    destruct n; lia.
Qed.

Lemma tp_schedule_next_inv (fuel : nat) (k k' : kernel) (g : evl_tp_schedule) :
  tp_installed k g →
  tp_schedule_next E fuel k = Done k' →
  ∃ n : nat,
    (n < fuel)%nat ∧
    kreads k' = (kreads k + S n)%nat ∧
    tf_start (rq_tp k') = tf_start (rq_tp k) + Z.of_nat n * tf_duration g ∧
    wnext (rq_tp k') = match n with
                       | O => (wnext (rq_tp k) + 1) `mod` pwin_nr g
                       | S _ => 0
                       end ∧
    tps (rq_tp k') = Some (part_ref (win_part g (wnext (rq_tp k)))) ∧
    tf_timer (rq_tp k') =
      {| timer_running := true;
         timer_date := tf_start (rq_tp k') + win_offset g (wnext (rq_tp k')) |} ∧
    evl_mono_clock E (kreads k + n)%nat ≤ timer_date (tf_timer (rq_tp k')) ∧
    tp_next_frame k k'.
Proof.
  intros Hin H. pose proof (inst_ok k g Hin) as Hok.
  rewrite (tp_schedule_next_unfold E fuel k g Hin) in H.
  apply bind_inv_Done in H as ([t' k3] & Hr & H). injection H as <-.
  apply tp_resync_inv in Hr as (n & Hn & -> & -> & Hclk).
  exists n. split; [exact Hn|].
  change (kreads (tp_advanced g k)) with (kreads k) in Hclk.
  change (tf_start (rq_tp (tp_advanced g k))) with (tf_start (rq_tp k))
    in Hclk |- *.
  destruct n as [|n].
  - cbn. rewrite Z.add_0_r. split_and!; try done.
    split; try reflexivity. cbn. by rewrite <- app_assoc.
  - cbn [tp_resynced evl_set_resched evl_start_timer emit upd_tp set_kreads
         rq_tp tf_timer timer_date set_tf_timer set_wnext set_tf_start wnext
         tf_start kreads tp_advanced set_tps tps].
    rewrite (win_offset_0 g Hok), Z.add_0_r. split_and!; try done.
    split; try reflexivity. cbn. by rewrite <- app_assoc.
Qed.

End Advance.




(** ** The table built by an install request *)

Lemma three_windows_valid : tp_windows_valid frame_core three_windows.
Proof.
  split.
  - intros p Hp. injection Hp as <-. reflexivity.
  - split.
    + intros [|[|[|i]]] p Hp; try (injection Hp as <-; reflexivity).
      discriminate.
    + intros p Hp.
      repeat (apply elem_of_cons in Hp as [->|Hp]; [by vm_compute|]).
      by apply elem_of_nil in Hp.
    + intros p Hp.
      repeat (apply elem_of_cons in Hp as [->|Hp];
              [vm_compute; intuition congruence|]).
      by apply elem_of_nil in Hp.
Qed.







(** ** Replacing a table, and the life of a table *)

Lemma set_refcount_same (g : evl_tp_schedule) (c : Z) :
  refcount g = c → set_refcount c g = g.
Proof. intros <-. by destruct g. Qed.

Lemma set_refcount_twice (g : evl_tp_schedule) (a b : Z) :
  set_refcount a (set_refcount b g) = set_refcount a g.
Proof. reflexivity. Qed.

(** X3. An install request granted on a run queue that already has a table
    replaces it: the frame timer is stopped under the lock, so that nothing
    is picked until the schedule is started again, and the reference the
    run queue held on the old table is dropped after the lock was released,
    which frees the old table unless a reader still holds it. *)
Theorem tp_install_replaces (E : evl_core) (fuel : nat) (cpu : Z)
  (ws : list __evl_tp_window) (infp : option evl_tp_ctlinfo) (p q : positive)
  (g0 : evl_tp_schedule) (k : kernel) :
  0 < CONFIG_EVL_SCHED_TP_NR_PART E →
  tp_cpu_ok E cpu →
  ws ≠ [] →
  tp_windows_valid E ws →
  kheap k !! p = None →
  gps (rq_tp k) = Some q →
  kheap k !! q = Some g0 →
  0 < refcount g0 →
  threads (rq_tp k) = [] →
  ∃ k' : kernel,
    tp_control E fuel cpu (request evl_tp_install ws) infp (Some p) k =
      Done (0, infp, k') ∧
    gps (rq_tp k') = Some p ∧
    kheap k' !! p = Some (tp_installed_table ws) ∧
    kheap k' !! q = (if refcount g0 =? 1 then None
                     else Some (set_refcount (refcount g0 - 1) g0)) ∧
    timer_running (tf_timer (rq_tp k')) = false ∧
    tp_pick k' = Done (None, k') ∧
    klog k' = klog k ++ [EvLock; EvStopTimer; EvUnlock; EvRefDrop q]
                     ++ (if refcount g0 =? 1 then [EvFree (Some q)] else [])
                     ++ [EvSchedule].
Proof.
  intros Hnr Hcpu Hne Hv Hp Hq Hg0 Hrc Hth.
  assert (tp_heap_ok k) as Hheap.
  { intros q' Hq'. rewrite Hq in Hq'. injection Hq' as <-. by exists g0. }
  assert (q ≠ p) as Hqp by congruence.
  destruct (tp_control_install_granted E Hnr fuel cpu ws infp p k)
    as (Hrun & Hgps & Htable); try done.
  eexists. split; [exact Hrun|]. split; [exact Hgps|]. split; [exact Htable|].
  assert ((refcount g0 - 1 =? 0) = (refcount g0 =? 1)) as Hz.
  { destruct (refcount g0 =? 1) eqn:H1;
      [apply Z.eqb_eq in H1; apply Z.eqb_eq | apply Z.eqb_neq in H1;
       apply Z.eqb_neq]; lia. }
  assert (timer_running (tf_timer (rq_tp (tp_granted (Some p)
            (tp_candidate p ws k)))) = false) as Hoff.
  { cbn [tp_granted tp_candidate rq_tp set_kheap]. rewrite Hq. reflexivity. }
  split_and!.
  - cbn [tp_granted tp_candidate rq_tp set_kheap kheap]. rewrite Hq.
    unfold tp_put_heap. rewrite lookup_insert_ne, Hg0, Hz by done.
    destruct (refcount g0 =? 1).
    + apply lookup_delete_eq.
    + apply lookup_insert_eq.
  - exact Hoff.
  - unfold tp_pick, evl_timer_is_running. by rewrite Hoff.
  - cbn [tp_granted tp_candidate rq_tp set_kheap kheap klog]. rewrite Hq.
    unfold tp_put_log. rewrite lookup_insert_ne, Hg0, Hz by done.
    by destruct (refcount g0 =? 1).
Qed.

Lemma tp_install_replaces_witness :
  ∃ k' : kernel,
    tp_control frame_core 1 0 (request evl_tp_install three_windows) None
               (Some 2%positive) late_kernel = Done (0, None, k') ∧
    gps (rq_tp k') = Some 2%positive ∧
    kheap k' !! 1%positive = None ∧
    timer_running (tf_timer (rq_tp k')) = false.
Proof.
  destruct (tp_install_replaces frame_core 1 0 three_windows None 2%positive
              1%positive three_windows_table late_kernel)
    as (k' & Hrun & Hgps & _ & Hold & Hoff & _).
  - reflexivity.
  - by vm_compute.
  - discriminate.
  - exact three_windows_valid.
  - reflexivity.
  - reflexivity.
  - reflexivity.
  - reflexivity.
  - reflexivity.
  - exists k'. split; [exact Hrun|]. split; [exact Hgps|].
    split; [exact Hold | exact Hoff].
Defined.

Lemma tp_pins_spec (p : positive) (n : nat) :
  ∀ (k : kernel) (g : evl_tp_schedule),
    gps (rq_tp k) = Some p →
    kheap k !! p = Some g →
    ∃ k1 : kernel,
      tp_pins n k = Done k1 ∧
      rq_tp k1 = rq_tp k ∧
      kthreads k1 = kthreads k ∧
      kheap k1 = <[p := set_refcount (refcount g + Z.of_nat n) g]> (kheap k).
Proof.
  induction n as [|n IH]; intros k g Hp Hg.
  - exists k. split; [done|]. split; [done|]. split; [done|].
    rewrite set_refcount_same by lia. by rewrite insert_id.
  - cbn [tp_pins]. unfold get_tp_schedule. rewrite Hp, Hg. simpl deref.
    rewrite !bind_Done.
    destruct (IH (emit (EvRefTake p)
                    (set_kheap (<[p := set_refcount (refcount g + 1) g]> (kheap k))
                       k))
                 (set_refcount (refcount g + 1) g))
      as (k1 & Hrun & Hrq & Hth & Hh); [done | cbn; apply lookup_insert_eq |].
    exists k1. split; [exact Hrun|]. split; [exact Hrq|]. split; [exact Hth|].
    rewrite Hh. cbn [kheap emit set_kheap refcount set_refcount].
    rewrite insert_insert_eq, set_refcount_twice. do 2 f_equal. lia.
Qed.

Lemma tp_puts_spec (p : positive) (m : nat) :
  ∀ (k : kernel) (g : evl_tp_schedule) (c : nat),
    kheap k !! p = Some g →
    refcount g = Z.of_nat c →
    (m ≤ c)%nat → (0 < c)%nat →
    ∃ k3 : kernel,
      tp_puts m p k = Done k3 ∧
      rq_tp k3 = rq_tp k ∧
      kthreads k3 = kthreads k ∧
      kheap k3 !! p = (if decide (m = c) then None
                       else Some (set_refcount (Z.of_nat c - Z.of_nat m) g)) ∧
      (∀ q, q ≠ p → kheap k3 !! q = kheap k !! q).
Proof.
  induction m as [|m IH]; intros k g c Hg Hrc Hm Hc.
  - exists k. split; [done|]. split; [done|]. split; [done|].
    rewrite decide_False by lia. split; [|done].
    rewrite set_refcount_same by lia. exact Hg.
  - cbn [tp_puts]. rewrite (put_tp_schedule_live p g k Hg), bind_Done.
    cbv zeta. destruct (refcount g - 1 =? 0) eqn:Hz.
    + apply Z.eqb_eq in Hz. assert (c = 1%nat) as -> by lia.
      assert (m = 0%nat) as -> by lia. eexists. split; [reflexivity|].
      split; [reflexivity|]. split; [reflexivity|]. rewrite decide_True by done.
      cbn [evl_free emit set_kheap kheap]. split.
      * apply lookup_delete_eq.
      * intros q Hq. by rewrite lookup_delete_ne, lookup_insert_ne.
    + apply Z.eqb_neq in Hz.
      destruct (IH (emit (EvRefDrop p)
                      (set_kheap
                         (<[p := set_refcount (refcount g - 1) g]> (kheap k)) k))
                   (set_refcount (refcount g - 1) g) (c - 1)%nat)
        as (k3 & Hrun & Hrq & Hth & Hh & Hother);
        [cbn; apply lookup_insert_eq | cbn; lia | lia | lia |].
      exists k3. split; [exact Hrun|]. split; [exact Hrq|]. split; [exact Hth|].
      split.
      * rewrite Hh. destruct (decide (m = (c - 1)%nat)) as [Hmc|Hmc].
        -- by rewrite decide_True by lia.
        -- rewrite decide_False by lia. rewrite set_refcount_twice.
           do 2 f_equal. lia.
      * intros q Hq. rewrite (Hother q Hq). cbn. by rewrite lookup_insert_ne.
Qed.

(** X4. The life of a table. With the run queue holding the only reference to
    the installed table, let [n] readers pin it and the table then be
    uninstalled: the request is granted and the run queue has no table any
    more, but the table itself stays allocated as long as one of the readers
    has not put its reference; it is released by the put of the last one,
    or by the uninstall request itself if nobody was reading. *)
Theorem tp_table_lifetime (k : kernel) (p : positive) (g : evl_tp_schedule)
  (n m : nat) :
  gps (rq_tp k) = Some p →
  kheap k !! p = Some g →
  refcount g = 1 →
  threads (rq_tp k) = [] →
  (m ≤ n)%nat →
  ∃ k1 k2 k3 : kernel,
    tp_pins n k = Done k1 ∧
    tp_switch_schedule None k1 = Done (0, k2) ∧
    tp_puts m p k2 = Done k3 ∧
    gps (rq_tp k2) = None ∧
    gps (rq_tp k3) = None ∧
    kheap k3 !! p = (if decide (m = n) then None
                     else Some (set_refcount (Z.of_nat n - Z.of_nat m) g)).
Proof.
  intros Hp Hg Hrc Hth Hm.
  destruct (tp_pins_spec p n k g Hp Hg) as (k1 & Hpins & Hrq1 & _ & Hh1).
  assert (kheap k1 !! p = Some (set_refcount (1 + Z.of_nat n) g)) as Hg1.
  { rewrite Hh1, Hrc. apply lookup_insert_eq. }
  assert (tp_switch_schedule None k1 = Done (0, tp_granted None k1)) as Hsw.
  { apply tp_switch_schedule_grants; [done | by rewrite Hrq1 |].
    intros q Hq. rewrite Hrq1, Hp in Hq. injection Hq as <-.
    split; [done|]. by rewrite Hg1. }
  assert (gps (rq_tp (tp_granted None k1)) = None) as Hnone by reflexivity.
  assert (kheap (tp_granted None k1) = tp_put_heap p (kheap k1)) as Hh2.
  { cbn [tp_granted kheap]. by rewrite Hrq1, Hp. }
  exists k1, (tp_granted None k1).
  destruct n as [|n].
  - assert (m = 0%nat) as -> by lia. exists (tp_granted None k1).
    split; [exact Hpins|]. split; [exact Hsw|]. split; [reflexivity|].
    split; [done|]. split; [done|]. rewrite decide_True by done.
    rewrite Hh2. unfold tp_put_heap. rewrite Hg1. cbn [refcount set_refcount].
    change (1 + Z.of_nat 0 - 1 =? 0) with true. apply lookup_delete_eq.
  - assert (kheap (tp_granted None k1) !! p
            = Some (set_refcount (Z.of_nat (S n)) g)) as Hg2.
    { rewrite Hh2. unfold tp_put_heap. rewrite Hg1.
      cbn [refcount set_refcount].
      destruct (1 + Z.of_nat (S n) - 1 =? 0) eqn:Hz;
        [apply Z.eqb_eq in Hz; lia|].
      rewrite lookup_insert_eq, set_refcount_twice. do 2 f_equal. lia. }
    destruct (tp_puts_spec p m (tp_granted None k1)
                (set_refcount (Z.of_nat (S n)) g) (S n) Hg2)
      as (k3 & Hputs & Hrq3 & _ & Hh3 & _); [done | lia | lia |].
    exists k3. split; [exact Hpins|]. split; [exact Hsw|].
    split; [exact Hputs|]. split; [done|]. split; [by rewrite Hrq3|].
    rewrite Hh3. by destruct (decide (m = S n)).
Qed.

Lemma tp_table_lifetime_witness :
  ∃ k1 k2 k3 : kernel,
    tp_pins 2 installed = Done k1 ∧
    tp_switch_schedule None k1 = Done (0, k2) ∧
    tp_puts 1 1%positive k2 = Done k3 ∧
    kheap k3 !! 1%positive = Some (set_refcount 1 three_windows_table).
Proof.
  destruct (tp_table_lifetime installed 1%positive three_windows_table 2 1)
    as (k1 & k2 & k3 & H1 & H2 & H3 & _ & _ & H4).
  - reflexivity.
  - by vm_compute.
  - reflexivity.
  - reflexivity.
  - lia.
  - exists k1, k2, k3. split; [exact H1|]. split; [exact H2|].
    split; [exact H3|]. exact H4.
Defined.

(** ** Starting and stopping through the control interface *)

(** X5. Start and stop requests on a run queue without a table do nothing: they
    return 0 after taking and releasing the lock, the frame timer is neither
    programmed nor cancelled, the clock is not read, and the loop of the
    window advance is not entered (no unrolling is needed). *)
Theorem tp_start_stop_need_table (E : evl_core) (fuel : nat) (cpu : Z)
  (o : evl_tp_ctlop) (n : Z) (ws : list __evl_tp_window)
  (infp : option evl_tp_ctlinfo) (mem : option positive) (k : kernel) :
  tp_cpu_ok E cpu →
  gps (rq_tp k) = None →
  o = evl_tp_start ∨ o = evl_tp_stop →
  tp_control E fuel cpu {| op := o; nr_windows := n; windows := ws |} infp mem k =
    Done (0, infp, evl_schedule (raw_spin_unlock (raw_spin_lock k))) ∧
  rq_tp (evl_schedule (raw_spin_unlock (raw_spin_lock k))) = rq_tp k ∧
  kreads (evl_schedule (raw_spin_unlock (raw_spin_lock k))) = kreads k ∧
  klog (evl_schedule (raw_spin_unlock (raw_spin_lock k))) =
    klog k ++ [EvLock; EvUnlock; EvSchedule].
Proof.
  intros Hcpu Hg Ho. split.
  - unfold tp_control. rewrite (tp_cpu_ok_check E cpu Hcpu).
    destruct Ho as [-> | ->]; cbn [op].
    + unfold start_tp_schedule.
      change (gps (rq_tp (raw_spin_lock k))) with (gps (rq_tp k)).
      by rewrite Hg.
    + unfold stop_tp_schedule.
      change (gps (rq_tp (raw_spin_lock k))) with (gps (rq_tp k)).
      by rewrite Hg.
  - split; [reflexivity|]. split; [reflexivity|].
    cbn. by rewrite <- !app_assoc.
Qed.

Lemma tp_start_stop_need_table_witness :
  tp_control frame_core 0 0
             {| op := evl_tp_start; nr_windows := 0; windows := [] |}
             None None (booted frame_core) =
    Done (0, None,
          evl_schedule (raw_spin_unlock (raw_spin_lock (booted frame_core)))).
Proof.
  apply (tp_start_stop_need_table frame_core 0 0 evl_tp_start 0 [] None None
           (booted frame_core)).
  - by vm_compute.
  - reflexivity.
  - by left.
Defined.

(** X6. A stop request on a run queue with a table cancels the frame timer under
    the lock and changes nothing else: the table stays installed, and the
    active partition, the window index and the frame start keep the values
    they had. From then on nothing is picked, whatever waits on the run
    queues. *)
Theorem tp_stop_freezes (E : evl_core) (fuel : nat) (cpu : Z) (n : Z)
  (ws : list __evl_tp_window) (infp : option evl_tp_ctlinfo)
  (mem : option positive) (k : kernel) (p : positive) :
  tp_cpu_ok E cpu →
  gps (rq_tp k) = Some p →
  ∃ k' : kernel,
    tp_control E fuel cpu {| op := evl_tp_stop; nr_windows := n; windows := ws |}
               infp mem k = Done (0, infp, k') ∧
    rq_tp k' =
      set_tf_timer {| timer_running := false;
                      timer_date := timer_date (tf_timer (rq_tp k)) |} (rq_tp k) ∧
    kheap k' = kheap k ∧ kthreads k' = kthreads k ∧ kreads k' = kreads k ∧
    klog k' = klog k ++ [EvLock; EvStopTimer; EvUnlock; EvSchedule] ∧
    tp_pick k' = Done (None, k').
Proof.
  intros Hcpu Hp. eexists. split.
  { unfold tp_control. rewrite (tp_cpu_ok_check E cpu Hcpu). cbn [op].
    unfold stop_tp_schedule.
    change (gps (rq_tp (raw_spin_lock k))) with (gps (rq_tp k)).
    rewrite Hp. reflexivity. }
  split; [reflexivity|]. split; [reflexivity|]. split; [reflexivity|].
  split; [reflexivity|]. split; [cbn; by rewrite <- !app_assoc|].
  reflexivity.
Qed.

Lemma tp_stop_freezes_witness :
  ∃ k' : kernel,
    tp_control frame_core 0 0
               {| op := evl_tp_stop; nr_windows := 0; windows := [] |}
               None None late_kernel = Done (0, None, k') ∧
    gps (rq_tp k') = Some 1%positive ∧
    tp_pick k' = Done (None, k').
Proof.
  destruct (tp_stop_freezes frame_core 0 0 0 [] None None late_kernel 1%positive)
    as (k' & Hrun & Hrq & _ & _ & _ & _ & Hpick).
  - by vm_compute.
  - reflexivity.
  - exists k'. split; [exact Hrun|]. split; [by rewrite Hrq | exact Hpick].
Defined.



(** ** Edges of the get request *)

Lemma tp_control_get_null (E : evl_core) (fuel : nat) (cpu : Z) (n : Z)
  (ws : list __evl_tp_window) (mem : option positive) (k : kernel)
  (p : positive) (g : evl_tp_schedule) :
  tp_cpu_ok E cpu →
  gps (rq_tp k) = Some p → kheap k !! p = Some g → 0 < refcount g →
  tp_control E fuel cpu {| op := evl_tp_get; nr_windows := n; windows := ws |}
             None mem k = Done (- EINVAL, None, tp_read p k).
Proof.
  intros Hcpu Hp Hg Hrc.
  unfold tp_control. rewrite (tp_cpu_ok_check E cpu Hcpu).
  cbn [op]. unfold get_tp_schedule.
  change (gps (rq_tp (raw_spin_lock k))) with (gps (rq_tp k)).
  change (kheap (raw_spin_lock k)) with (kheap k).
  rewrite Hp, Hg. simpl deref. rewrite !bind_Done.
  rewrite (put_tp_schedule_live p (set_refcount (refcount g + 1) g))
    by (cbn; apply lookup_insert_eq).
  rewrite bind_Done. cbn [refcount set_refcount].
  destruct (refcount g + 1 - 1 =? 0) eqn:Hz; [apply Z.eqb_eq in Hz; lia|].
  do 2 f_equal. unfold tp_read, raw_spin_unlock, raw_spin_lock.
  kernel_ext; try reflexivity.
  rewrite insert_insert_eq. apply insert_id. rewrite Hg. f_equal.
  destruct g. unfold set_refcount. cbn. f_equal. lia.
Qed.

(** X8. A get request on a run queue without a table returns 0 and leaves the
    reply alone, the actual count included; it is the only way through the
    get request that ends in the rescheduling point. A get request without
    a reply buffer on a run queue with a table returns [-EINVAL]; the
    reference it took on the table under the lock is dropped again, so the
    table and the run queue are as before. *)
Theorem tp_get_edges (E : evl_core) (fuel : nat) (cpu : Z) (n : Z)
  (ws : list __evl_tp_window) (mem : option positive) (k : kernel) :
  tp_cpu_ok E cpu →
  (gps (rq_tp k) = None →
   ∀ infp : option evl_tp_ctlinfo,
     tp_control E fuel cpu {| op := evl_tp_get; nr_windows := n; windows := ws |}
                infp mem k =
       Done (0, infp, evl_schedule (raw_spin_unlock (raw_spin_lock k)))) ∧
  (∀ (p : positive) (g : evl_tp_schedule),
     gps (rq_tp k) = Some p → kheap k !! p = Some g → 0 < refcount g →
     tp_control E fuel cpu {| op := evl_tp_get; nr_windows := n; windows := ws |}
                None mem k = Done (- EINVAL, None, tp_read p k) ∧
     rq_tp (tp_read p k) = rq_tp k ∧ kheap (tp_read p k) = kheap k ∧
     klog (tp_read p k) = klog k ++ [EvLock; EvRefTake p; EvUnlock; EvRefDrop p]).
Proof.
  intros Hcpu. split.
  - intros Hg infp. unfold tp_control. rewrite (tp_cpu_ok_check E cpu Hcpu).
    cbn [op]. unfold get_tp_schedule.
    change (gps (rq_tp (raw_spin_lock k))) with (gps (rq_tp k)).
    by rewrite Hg.
  - intros p g Hp Hg Hrc. split.
    + by apply (tp_control_get_null E fuel cpu n ws mem k p g).
    + split; [reflexivity|]. split; [reflexivity|].
      unfold tp_read, emit. cbn [klog]. by rewrite <- !app_assoc.
Qed.

Lemma tp_get_edges_witness :
  tp_control frame_core 0 0
             {| op := evl_tp_get; nr_windows := 3; windows := [] |}
             (Some (blank_info 3)) None (booted frame_core) =
    Done (0, Some (blank_info 3),
          evl_schedule (raw_spin_unlock (raw_spin_lock (booted frame_core)))).
Proof.
  destruct (tp_get_edges frame_core 0 0 3 [] None (booted frame_core))
    as [Hnone _].
  - by vm_compute.
  - apply Hnone. reflexivity.
Defined.





(** ** Scheduling parameters and run queues *)

Lemma thread_queue_at (thread : nat) (k : kernel) (t : evl_thread) (n : Z)
  (q : list nat) :
  kthreads k !! thread = Some t → th_tps t = Some n →
  at_index (partitions (rq_tp k)) n = Some q →
  thread_queue thread k = Done (TpPart n, q).
Proof.
  intros Ht Hn Hq. unfold thread_queue. rewrite Ht. simpl deref.
  rewrite bind_Done, Hn. simpl deref. rewrite bind_Done.
  cbn [ref_queue]. rewrite Hq. reflexivity.
Qed.

Lemma thread_queue_outside (thread : nat) (k : kernel) (t : evl_thread) (n : Z) :
  kthreads k !! thread = Some t → th_tps t = Some n →
  n < 0 ∨ Z.of_nat (length (partitions (rq_tp k))) ≤ n →
  thread_queue thread k = Oops.
Proof.
  intros Ht Hn Hout. unfold thread_queue. rewrite Ht. simpl deref.
  rewrite bind_Done, Hn. simpl deref. rewrite bind_Done.
  cbn [ref_queue]. unfold at_index.
  destruct (n <? 0) eqn:Hneg; [reflexivity|]. apply Z.ltb_ge in Hneg.
  rewrite lookup_ge_None_2 by lia. reflexivity.
Qed.

(** X10. Setting the parameters of a thread records the partition asked for, so
    that reading them back returns that partition id, and touches neither
    the run queue nor any other thread. The operation itself checks
    nothing. With parameters that [tp_chkparam] admits, the partition exists
    and a later enqueue puts the thread on the run queue of that partition,
    leaving every other run queue alone; with a partition id outside
    [0, CONFIG_EVL_SCHED_TP_NR_PART) the later enqueue reaches outside the
    array of partitions. *)
Theorem tp_admitted_params (E : evl_core) (thread : nat) (p : evl_sched_param)
  (k : kernel) (t : evl_thread) :
  tp_prio_keeps_partition E →
  kthreads k !! thread = Some t →
  0 ≤ CONFIG_EVL_SCHED_TP_NR_PART E →
  length (partitions (rq_tp k)) = Z.to_nat (CONFIG_EVL_SCHED_TP_NR_PART E) →
  ∃ (r : bool) (k1 : kernel),
    tp_setparam E thread p k = Done (r, k1) ∧
    rq_tp k1 = rq_tp k ∧ kheap k1 = kheap k ∧ klog k1 = klog k ∧
    (∀ t' : nat, t' ≠ thread → kthreads k1 !! t' = kthreads k !! t') ∧
    (∃ q : evl_sched_param,
       tp_getparam thread k1 = Done q ∧ tp_ptid q = tp_ptid p) ∧
    (tp_chkparam E thread p k = 0 →
     ∃ (q0 : list nat) (k2 : kernel),
       partitions (rq_tp k) !! Z.to_nat (tp_ptid p) = Some q0 ∧
       tp_enqueue E thread k1 = Done k2 ∧
       partitions (rq_tp k2) =
         <[Z.to_nat (tp_ptid p) := evl_add_schedq_tail E (kthreads k1) q0 thread]>
           (partitions (rq_tp k)) ∧
       idle (rq_tp k2) = idle (rq_tp k) ∧
       (∀ j : nat, j ≠ Z.to_nat (tp_ptid p) →
          partitions (rq_tp k2) !! j = partitions (rq_tp k) !! j)) ∧
    (tp_ptid p < 0 ∨ CONFIG_EVL_SCHED_TP_NR_PART E ≤ tp_ptid p →
     tp_enqueue E thread k1 = Oops).
Proof.
  intros Hhelper Ht Hnr Hlen.
  unfold tp_setparam. rewrite Ht. simpl deref. rewrite bind_Done.
  set (t2 := set_state _ (set_th_tps (Some (tp_ptid p)) t)).
  pose proof (Hhelper t2 (tp_prio p)) as Hkeep.
  destruct (evl_set_effective_thread_priority E t2 (tp_prio p)) as [r t3].
  cbn [snd] in Hkeep. change (th_tps t2) with (Some (tp_ptid p)) in Hkeep.
  set (k1 := set_kthreads (<[thread := t3]> (kthreads k)) k).
  assert (kthreads k1 !! thread = Some t3) as Ht3
    by (cbn; apply lookup_insert_eq).
  exists r, k1. split; [reflexivity|]. split; [reflexivity|].
  split; [reflexivity|]. split; [reflexivity|]. split.
  { intros t' Hne. cbn. by rewrite lookup_insert_ne. }
  split.
  { unfold tp_getparam. rewrite Ht3. simpl deref. rewrite bind_Done, Hkeep.
    eexists. split; reflexivity. }
  split.
  - intros Hchk. apply tp_chkparam_spec in Hchk as (_ & _ & Hrange).
    destruct (lookup_lt_is_Some_2 (partitions (rq_tp k)) (Z.to_nat (tp_ptid p)))
      as [q0 Hq0]; [lia|].
    exists q0. eexists. split; [exact Hq0|]. split.
    { unfold tp_enqueue.
      rewrite (thread_queue_at thread k1 t3 (tp_ptid p) q0 Ht3 Hkeep)
        by (rewrite at_index_lookup by lia; exact Hq0).
      rewrite bind_Done. reflexivity. }
    split; [reflexivity|]. split; [reflexivity|].
    intros j Hj. cbn. by rewrite list_lookup_insert_ne.
  - intros Hout. unfold tp_enqueue.
    rewrite (thread_queue_outside thread k1 t3 (tp_ptid p) Ht3 Hkeep);
      [reflexivity|].
    change (partitions (rq_tp k1)) with (partitions (rq_tp k)). lia.
Qed.

Lemma tp_admitted_params_witness :
  ∃ (r : bool) (k1 k2 : kernel),
    tp_setparam frame_core 0 some_param installed = Done (r, k1) ∧
    tp_enqueue frame_core 0 k1 = Done k2 ∧
    partitions (rq_tp k2) = [[0%nat]; []; []; []].
Proof.
  destruct (tp_admitted_params frame_core 0 some_param installed root_thread)
    as (r & k1 & Hset & _ & _ & _ & _ & _ & Henq & _).
  - intros t prio. reflexivity.
  - reflexivity.
  - by vm_compute.
  - reflexivity.
  - destruct Henq as (q0 & k2 & Hq0 & Hrun & Hparts & _); [reflexivity|].
    exists r, k1, k2. split; [exact Hset|]. split; [exact Hrun|].
    rewrite Hparts. injection Hq0 as <-. reflexivity.
Defined.

(** X11. Declaring a thread and forgetting it again. A thread declared on a run
    queue without attached threads makes an uninstall request fail with
    [-EBUSY]; once it has been forgotten no thread is attached any more and
    the same request is granted. The forgotten thread has no partition: an
    enqueue on its behalf would go through a null pointer. *)
Theorem tp_declare_then_forget (E : evl_core) (fuel : nat) (cpu : Z)
  (infp : option evl_tp_ctlinfo) (mem : option positive) (k : kernel)
  (thread : nat) (t : evl_thread) (prm : evl_sched_param) :
  tp_cpu_ok E cpu →
  tp_heap_ok k →
  threads (rq_tp k) = [] →
  kthreads k !! thread = Some t →
  ∃ k1 k2 k3 : kernel,
    tp_declare thread prm k = (0, k1) ∧
    tp_control E fuel cpu (request evl_tp_uninstall []) infp mem k1 =
      Done (- EBUSY, infp, tp_refused None k1) ∧
    rq_tp (tp_refused None k1) = rq_tp k1 ∧
    tp_forget thread k1 = Done k2 ∧
    threads (rq_tp k2) = [] ∧
    kthreads k2 !! thread = Some (set_th_tps None t) ∧
    tp_enqueue E thread k2 = Oops ∧
    tp_control E fuel cpu (request evl_tp_uninstall []) infp mem k2 =
      Done (0, infp, k3) ∧
    gps (rq_tp k3) = None.
Proof.
  intros Hcpu Hheap Hth Ht.
  set (k1 := upd_tp (fun tp => set_threads (threads tp ++ [thread]) tp) k).
  set (k2 := set_kthreads (<[thread := set_th_tps None t]> (kthreads k))
               (upd_tp (fun tp =>
                          set_threads (filter (fun x => x ≠ thread) (threads tp))
                                      tp) k1)).
  assert (threads (rq_tp k2) = []) as Hth2.
  { cbn. rewrite Hth. cbn. rewrite decide_False by (intros H; by apply H).
    reflexivity. }
  exists k1, k2, (tp_granted None k2).
  split; [reflexivity|]. split.
  { unfold request. rewrite (tp_control_uninstall E fuel cpu [] _ infp mem k1 Hcpu).
    rewrite tp_switch_schedule_refused; [done | done |].
    cbn. rewrite Hth. discriminate. }
  split; [reflexivity|]. split.
  { unfold tp_forget, upd_thread. cbn [kthreads upd_tp]. 
    change (kthreads k1) with (kthreads k). rewrite Ht. reflexivity. }
  split; [exact Hth2|]. split; [cbn; apply lookup_insert_eq|]. split.
  { unfold tp_enqueue, thread_queue. cbn [kthreads k2 set_kthreads].
    rewrite lookup_insert_eq. reflexivity. }
  split; [|reflexivity].
  unfold request. rewrite (tp_control_uninstall E fuel cpu [] _ infp mem k2 Hcpu).
  rewrite tp_switch_schedule_grants; [done | done | done |].
  intros q Hq. split; [done|]. destruct (Hheap q Hq) as (g & Hg & _).
  by exists g.
Qed.

Lemma tp_declare_then_forget_witness :
  ∃ k1 k2 k3 : kernel,
    tp_declare 0%nat some_param installed = (0, k1) ∧
    tp_control frame_core 0 0 (request evl_tp_uninstall []) None None k1 =
      Done (- EBUSY, None, tp_refused None k1) ∧
    tp_forget 0%nat k1 = Done k2 ∧
    tp_control frame_core 0 0 (request evl_tp_uninstall []) None None k2 =
      Done (0, None, k3).
Proof.
  destruct (tp_declare_then_forget frame_core 0 0 None None installed 0%nat
              root_thread some_param)
    as (k1 & k2 & k3 & H1 & H2 & _ & H3 & _ & _ & _ & H4 & _).
  - by vm_compute.
  - intros q Hq. injection Hq as <-. eexists. split; [reflexivity|]. done.
  - reflexivity.
  - reflexivity.
  - by exists k1, k2, k3.
Defined.

(** ** Picking from the active partition *)

Lemma ref_queue_set (r : tp_rq_ref) (q q' : list nat) (t : evl_sched_tp) :
  ref_queue r t = Some q →
  ref_queue r (set_ref_queue r q' t) = Some q'.
Proof.
  destruct r as [|n]; [done|]. cbn [ref_queue set_ref_queue set_partitions partitions].
  unfold at_index. destruct (n <? 0); [done|]. intros H.
  apply list_lookup_insert_eq. by eapply lookup_lt_Some.
Qed.

(** X12. With the frame timer running, the threads waiting on the run queue of
    the active partition are picked one by one in the order of the queue,
    each of them once; when the queue is exhausted nothing is picked. The
    picks touch neither the timer nor the active partition. *)
Theorem tp_pick_drains_in_order (k : kernel) (r : tp_rq_ref) (q : list nat)
  (n : nat) :
  timer_running (tf_timer (rq_tp k)) = true →
  tps (rq_tp k) = Some r →
  ref_queue r (rq_tp k) = Some q →
  ∃ k' : kernel,
    tp_picks n k =
      Done (map Some (take n q) ++ replicate (n - length q) None, k') ∧
    ref_queue r (rq_tp k') = Some (drop n q) ∧
    timer_running (tf_timer (rq_tp k')) = true ∧
    tps (rq_tp k') = Some r.
Proof.
  revert k q. induction n as [|n IH]; intros k q Hon Hr Hq.
  - exists k. rewrite drop_0. done.
  - cbn [tp_picks]. unfold tp_pick at 1, evl_timer_is_running.
    rewrite Hon, Hr. cbn [negb deref]. rewrite bind_Done, Hq. cbn [deref].
    rewrite bind_Done.
    set (k1 := upd_tp (set_ref_queue r (tail q)) k).
    assert (timer_running (tf_timer (rq_tp k1)) = true) as Hon1
      by (subst k1; by destruct r).
    assert (tps (rq_tp k1) = Some r) as Hr1 by (subst k1; by destruct r).
    assert (ref_queue r (rq_tp k1) = Some (tail q)) as Hq1
      by (subst k1; by apply (ref_queue_set r q)).
    destruct (IH k1 (tail q) Hon1 Hr1 Hq1) as (k' & Hrun & Hq' & Hon' & Hr').
    exists k'. destruct q as [|x q]; cbn [evl_get_schedq tail] in *;
      rewrite bind_Done; fold k1; rewrite Hrun, bind_Done.
    + rewrite take_nil, drop_nil in *. cbn [length map app] in *.
      rewrite Nat.sub_0_r in *. done.
    + done.
Qed.

Lemma tp_pick_drains_in_order_witness :
  ∃ k' : kernel,
    tp_picks 3
      (upd_tp (fun tp => set_partitions [[4%nat; 7%nat]; []; []; []]
                           (set_tps (Some (TpPart 0)) tp)) late_kernel) =
      Done ([Some 4%nat; Some 7%nat; None], k') ∧
    ref_queue (TpPart 0) (rq_tp k') = Some [].
Proof.
  destruct (tp_pick_drains_in_order
              (upd_tp (fun tp => set_partitions [[4%nat; 7%nat]; []; []; []]
                                   (set_tps (Some (TpPart 0)) tp)) late_kernel)
              (TpPart 0) [4%nat; 7%nat] 3)
    as (k' & Hrun & Hq & _).
  - reflexivity.
  - reflexivity.
  - reflexivity.
  - exists k'. split; [exact Hrun | exact Hq].
Defined.

(** ** An invariant of the run queue *)

Section Sound.

Context (E : evl_core).

Lemma tp_sound_transfer (k k' : kernel) :
  tp_sound E k →
  length (partitions (rq_tp k')) = length (partitions (rq_tp k)) →
  gps (rq_tp k') = gps (rq_tp k) →
  (∀ q, gps (rq_tp k) = Some q → kheap k' !! q = kheap k !! q) →
  (timer_running (tf_timer (rq_tp k')) = true →
   timer_running (tf_timer (rq_tp k)) = true ∧
   wnext (rq_tp k') = wnext (rq_tp k) ∧ tps (rq_tp k') = tps (rq_tp k)) →
  tp_sound E k'.
Proof.
  intros [Hlen Htab Hrun] Hl Hg Hh Ht. split.
  - by rewrite Hl.
  - intros p Hp. rewrite Hg in Hp. rewrite (Hh p Hp). by apply Htab.
  - intros Hon. destruct (Ht Hon) as (Hon0 & Hw & Hr).
    destruct (Hrun Hon0) as (p & g & r & Hp & Hgp & Hwn & Htps & Hok).
    exists p, g, r. rewrite Hg, (Hh p Hp), Hw, Hr. done.
Qed.

Lemma tp_init_sound (k0 : kernel) : tp_sound E (tp_init E k0).
Proof.
  split.
  - cbn. apply length_replicate.
  - intros p Hp. discriminate.
  - intros Hon. discriminate.
Qed.

Lemma tp_part_ref_ok (g : evl_tp_schedule) (i : Z) :
  tp_table_sound E g → 0 ≤ i < pwin_nr g →
  tp_ref_ok E (part_ref (win_part g i)).
Proof.
  intros [Hok Hparts] Hi. pose proof (win_lookup g i Hok Hi) as Hw.
  rewrite at_index_lookup in Hw by lia.
  apply list_elem_of_lookup_2 in Hw. apply Hparts in Hw. cbn in Hw.
  unfold part_ref. destruct (win_part g i <? 0) eqn:Hc; [done|].
  apply Z.ltb_ge in Hc. cbn. lia.
Qed.

Lemma tp_schedule_next_sound (fuel : nat) (k k' : kernel) (g : evl_tp_schedule) :
  length (partitions (rq_tp k)) = Z.to_nat (CONFIG_EVL_SCHED_TP_NR_PART E) →
  tp_installed k g → tp_table_sound E g → 0 < refcount g →
  tp_schedule_next E fuel k = Done k' →
  tp_sound E k'.
Proof.
  intros Hlen Hin Hs Hrc H.
  destruct (tp_schedule_next_inv E fuel k k' g Hin H)
    as (n & _ & _ & _ & Hidx & Htps & Htm & _ & Hframe).
  pose proof (inst_wnext k g Hin) as Hw.
  destruct Hin as [(p & Hp & Hg) Hok _]. pose proof (ok_nr g Hok) as Hn.
  split.
  - by rewrite (nf_partitions _ _ Hframe).
  - intros q Hq. rewrite (nf_gps _ _ Hframe), Hp in Hq. injection Hq as <-.
    exists g. by rewrite (nf_kheap _ _ Hframe).
  - intros _. exists p, g, (part_ref (win_part g (wnext (rq_tp k)))).
    rewrite (nf_gps _ _ Hframe), (nf_kheap _ _ Hframe).
    split_and!; try done.
    + rewrite Hidx. destruct n; [|lia]. apply Z.mod_pos_bound. lia.
    + rewrite Hidx. destruct n; [|lia]. apply Z.mod_pos_bound. lia.
    + by apply tp_part_ref_ok.
Qed.

Lemma tp_tick_handler_sound (fuel : nat) (k k' : kernel) :
  tp_sound E k →
  timer_running (tf_timer (rq_tp k)) = true →
  tp_tick_handler E fuel k = Done k' →
  tp_sound E k'.
Proof.
  intros Hs Hon H.
  destruct (snd_running E k Hs Hon) as (p & g & r & Hp & Hg & Hw & _).
  destruct (snd_table E k Hs p Hp) as (g' & Hg' & Hsound & Hrc).
  rewrite Hg in Hg'. injection Hg' as <-.
  assert (tp_installed k g) as Hin.
  { split; [by exists p | apply Hsound | done]. }
  assert (∃ c, kthreads k !! rq_curr k = Some c) as [c Hc].
  { unfold tp_tick_handler in H. apply bind_inv_Done in H as (c & Hc & _).
    change (kthreads (raw_spin_lock k)) with (kthreads k) in Hc.
    destruct (kthreads k !! rq_curr k) as [c'|]; [|discriminate].
    injection Hc as ->. by exists c. }
  rewrite (tp_tick_handler_unfold E fuel k g c Hin Hc) in H.
  apply bind_inv_Done in H as (k3 & Hnext & H). injection H as <-.
  assert (tp_sound E k3) as Hs3.
  { apply (tp_schedule_next_sound fuel (tp_tick_entered g k) k3 g); try done.
    - rewrite <- (snd_partitions E k Hs). unfold tp_tick_entered. cbn.
      by destruct (wnext (rq_tp k) + 1 =? pwin_nr g).
    - by apply tp_tick_entered_installed. }
  apply (tp_sound_transfer k3); [done | ..]; unfold tp_tick_leave;
    by destruct (0 <=? overrun_frame_of E c (rq_tp k) g).
Qed.

Lemma put_tp_schedule_inv (p : positive) (k k' : kernel) :
  put_tp_schedule p k = Done k' →
  rq_tp k' = rq_tp k ∧ ∀ q, q ≠ p → kheap k' !! q = kheap k !! q.
Proof.
  unfold put_tp_schedule. intros H.
  apply bind_inv_Done in H as (g & _ & H). cbn [refcount set_refcount] in H.
  destruct (refcount g - 1 =? 0); injection H as <-;
    (split; [reflexivity|]); intros q Hq; cbn.
  - by rewrite lookup_delete_ne, lookup_insert_ne.
  - by rewrite lookup_insert_ne.
Qed.

Lemma tp_switch_schedule_sound (new : option positive) (k : kernel) (ret : Z)
  (k' : kernel) :
  tp_sound E k →
  match new with
  | None => True
  | Some p =>
      gps (rq_tp k) ≠ Some p ∧
      ∃ g, kheap k !! p = Some g ∧ tp_table_sound E g ∧ 0 < refcount g
  end →
  tp_switch_schedule new k = Done (ret, k') →
  tp_sound E k'.
Proof.
  intros Hs Hnew H.
  assert (tp_new_ok new k) as Hok.
  { destruct new as [p|]; [|done].
    destruct Hnew as (_ & g & Hg & [Hgok _] & _). by exists g. }
  unfold tp_switch_schedule in H.
  rewrite (set_tp_schedule_checked new k Hok), bind_Done in H.
  destruct (bool_decide (threads (rq_tp k) = [])).
  - assert (partitions (rq_tp (tp_swapped new k)) = partitions (rq_tp k)
            ∧ gps (rq_tp (tp_swapped new k)) = new
            ∧ kheap (tp_swapped new k) = kheap k
            ∧ timer_running (tf_timer (rq_tp (tp_swapped new k))) = false)
      as (Hparts & Hgps & Hheap & Hoff).
    { unfold tp_swapped, stop_tp_schedule.
      change (gps (rq_tp (raw_spin_lock k))) with (gps (rq_tp k)).
      destruct (gps (rq_tp k)) as [q|] eqn:Hq; cbn; split_and!; try done.
      destruct (timer_running (tf_timer (rq_tp k))) eqn:Hon; [|done].
      destruct (snd_running E k Hs Hon) as (p & _ & _ & Hp & _). congruence. }
    assert (tp_sound E (tp_swapped new k)) as Hsw.
    { split.
      - rewrite Hparts. apply (snd_partitions E k Hs).
      - intros p Hp. rewrite Hgps in Hp. subst new. rewrite Hheap.
        by destruct Hnew as [_ Hg].
      - rewrite Hoff. discriminate. }
    destruct (gps (rq_tp k)) as [q|] eqn:Hq.
    + apply bind_inv_Done in H as (k2 & Hput & H). injection H as _ <-.
      apply put_tp_schedule_inv in Hput as [Hrq Hh].
      apply (tp_sound_transfer (tp_swapped new k)); [done | ..];
        change (rq_tp (evl_schedule k2)) with (rq_tp k2);
        change (kheap (evl_schedule k2)) with (kheap k2);
        rewrite ?Hrq; try done.
      intros p Hp. apply Hh. rewrite Hgps in Hp. subst new.
      destruct Hnew as [Hne _]. congruence.
    + injection H as _ <-. by apply (tp_sound_transfer (tp_swapped new k)).
  - injection H as _ <-. destruct new as [p|].
    + apply (tp_sound_transfer k); try done.
      intros q Hq. cbn. rewrite lookup_delete_ne; [done|].
      intros ->. by destruct Hnew as [Hne _].
    + by apply (tp_sound_transfer k).
Qed.

(** What the validation loop lets through. *)
Lemma tp_scan_windows_sound (n : nat) :
  ∀ (ps : list __evl_tp_window) (acc : Z) (ws : list evl_tp_window) (d : Z),
    tp_scan_windows E n ps acc = Done (Some (ws, d)) →
    length ws = n ∧
    (∀ w, w ∈ ws → -1 ≤ w_part w < CONFIG_EVL_SCHED_TP_NR_PART E) ∧
    acc ≤ d ∧
    ((0 < n)%nat → acc < d ∧ ∃ w, ws !! 0%nat = Some w ∧ w_offset w = acc).
Proof.
  induction n as [|n IH]; intros ps acc ws d H.
  - injection H as <- <-. split; [done|].
    split; [intros w Hw; by apply elem_of_nil in Hw|]. split; [lia|]. lia.
  - cbn [tp_scan_windows] in H. apply bind_inv_Done in H as (p & _ & H).
    destruct (negb (u_timespec_to_ktime (offset p) =? acc)); [discriminate|].
    destruct (u_timespec_to_ktime (duration p) <=? 0) eqn:Hd; [discriminate|].
    apply Z.leb_gt in Hd.
    destruct ((ptid p <? -1) || (CONFIG_EVL_SCHED_TP_NR_PART E <=? ptid p))
      eqn:Hp; [discriminate|].
    apply orb_false_iff in Hp as [Hp1 Hp2].
    apply Z.ltb_ge in Hp1. apply Z.leb_gt in Hp2.
    apply bind_inv_Done in H as (r & Hr & H).
    destruct r as [[ws' d']|]; [|discriminate]. injection H as <- <-.
    destruct (IH _ _ _ _ Hr) as (Hlen & Hparts & Hle & _).
    split; [cbn; by rewrite Hlen|]. split.
    { intros w Hw. apply elem_of_cons in Hw as [->|Hw]; [cbn; lia|].
      by apply Hparts. }
    split; [lia|]. intros _. split; [lia|]. eexists. split; reflexivity.
Qed.

Lemma tp_cpu_ok_of_check (cpu : Z) :
  (cpu <? 0) || negb (cpu_present E cpu) || negb (is_threading_cpu E cpu) = false →
  tp_cpu_ok E cpu.
Proof.
  intros H. apply orb_false_iff in H as [H H3].
  apply orb_false_iff in H as [H1 H2]. apply Z.ltb_ge in H1.
  apply negb_false_iff in H2, H3. done.
Qed.

Lemma tp_control_sound (fuel : nat) (cpu : Z) (pt : evl_tp_ctlparam)
  (infp : option evl_tp_ctlinfo) (mem : option positive) (k : kernel)
  (ret : Z) (infp' : option evl_tp_ctlinfo) (k' : kernel) :
  tp_sound E k →
  (∀ p, mem = Some p → kheap k !! p = None) →
  tp_control E fuel cpu pt infp mem k = Done (ret, infp', k') →
  tp_sound E k'.
Proof.
  intros Hs Hmem H.
  destruct ((cpu <? 0) || negb (cpu_present E cpu)
            || negb (is_threading_cpu E cpu)) eqn:Hcpu.
  { unfold tp_control in H. rewrite Hcpu in H. by injection H as _ _ <-. }
  pose proof (tp_cpu_ok_of_check cpu Hcpu) as Hok.
  assert (∀ r, ('(ret, k1) ← tp_switch_schedule None k; Done (ret, infp, k1))
               = Done r → tp_sound E r.2) as Hun.
  { intros [[r1 r2] r3] Hr. apply bind_inv_Done in Hr as ([e k1] & Hsw & Hr).
    injection Hr as _ _ <-. by apply (tp_switch_schedule_sound None k e k1). }
  destruct pt as [o nr wsx]. destruct o.
  - (* install *)
    unfold tp_control in H. rewrite Hcpu in H. cbn [op nr_windows windows] in H.
    destruct (0 <? nr) eqn:Hnr; [|by apply Hun in H]. apply Z.ltb_lt in Hnr.
    destruct mem as [p|]; [|by injection H as _ _ <-].
    specialize (Hmem p eq_refl).
    assert (∀ q, gps (rq_tp k) = Some q → q ≠ p) as Hfresh.
    { intros q Hq ->. destruct (snd_table E k Hs p Hq) as (g & Hg & _).
      congruence. }
    apply bind_inv_Done in H as (r & Hscan & H).
    destruct r as [[ws d]|].
    + apply bind_inv_Done in H as ([e k2] & Hsw & H). injection H as _ _ <-.
      apply tp_scan_windows_sound in Hscan as (Hlen & Hparts & _ & Hpos).
      destruct (Hpos ltac:(lia)) as (Hd & w & Hw & Hw0).
      apply (tp_switch_schedule_sound _ _ _ _) in Hsw; [done | |].
      * apply (tp_sound_transfer k); try done.
        intros q Hq. cbn. by rewrite !lookup_insert_ne by (by apply not_eq_sym, Hfresh).
      * split; [cbn; intros Hq; by apply (Hfresh p)|].
        eexists. split; [cbn; apply lookup_insert_eq|]. split; [|done].
        split; [split; cbn|done].
        -- rewrite Hlen. lia.
        -- done.
        -- by exists w.
        -- lia.
    + injection H as _ _ <-. apply (tp_sound_transfer k); try done.
      intros q Hq. cbn.
      by rewrite lookup_delete_ne, lookup_insert_ne
        by (by apply not_eq_sym, Hfresh).
  - (* uninstall *)
    unfold tp_control in H. rewrite Hcpu in H. by apply Hun in H.
  - (* start *)
    unfold tp_control in H. rewrite Hcpu in H. cbn [op] in H.
    apply bind_inv_Done in H as (k1 & Hstart & H). injection H as _ _ <-.
    assert (tp_sound E k1) as Hs1.
    { destruct (gps (rq_tp k)) as [p|] eqn:Hp.
      - rewrite (start_tp_schedule_unfold E fuel (raw_spin_lock k) p Hp) in Hstart.
        destruct (snd_table E k Hs p Hp) as (g & Hg & Hsound & Hrc).
        apply (tp_schedule_next_sound fuel _ k1 g) in Hstart; try done.
        + cbn. apply (snd_partitions E k Hs).
        + split; [by exists p | apply Hsound |].
          cbn. pose proof (ok_nr g (sound_ok E g Hsound)). lia.
      - unfold start_tp_schedule in Hstart.
        change (gps (rq_tp (raw_spin_lock k))) with (gps (rq_tp k)) in Hstart.
        rewrite Hp in Hstart. injection Hstart as <-.
        by apply (tp_sound_transfer k). }
    by apply (tp_sound_transfer k1).
  - (* stop *)
    unfold tp_control in H. rewrite Hcpu in H. cbn [op] in H.
    injection H as _ _ <-. unfold stop_tp_schedule.
    change (gps (rq_tp (raw_spin_lock k))) with (gps (rq_tp k)).
    destruct (gps (rq_tp k)) as [p|] eqn:Hp.
    + by apply (tp_sound_transfer k).
    + by apply (tp_sound_transfer k).
  - (* get *)
    destruct (gps (rq_tp k)) as [p|] eqn:Hp.
    + destruct (snd_table E k Hs p Hp) as (g & Hg & Hsound & Hrc).
      destruct infp as [it|].
      * rewrite (tp_control_get E fuel cpu nr wsx it mem k p g Hok Hp Hg Hrc) in H.
        apply bind_inv_Done in H as (ws' & _ & H). injection H as _ _ <-.
        by apply (tp_sound_transfer k).
      * rewrite (tp_control_get_null E fuel cpu nr wsx mem k p g Hok Hp Hg Hrc) in H.
        injection H as _ _ <-. by apply (tp_sound_transfer k).
    + unfold tp_control in H. rewrite Hcpu in H. cbn [op] in H.
      unfold get_tp_schedule in H.
      change (gps (rq_tp (raw_spin_lock k))) with (gps (rq_tp k)) in H.
      rewrite Hp in H. injection H as _ _ <-.
      by apply (tp_sound_transfer k).
  - (* anything else *)
    unfold tp_control in H. rewrite Hcpu in H. by injection H as _ _ <-.
Qed.

Lemma tp_queue_op_sound (thread : nat) (f : list nat → list nat) (k k' : kernel) :
  tp_sound E k →
  ('(r, q) ← thread_queue thread k; Done (upd_tp (set_ref_queue r (f q)) k))
    = Done k' →
  tp_sound E k'.
Proof.
  intros Hs H. apply bind_inv_Done in H as ([r q] & Hq & H).
  apply thread_queue_part in Hq as [n ->]. injection H as <-.
  apply (tp_sound_transfer k); try done. cbn. apply length_insert.
Qed.

(** Every call into the class keeps the invariant. *)
Lemma tp_call_run_sound (fuel : nat) (c : tp_call) (k k' : kernel) :
  tp_sound E k →
  tp_call_ok c k →
  tp_call_run E fuel c k = Done k' →
  tp_sound E k'.
Proof.
  intros Hs Hc H. destruct c; cbn [tp_call_run tp_call_ok] in H, Hc.
  - exact (tp_queue_op_sound thread
             (fun q => evl_add_schedq_tail E (kthreads k) q thread) k k' Hs H).
  - exact (tp_queue_op_sound thread (fun q => evl_del_schedq E q thread) k k' Hs H).
  - exact (tp_queue_op_sound thread
             (fun q => evl_add_schedq E (kthreads k) q thread) k k' Hs H).
  - apply bind_inv_Done in H as ([t k1] & Hp & H). injection H as <-.
    unfold tp_pick in Hp.
    destruct (negb (evl_timer_is_running (tf_timer (rq_tp k))));
      [by injection Hp as _ <-|].
    apply bind_inv_Done in Hp as (r & _ & Hp).
    apply bind_inv_Done in Hp as (q & Hq & Hp).
    destruct (evl_get_schedq q) as [t' q']. injection Hp as _ <-.
    apply (tp_sound_transfer k); try done; destruct r as [|n]; try done.
    cbn. apply length_insert.
  - by apply (tp_tick_handler_sound fuel k).
  - apply bind_inv_Done in H as ([b k1] & Hsp & H). injection H as <-.
    unfold tp_setparam in Hsp. apply bind_inv_Done in Hsp as (t & _ & Hsp).
    destruct (evl_set_effective_thread_priority E _ _) as [r t3].
    injection Hsp as _ <-. by apply (tp_sound_transfer k).
  - unfold tp_trackprio in H. apply bind_inv_Done in H as (t & _ & H).
    destruct p as [prm|]; [|injection H as <-; by apply (tp_sound_transfer k)].
    destruct (base_class_tp t && _); injection H as <-;
      by apply (tp_sound_transfer k).
  - unfold tp_ceilprio, upd_thread in H.
    apply bind_inv_Done in H as (t & _ & H). injection H as <-.
    by apply (tp_sound_transfer k).
  - injection H as <-. by apply (tp_sound_transfer k).
  - unfold tp_forget, upd_thread in H.
    apply bind_inv_Done in H as (t & _ & H). injection H as <-.
    by apply (tp_sound_transfer k).
  - apply bind_inv_Done in H as ([[r i] k1] & Hctl & H). injection H as <-.
    apply (tp_control_sound fuel cpu pt infp mem k r i k1 Hs); [|done].
    intros p ->. exact Hc.
Qed.

Lemma tp_resync_no_fault (fuel : nat) :
  ∀ (g : evl_tp_schedule) (t : Z) (k : kernel), tp_resync E fuel g t k ≠ Oops.
Proof.
  induction fuel as [|fuel IH]; intros g t k; [discriminate|].
  cbn [tp_resync evl_read_clock].
  destruct (evl_mono_clock E (kreads k) <=? t); [discriminate | apply IH].
Qed.

Lemma tp_schedule_next_no_fault (fuel : nat) (k : kernel) (g : evl_tp_schedule) :
  tp_installed k g → tp_schedule_next E fuel k ≠ Oops.
Proof.
  intros Hin. rewrite (tp_schedule_next_unfold E fuel k g Hin).
  pose proof (tp_resync_no_fault fuel g (tp_first_date g k) (tp_advanced g k)).
  by destruct (tp_resync E fuel g (tp_first_date g k) (tp_advanced g k))
    as [[t' k3]| |].
Qed.

Lemma tp_sound_installed (k : kernel) :
  tp_sound E k →
  timer_running (tf_timer (rq_tp k)) = true →
  ∃ g, tp_installed k g.
Proof.
  intros Hs Hon.
  destruct (snd_running E k Hs Hon) as (p & g & r & Hp & Hg & Hw & _).
  destruct (snd_table E k Hs p Hp) as (g' & Hg' & Hsound & Hrc).
  rewrite Hg in Hg'. injection Hg' as <-. exists g.
  split; [by exists p | apply Hsound | done].
Qed.

End Sound.



(** X14. No fault on a reachable run queue. On every such run queue the pick
    operation returns (it goes through no null pointer and stays inside the
    array of partitions), and the tick handler, run for a running timer
    with a current thread, cannot fault: the only way for it not to return
    is the catch-up loop. *)
Theorem tp_reachable_no_fault (E : evl_core) (k : kernel) :
  tp_reachable E k →
  (∃ r, tp_pick k = Done r) ∧
  (∀ fuel : nat,
     timer_running (tf_timer (rq_tp k)) = true →
     is_Some (kthreads k !! rq_curr k) →
     tp_tick_handler E fuel k ≠ Oops).
Proof.
  intros Hreach.
  assert (tp_sound E k) as Hs.
  { induction Hreach as [k0 | fuel c k k' _ IH Hc Hrun].
    - apply tp_init_sound.
    - by apply (tp_call_run_sound E fuel c k k'). }
  split.
  - unfold tp_pick, evl_timer_is_running.
    destruct (timer_running (tf_timer (rq_tp k))) eqn:Hon; [|by eexists].
    destruct (snd_running E k Hs Hon) as (p & g & r & _ & _ & _ & Hr & Hok).
    rewrite Hr. cbn [negb deref]. rewrite bind_Done.
    assert (∃ q, ref_queue r (rq_tp k) = Some q) as [q Hq].
    { destruct r as [|n]; [by eexists|]. cbn in Hok. cbn [ref_queue].
      apply at_index_is_Some. rewrite (snd_partitions E k Hs). lia. }
    rewrite Hq. cbn [deref]. rewrite bind_Done.
    destruct (evl_get_schedq q). by eexists.
  - intros fuel Hon [c Hc].
    destruct (tp_sound_installed E k Hs Hon) as [g Hin].
    rewrite (tp_tick_handler_unfold E fuel k g c Hin Hc).
    pose proof (tp_schedule_next_no_fault E fuel _ g
                  (tp_tick_entered_installed k g Hin)).
    by destruct (tp_schedule_next E fuel (tp_tick_entered g k)).
Qed.

Lemma tp_reachable_no_fault_witness :
  ∃ r, tp_pick installed = Done r.
Proof.
  destruct (tp_reachable_no_fault frame_core installed) as [Hpick _].
  - apply (tp_reach_call frame_core 1
             (CallControl 0 (request evl_tp_install three_windows) None
                (Some 1%positive))
             (booted frame_core) installed).
    + apply tp_reach_init.
    + reflexivity.
    + by vm_compute.
  - exact Hpick.
Defined.

(** ** What a control request can return *)

Lemma tp_switch_schedule_results (new : option positive) (k : kernel) (ret : Z)
  (k' : kernel) :
  tp_switch_schedule new k = Done (ret, k') →
  ret = 0 ∨
  (ret = - EBUSY ∧ threads (rq_tp k) ≠ [] ∧ rq_tp k' = rq_tp k).
Proof.
  unfold tp_switch_schedule, set_tp_schedule. intros H.
  apply bind_inv_Done in H as ([ogps k1] & Hs & H).
  apply bind_inv_Done in Hs as (bad & _ & Hs).
  destruct bad.
  { injection Hs as <- <-. left.
    destruct (gps (rq_tp k)) as [q|].
    - apply bind_inv_Done in H as (k2 & _ & H). by injection H as <- _.
    - by injection H as <- _. }
  destruct (negb (bool_decide (threads (rq_tp (raw_spin_lock k)) = []))) eqn:Hth.
  - injection Hs as <- <-. injection H as <- <-. right.
    split; [done|]. split; [|by destruct new].
    apply negb_true_iff, bool_decide_eq_false in Hth. exact Hth.
  - injection Hs as <- <-. left.
    destruct (gps (rq_tp (stop_tp_schedule (raw_spin_lock k)))) as [q|].
    + apply bind_inv_Done in H as (k2 & _ & H). by injection H as <- _.
    + by injection H as <- _.
Qed.

(** X15. The results of a control request. On a CPU that is negative, absent or
    not a threading CPU every request returns [-EINVAL] at once, with
    nothing touched. Otherwise: an install or uninstall request returns 0,
    [-EBUSY] (only with a thread attached), [-EINVAL] (only an install
    request) or [-ENOMEM] (only when no block could be allocated), and in
    the three failure cases the run queue is as before; start and stop
    requests return 0; a get request leaves the run queue as it was and
    returns 0 when no table is installed, [-EINVAL] when there is no reply
    buffer, and otherwise the length of a reply with as many windows as
    asked for or, if fewer, as installed, after storing the number of
    installed windows in the reply; any other request code returns
    [-EINVAL] with nothing touched. Only a get request writes to the
    reply. *)
Theorem tp_control_results (E : evl_core) (fuel : nat) (cpu : Z)
  (pt : evl_tp_ctlparam) (infp : option evl_tp_ctlinfo) (mem : option positive)
  (k : kernel) :
  (¬ tp_cpu_ok E cpu →
   tp_control E fuel cpu pt infp mem k = Done (- EINVAL, infp, k)) ∧
  (tp_cpu_ok E cpu →
   ∀ (ret : Z) (infp' : option evl_tp_ctlinfo) (k' : kernel),
     tp_control E fuel cpu pt infp mem k = Done (ret, infp', k') →
     match op pt with
     | evl_tp_install | evl_tp_uninstall =>
         infp' = infp ∧
         (ret = 0 ∨
          (ret = - EBUSY ∧ threads (rq_tp k) ≠ [] ∧ rq_tp k' = rq_tp k) ∨
          (ret = - EINVAL ∧ op pt = evl_tp_install ∧ 0 < nr_windows pt ∧
           rq_tp k' = rq_tp k) ∨
          (ret = - ENOMEM ∧ op pt = evl_tp_install ∧ 0 < nr_windows pt ∧
           mem = None ∧ k' = k))
     | evl_tp_start | evl_tp_stop => ret = 0 ∧ infp' = infp
     | evl_tp_get =>
         rq_tp k' = rq_tp k ∧
         ((ret = 0 ∧ gps (rq_tp k) = None ∧ infp' = infp) ∨
          (ret = - EINVAL ∧ infp = None ∧ infp' = None) ∨
          (∃ (it it' : evl_tp_ctlinfo) (p : positive) (g : evl_tp_schedule),
             infp = Some it ∧ infp' = Some it' ∧
             gps (rq_tp k) = Some p ∧ kheap k !! p = Some g ∧
             ret = evl_tp_infolen E (Z.min (nr_windows pt) (pwin_nr g)) ∧
             it_nr_windows it' = pwin_nr g))
     | evl_tp_unknown => ret = - EINVAL ∧ infp' = infp ∧ k' = k
     end).
Proof.
  split.
  - intros Hbad. unfold tp_control.
    destruct ((cpu <? 0) || negb (cpu_present E cpu)
              || negb (is_threading_cpu E cpu)) eqn:Hcpu; [done|].
    exfalso. apply Hbad. by apply tp_cpu_ok_of_check.
  - intros Hcpu ret infp' k' H. unfold tp_control in H.
    rewrite (tp_cpu_ok_check E cpu Hcpu) in H.
    assert (∀ r1 r2 r3,
              ('(ret, k1) ← tp_switch_schedule None k; Done (ret, infp, k1))
                = Done (r1, r2, r3) →
              r2 = infp ∧
              (r1 = 0 ∨
               (r1 = - EBUSY ∧ threads (rq_tp k) ≠ [] ∧ rq_tp r3 = rq_tp k)))
      as Hun.
    { intros r1 r2 r3 Hr. apply bind_inv_Done in Hr as ([e k1] & Hsw & Hr).
      injection Hr as <- <- <-. split; [done|].
      by apply tp_switch_schedule_results in Hsw. }
    destruct pt as [o nr wsx]. destruct o; cbn [op nr_windows windows] in *.
    + destruct (0 <? nr) eqn:Hnr.
      2:{ apply Hun in H as [-> [->|Hb]]; (split; [done|]); tauto. }
      apply Z.ltb_lt in Hnr.
      destruct mem as [p|].
      2:{ injection H as <- <- <-. split; [done|]. do 3 right. done. }
      apply bind_inv_Done in H as (r & _ & H). destruct r as [[ws d]|].
      * apply bind_inv_Done in H as ([e k2] & Hsw & H).
        injection H as <- <- <-. split; [done|].
        apply tp_switch_schedule_results in Hsw as [->|(-> & Hth & Hrq)];
          [by left|]. right. left. done.
      * injection H as <- <- <-. split; [done|]. right. right. left. done.
    + apply Hun in H as [-> [->|Hb]]; (split; [done|]); tauto.
    + apply bind_inv_Done in H as (k1 & _ & H). by injection H as <- <- _.
    + by injection H as <- <- _.
    + apply bind_inv_Done in H as ([gp k1] & Hg & H).
      unfold get_tp_schedule in Hg.
      change (gps (rq_tp (raw_spin_lock k))) with (gps (rq_tp k)) in Hg.
      change (kheap (raw_spin_lock k)) with (kheap k) in Hg.
      destruct (gps (rq_tp k)) as [p|] eqn:Hp.
      2:{ injection Hg as <- <-. injection H as <- <- <-.
          split; [done|]. by left. }
      apply bind_inv_Done in Hg as (g & Hg0 & Hg). injection Hg as <- <-.
      assert (kheap k !! p = Some g) as Hgp
        by (by destruct (kheap k !! p) as [g'|]; [injection Hg0 as ->|]).
      destruct infp as [it|].
      * apply bind_inv_Done in H as (g1 & Hg1 & H).
        cbn [kheap raw_spin_unlock emit set_kheap] in Hg1.
        rewrite lookup_insert_eq in Hg1. injection Hg1 as <-.
        apply bind_inv_Done in H as (ws' & _ & H).
        apply bind_inv_Done in H as (k3 & Hput & H). injection H as <- <- <-.
        apply put_tp_schedule_inv in Hput as [Hrq _].
        split; [by rewrite Hrq|]. right. right.
        eexists it, _, p, g. split_and!; done.
      * apply bind_inv_Done in H as (k3 & Hput & H). injection H as <- <- <-.
        apply put_tp_schedule_inv in Hput as [Hrq _].
        split; [by rewrite Hrq|]. right. by left.
    + by injection H as <- <- <-.
Qed.

Lemma tp_control_results_witness :
  tp_control frame_core 0 7 (request evl_tp_stop []) None None
             (booted frame_core) = Done (- EINVAL, None, booted frame_core).
Proof.
  destruct (tp_control_results frame_core 0 7 (request evl_tp_stop []) None None
              (booted frame_core)) as [Hbad _].
  apply Hbad. intros (_ & Hp & _). vm_compute in Hp. discriminate.
Defined.

(** ** Run queue operations *)

(** X16. The three run queue operations act on the run queue of the partition
    assigned to the thread and on nothing else: the other partitions, the
    idle queue, the timer, the table and the threads are as before. For a
    thread without a partition (never set, or forgotten) they go through a
    null pointer, and for a partition id outside the array of partitions
    they reach outside it. *)
Theorem tp_queue_ops_own_partition (E : evl_core) (thread : nat) (k : kernel)
  (t : evl_thread) :
  kthreads k !! thread = Some t →
  (∀ (n : Z) (q : list nat),
     th_tps t = Some n →
     at_index (partitions (rq_tp k)) n = Some q →
     let put (q' : list nat) :=
       upd_tp (set_partitions (<[Z.to_nat n := q']> (partitions (rq_tp k)))) k in
     tp_enqueue E thread k =
       Done (put (evl_add_schedq_tail E (kthreads k) q thread)) ∧
     tp_dequeue E thread k = Done (put (evl_del_schedq E q thread)) ∧
     tp_requeue E thread k =
       Done (put (evl_add_schedq E (kthreads k) q thread)) ∧
     ∀ q' : list nat,
       length (partitions (rq_tp (put q'))) = length (partitions (rq_tp k)) ∧
       partitions (rq_tp (put q')) !! Z.to_nat n = Some q' ∧
       (∀ j : nat, j ≠ Z.to_nat n →
          partitions (rq_tp (put q')) !! j = partitions (rq_tp k) !! j)) ∧
  (th_tps t = None ∨
   (∃ n : Z, th_tps t = Some n ∧
             (n < 0 ∨ Z.of_nat (length (partitions (rq_tp k))) ≤ n)) →
   tp_enqueue E thread k = Oops ∧
   tp_dequeue E thread k = Oops ∧
   tp_requeue E thread k = Oops).
Proof.
  intros Ht. split.
  - intros n q Hn Hq put.
    pose proof (thread_queue_at thread k t n q Ht Hn Hq) as Htq.
    unfold tp_enqueue, tp_dequeue, tp_requeue. rewrite Htq, !bind_Done.
    split; [reflexivity|]. split; [reflexivity|]. split; [reflexivity|].
    intros q'. subst put. cbn [upd_tp rq_tp set_partitions partitions].
    split; [apply length_insert|]. split.
    + apply list_lookup_insert_eq. unfold at_index in Hq.
      destruct (n <? 0); [done|]. by eapply lookup_lt_Some.
    + intros j Hj. by apply list_lookup_insert_ne.
  - intros Hbad.
    assert (thread_queue thread k = Oops) as Htq.
    { destruct Hbad as [Hnone | (n & Hn & Hout)].
      - unfold thread_queue. rewrite Ht. simpl deref. rewrite bind_Done, Hnone.
        reflexivity.
      - by apply (thread_queue_outside thread k t n). }
    unfold tp_enqueue, tp_dequeue, tp_requeue. by rewrite Htq.
Qed.

Lemma tp_queue_ops_own_partition_witness :
  tp_enqueue frame_core 0 overrun_kernel =
    Done (upd_tp (set_partitions [[0%nat]; []; []; []]) overrun_kernel).
Proof.
  destruct (tp_queue_ops_own_partition frame_core 0 overrun_kernel woso_thread)
    as [Hok _].
  - reflexivity.
  - destruct (Hok 0 [] eq_refl eq_refl) as (Henq & _). exact Henq.
Defined.

(** ** Priority changes *)

Section Priority.

Context (E : evl_core).

Lemma tp_ceilprio_thread (thread : nat) (prio : Z) (k : kernel) (t : evl_thread) :
  kthreads k !! thread = Some t →
  tp_ceilprio E thread prio k =
    Done (set_kthreads
            (<[thread := set_cprio (Z.min prio (EVL_TP_MAX_PRIO E)) t]>
               (kthreads k)) k).
Proof.
  intros Ht. unfold tp_ceilprio, upd_thread. rewrite Ht. simpl deref.
  rewrite bind_Done. do 4 f_equal.
  destruct (EVL_TP_MAX_PRIO E <? prio) eqn:Hc;
    [apply Z.ltb_lt in Hc | apply Z.ltb_ge in Hc]; lia.
Qed.

Lemma tp_priority_call_run (fuel : nat) (c : tp_call) (k : kernel) :
  tp_priority_call c → tp_call_known c k →
  ∃ k' : kernel,
    tp_call_run E fuel c k = Done k' ∧
    rq_tp k' = rq_tp k ∧ kheap k' = kheap k ∧ kreads k' = kreads k ∧
    ∀ t : nat,
      tp_placement <$> kthreads k' !! t = tp_placement <$> kthreads k !! t.
Proof.
  intros Hc Hk; destruct c; try done; destruct Hk as [th Hth];
    cbn [tp_call_run].
  - unfold tp_trackprio. rewrite Hth. simpl deref. rewrite bind_Done.
    destruct p as [prm|].
    + eexists. split; [reflexivity|].
      destruct (base_class_tp th && _); (split_and!; try done);
        intros t; cbn; (destruct (decide (t = thread)) as [->|Hne];
          [by rewrite lookup_insert_eq, Hth | by rewrite lookup_insert_ne]).
    + eexists. split; [reflexivity|]. split_and!; try done.
      intros t; cbn; (destruct (decide (t = thread)) as [->|Hne];
          [by rewrite lookup_insert_eq, Hth | by rewrite lookup_insert_ne]).
  - rewrite (tp_ceilprio_thread thread prio k th Hth).
    eexists. split; [reflexivity|]. split_and!; try done.
    intros t; cbn; (destruct (decide (t = thread)) as [->|Hne];
        [by rewrite lookup_insert_eq, Hth | by rewrite lookup_insert_ne]).
Qed.

End Priority.

(** X17. Capping a priority. The ceiling operation gives the thread the
    priority asked for, lowered to [EVL_TP_MAX_PRIO] if it is above; there
    is no lower bound, so a priority below [EVL_TP_MIN_PRIO] is taken as it
    is. And no sequence of priority tracking and ceiling calls on known
    threads fails, moves a thread to another partition, changes its state
    bits, base priority or base class, or touches the run queue: only
    current priorities change. *)
Theorem tp_priority_calls_keep_partitions (E : evl_core) (fuel : nat)
  (cs : list tp_call) :
  (∀ (thread : nat) (prio : Z) (k : kernel) (t : evl_thread),
     kthreads k !! thread = Some t →
     ∃ k' : kernel,
       tp_ceilprio E thread prio k = Done k' ∧
       cprio <$> kthreads k' !! thread = Some (Z.min prio (EVL_TP_MAX_PRIO E))) ∧
  ∀ k : kernel,
    Forall tp_priority_call cs →
    Forall (fun c => tp_call_known c k) cs →
    ∃ k' : kernel,
      tp_calls_run E fuel cs k = Done k' ∧
      rq_tp k' = rq_tp k ∧ kheap k' = kheap k ∧ kreads k' = kreads k ∧
      ∀ t : nat,
        tp_placement <$> kthreads k' !! t = tp_placement <$> kthreads k !! t.
Proof.
  split.
  { intros thread prio k t Ht. eexists.
    split; [by apply tp_ceilprio_thread|]. cbn. by rewrite lookup_insert_eq. }
  induction cs as [|c cs IH]; intros k Hprio Hknown.
  - by exists k.
  - apply Forall_cons in Hprio as [Hc Hprio].
    apply Forall_cons in Hknown as [Hk Hknown].
    destruct (tp_priority_call_run E fuel c k Hc Hk)
      as (k1 & Hrun & Hrq & Hh & Hr & Hth).
    destruct (IH k1 Hprio) as (k' & Hrun' & Hrq' & Hh' & Hr' & Hth').
    { eapply Forall_impl; [exact Hknown|]. intros c' Hc'.
      destruct c'; try done; cbn in *.
      - specialize (Hth thread). destruct Hc' as [x Hx]. rewrite Hx in Hth.
        destruct (kthreads k1 !! thread); [by eexists | done].
      - specialize (Hth thread). destruct Hc' as [x Hx]. rewrite Hx in Hth.
        destruct (kthreads k1 !! thread); [by eexists | done]. }
    exists k'. cbn [tp_calls_run]. rewrite Hrun, bind_Done.
    split; [exact Hrun'|]. split; [congruence|]. split; [congruence|].
    split; [congruence|]. intros t. by rewrite Hth', Hth.
Qed.

Lemma tp_priority_calls_keep_partitions_witness :
  ∃ k' : kernel,
    tp_calls_run frame_core 0
      [CallCeilprio 0 99; CallTrackprio 0 None; CallCeilprio 0 (-5)]
      overrun_kernel = Done k' ∧
    rq_tp k' = rq_tp overrun_kernel ∧
    tp_placement <$> kthreads k' !! 0%nat = Some (Some 0, 0x400000, 10, true).
Proof.
  destruct (tp_priority_calls_keep_partitions frame_core 0
              [CallCeilprio 0 99; CallTrackprio 0 None; CallCeilprio 0 (-5)])
    as [_ Hseq].
  destruct (Hseq overrun_kernel) as (k' & Hrun & Hrq & _ & _ & Hth).
  - repeat constructor.
  - repeat constructor; by eexists.
  - exists k'. split; [exact Hrun|]. split; [exact Hrq|]. by rewrite Hth.
Defined.

(** ** Warnings *)

Section Warnings.

Context (E : evl_core).

Lemma tp_resync_log (fuel : nat) :
  ∀ (g : evl_tp_schedule) (t : Z) (k : kernel) (t' : Z) (k' : kernel),
    tp_resync E fuel g t k = Done (t', k') → klog k' = klog k.
Proof.
  induction fuel as [|fuel IH]; intros g t k t' k' H; [discriminate|].
  cbn [tp_resync evl_read_clock] in H.
  destruct (evl_mono_clock E (kreads k) <=? t).
  - by injection H as <- <-.
  - by apply IH in H.
Qed.

Lemma tp_schedule_next_log (fuel : nat) (k k' : kernel) :
  tp_schedule_next E fuel k = Done k' →
  ∃ t : Z, klog k' = klog k ++ [EvStartTimer t; EvResched].
Proof.
  unfold tp_schedule_next. intros H.
  apply bind_inv_Done in H as (g & _ & H).
  apply bind_inv_Done in H as (w & _ & H).
  destruct (pwin_nr g =? 0); [discriminate|].
  apply bind_inv_Done in H as (w' & _ & H).
  apply bind_inv_Done in H as ([t' k3] & Hr & H).
  injection H as <-. apply tp_resync_log in Hr. exists t'.
  cbn. rewrite Hr. cbn. by rewrite <- app_assoc.
Qed.

Lemma put_tp_schedule_log (p : positive) (k k' : kernel) :
  put_tp_schedule p k = Done k' →
  ∃ l : list event, klog k' = klog k ++ l ∧ EvWarn ∉ l.
Proof.
  unfold put_tp_schedule. intros H.
  apply bind_inv_Done in H as (g & _ & H). cbn [refcount set_refcount] in H.
  destruct (refcount g - 1 =? 0); injection H as <-.
  - exists [EvRefDrop p; EvFree (Some p)]. split; [cbn; by rewrite <- app_assoc|].
    intros Hin. repeat (apply elem_of_cons in Hin as [Hin|Hin]; [discriminate|]).
    by apply elem_of_nil in Hin.
  - exists [EvRefDrop p]. split; [done|].
    intros Hin. repeat (apply elem_of_cons in Hin as [Hin|Hin]; [discriminate|]).
    by apply elem_of_nil in Hin.
Qed.

Lemma tp_switch_schedule_log (new : option positive) (k : kernel) (ret : Z)
  (k' : kernel) :
  tp_new_ok new k →
  tp_switch_schedule new k = Done (ret, k') →
  ∃ l : list event, klog k' = klog k ++ l ∧ EvWarn ∉ l.
Proof.
  intros Hok H. unfold tp_switch_schedule in H.
  rewrite (set_tp_schedule_checked new k Hok), bind_Done in H.
  destruct (bool_decide (threads (rq_tp k) = [])).
  - assert (∃ l, klog (tp_swapped new k) = klog k ++ l ∧ EvWarn ∉ l)
      as (l1 & Hl1 & Hq1).
    { unfold tp_swapped, stop_tp_schedule.
      change (gps (rq_tp (raw_spin_lock k))) with (gps (rq_tp k)).
      destruct (gps (rq_tp k)).
      - exists [EvLock; EvStopTimer; EvUnlock].
        split; [cbn; by rewrite <- !app_assoc|]. intros Hin.
        repeat (apply elem_of_cons in Hin as [Hin|Hin]; [discriminate|]).
        by apply elem_of_nil in Hin.
      - exists [EvLock; EvUnlock].
        split; [cbn; by rewrite <- !app_assoc|]. intros Hin.
        repeat (apply elem_of_cons in Hin as [Hin|Hin]; [discriminate|]).
        by apply elem_of_nil in Hin. }
    destruct (gps (rq_tp k)) as [q|].
    + apply bind_inv_Done in H as (k2 & Hput & H). injection H as _ <-.
      apply put_tp_schedule_log in Hput as (l2 & Hl2 & Hq2).
      exists (l1 ++ l2 ++ [EvSchedule]). split.
      { cbn [evl_schedule emit klog]. rewrite Hl2, Hl1.
        by rewrite <- !app_assoc. }
      rewrite !elem_of_app, list_elem_of_singleton. intros [?|[?|?]]; done.
    + injection H as _ <-. exists (l1 ++ [EvSchedule]). split.
      { cbn [evl_schedule emit klog]. rewrite Hl1. by rewrite <- !app_assoc. }
      rewrite elem_of_app, list_elem_of_singleton. intros [?|?]; done.
  - injection H as _ <-. exists [EvLock; EvUnlock; EvFree new]. split.
    { unfold evl_free. destruct new; cbn; by rewrite <- !app_assoc. }
    intros Hin.
    repeat (apply elem_of_cons in Hin as [Hin|Hin]; [discriminate|]).
    by apply elem_of_nil in Hin.
Qed.

End Warnings.

(** X18. A control request never trips the sanity check of [set_tp_schedule]:
    the table an install request hands over has at least one window, and
    its first window begins at offset 0, so no warning is logged, whatever
    the request and whatever it returns. *)
Theorem tp_control_never_warns (E : evl_core) (fuel : nat) (cpu : Z)
  (pt : evl_tp_ctlparam) (infp : option evl_tp_ctlinfo) (mem : option positive)
  (k : kernel) (ret : Z) (infp' : option evl_tp_ctlinfo) (k' : kernel) :
  tp_control E fuel cpu pt infp mem k = Done (ret, infp', k') →
  ∃ l : list event, klog k' = klog k ++ l ∧ EvWarn ∉ l.
Proof.
  intros H. unfold tp_control in H.
  assert (∀ l0 : list event, l0 = [] → klog k = klog k ++ l0 ∧ EvWarn ∉ l0)
    as Hnil.
  { intros l0 ->. split; [by rewrite app_nil_r | apply not_elem_of_nil]. }
  destruct ((cpu <? 0) || negb (cpu_present E cpu)
            || negb (is_threading_cpu E cpu)).
  { injection H as _ _ <-. by exists []; apply Hnil. }
  assert (∀ r1 r2 r3,
            ('(ret, k1) ← tp_switch_schedule None k; Done (ret, infp, k1))
              = Done (r1, r2, r3) →
            ∃ l, klog r3 = klog k ++ l ∧ EvWarn ∉ l) as Hun.
  { intros r1 r2 r3 Hr. apply bind_inv_Done in Hr as ([e k1] & Hsw & Hr).
    injection Hr as _ _ <-. by apply (tp_switch_schedule_log None k e k1). }
  destruct (op pt).
  - destruct (0 <? nr_windows pt) eqn:Hnr; [|by apply Hun in H].
    apply Z.ltb_lt in Hnr.
    destruct mem as [p|]; [|injection H as _ _ <-; by exists []; apply Hnil].
    apply bind_inv_Done in H as (r & Hscan & H). destruct r as [[ws d]|].
    + apply bind_inv_Done in H as ([e k2] & Hsw & H). injection H as _ _ <-.
      apply (tp_scan_windows_sound E) in Hscan as (Hlen & _ & _ & Hpos).
      destruct (Hpos ltac:(lia)) as (Hd & w & Hw & Hw0).
      apply tp_switch_schedule_log in Hsw; [exact Hsw|].
      eexists. split; [cbn; apply lookup_insert_eq|].
      split; cbn; [rewrite Hlen; lia | done | by exists w | lia].
    + injection H as _ _ <-. exists [EvFree (Some p)]. split; [done|].
      intros Hin. apply list_elem_of_singleton in Hin. discriminate.
  - by apply Hun in H.
  - apply bind_inv_Done in H as (k1 & Hstart & H). injection H as _ _ <-.
    unfold start_tp_schedule in Hstart.
    change (gps (rq_tp (raw_spin_lock k))) with (gps (rq_tp k)) in Hstart.
    destruct (gps (rq_tp k)).
    + cbn [evl_read_clock] in Hstart.
      apply tp_schedule_next_log in Hstart as (t & Ht).
      exists [EvLock; EvStartTimer t; EvResched; EvUnlock; EvSchedule]. split.
      { cbn. rewrite Ht. cbn. by rewrite <- !app_assoc. }
      intros Hin.
      repeat (apply elem_of_cons in Hin as [Hin|Hin]; [discriminate|]).
      by apply elem_of_nil in Hin.
    + injection Hstart as <-. exists [EvLock; EvUnlock; EvSchedule]. split.
      { cbn. by rewrite <- !app_assoc. }
      intros Hin.
      repeat (apply elem_of_cons in Hin as [Hin|Hin]; [discriminate|]).
      by apply elem_of_nil in Hin.
  - injection H as _ _ <-. unfold stop_tp_schedule.
    change (gps (rq_tp (raw_spin_lock k))) with (gps (rq_tp k)).
    destruct (gps (rq_tp k)).
    + exists [EvLock; EvStopTimer; EvUnlock; EvSchedule]. split.
      { cbn. by rewrite <- !app_assoc. }
      intros Hin.
      repeat (apply elem_of_cons in Hin as [Hin|Hin]; [discriminate|]).
      by apply elem_of_nil in Hin.
    + exists [EvLock; EvUnlock; EvSchedule]. split.
      { cbn. by rewrite <- !app_assoc. }
      intros Hin.
      repeat (apply elem_of_cons in Hin as [Hin|Hin]; [discriminate|]).
      by apply elem_of_nil in Hin.
  - apply bind_inv_Done in H as ([gp k1] & Hg & H).
    unfold get_tp_schedule in Hg.
    change (gps (rq_tp (raw_spin_lock k))) with (gps (rq_tp k)) in Hg.
    destruct (gps (rq_tp k)) as [p|].
    + apply bind_inv_Done in Hg as (g & _ & Hg). injection Hg as <- <-.
      assert (∀ k3, put_tp_schedule p
                      (raw_spin_unlock
                         (emit (EvRefTake p)
                            (set_kheap
                               (<[p := set_refcount (refcount g + 1) g]>
                                  (kheap (raw_spin_lock k)))
                               (raw_spin_lock k)))) = Done k3 →
                    ∃ l, klog k3 = klog k ++ l ∧ EvWarn ∉ l) as Hput.
      { intros k3 Hk3. apply put_tp_schedule_log in Hk3 as (l & Hl & Hq).
        exists ([EvLock; EvRefTake p; EvUnlock] ++ l). split.
        { rewrite Hl. cbn. by rewrite <- !app_assoc. }
        rewrite elem_of_app. intros [Hin|Hin]; [|done].
        repeat (apply elem_of_cons in Hin as [Hin|Hin]; [discriminate|]).
        by apply elem_of_nil in Hin. }
      destruct infp as [it|].
      * apply bind_inv_Done in H as (g1 & _ & H).
        apply bind_inv_Done in H as (ws' & _ & H).
        apply bind_inv_Done in H as (k3 & Hk3 & H). injection H as _ _ <-.
        by apply Hput.
      * apply bind_inv_Done in H as (k3 & Hk3 & H). injection H as _ _ <-.
        by apply Hput.
    + injection Hg as <- <-. injection H as _ _ <-.
      exists [EvLock; EvUnlock; EvSchedule]. split.
      { cbn. by rewrite <- !app_assoc. }
      intros Hin.
      repeat (apply elem_of_cons in Hin as [Hin|Hin]; [discriminate|]).
      by apply elem_of_nil in Hin.
  - injection H as _ _ <-. by exists []; apply Hnil.
Qed.

Lemma tp_control_never_warns_witness :
  ∃ (k' : kernel) (l : list event),
    tp_control frame_core 1 0 (request evl_tp_install three_windows) None
               (Some 1%positive) (booted frame_core) = Done (0, None, k') ∧
    klog k' = klog (booted frame_core) ++ l ∧ EvWarn ∉ l.
Proof.
  destruct (tp_control_never_warns frame_core 1 0
              (request evl_tp_install three_windows) None (Some 1%positive)
              (booted frame_core) 0 None installed) as (l & Hl & Hq).
  - by vm_compute.
  - exists installed, l. split; [by vm_compute|]. split; [exact Hl | exact Hq].
Defined.

(** ** The frame timer moves forward *)


Lemma three_windows_tiled : tp_table_tiled three_windows_table.
Proof.
  split.
  - intros i j wi wj Hij Hi Hj.
    destruct i as [|[|[|i]]]; destruct j as [|[|[|j]]]; try lia;
      try discriminate; injection Hi as <-; injection Hj as <-; by vm_compute.
  - intros i w Hw. destruct i as [|[|[|i]]]; try discriminate;
      injection Hw as <-; by vm_compute.
Qed.



(** ** No fault in the control interface *)

Lemma store_returns {A : Type} (l : list A) (i : nat) (f : A → A) :
  (i < length l)%nat →
  ∃ l' : list A, store l i f = Done l' ∧ length l' = length l.
Proof.
  intros Hi. unfold store.
  destruct (lookup_lt_is_Some_2 l i Hi) as [x Hx]. rewrite Hx.
  eexists. split; [reflexivity|]. apply length_insert.
Qed.

Lemma tp_copy_windows_returns (todo : nat) :
  ∀ (n pp pw : nat) (src : list evl_tp_window) (dst : list __evl_tp_window),
    (n + todo ≤ length src)%nat → (n + todo ≤ length dst)%nat →
    (pp < length dst)%nat → (pw < length src)%nat →
    ∃ (pp' pw' : nat) (dst' : list __evl_tp_window),
      tp_copy_windows todo n pp pw src dst = Done (pp', pw', dst') ∧
      length dst' = length dst ∧
      (pp' < length dst)%nat ∧ (pw' < length src)%nat.
Proof.
  induction todo as [|todo IH]; intros n pp pw src dst Hsrc Hdst Hpp Hpw.
  - by exists pp, pw, dst.
  - cbn [tp_copy_windows].
    destruct (lookup_lt_is_Some_2 src n ltac:(lia)) as [w Hw].
    destruct (lookup_lt_is_Some_2 src pw Hpw) as [pwv Hpwv].
    rewrite Hw, Hpwv. simpl deref. rewrite !bind_Done.
    destruct (store_returns dst n
                (set_offset (ktime_to_u_timespec (w_offset w))) ltac:(lia))
      as (d1 & -> & Hl1).
    rewrite bind_Done.
    destruct (store_returns d1 pp
                (set_duration
                   (ktime_to_u_timespec (w_offset w - w_offset pwv)))
                ltac:(lia)) as (d2 & -> & Hl2).
    rewrite bind_Done.
    destruct (store_returns d2 n (set_ptid (w_part w)) ltac:(lia))
      as (d3 & -> & Hl3).
    rewrite bind_Done.
    destruct (IH (S n) n n src d3) as (pp' & pw' & dst' & Hrun & Hl & Hpp' & Hpw');
      try lia.
    exists pp', pw', dst'. split; [exact Hrun|]. split; [lia|]. split; lia.
Qed.

Lemma tp_copy_out_returns (g : evl_tp_schedule) (nr : Z)
  (dst : list __evl_tp_window) :
  tp_table_ok g →
  nr ≤ pwin_nr g →
  (0 < length dst)%nat → nr ≤ Z.of_nat (length dst) →
  ∃ out : list __evl_tp_window, tp_copy_out nr g dst = Done out.
Proof.
  intros Hok Hnr Hroom Hdst. pose proof (ok_len g Hok) as Hlen.
  pose proof (ok_nr g Hok) as Hn. unfold tp_copy_out.
  destruct (tp_copy_windows_returns (Z.to_nat nr) 0 0 0 (pwins g) dst)
    as (pp' & pw' & dst' & -> & Hl & Hpp' & Hpw'); try lia.
  rewrite bind_Done. cbv beta iota.
  destruct (lookup_lt_is_Some_2 (pwins g) pw' Hpw') as [pwv ->].
  simpl deref. rewrite bind_Done.
  destruct (store_returns dst' pp'
              (set_duration
                 (ktime_to_u_timespec (tf_duration g - w_offset pwv)))
              ltac:(lia)) as (out & -> & _).
  by exists out.
Qed.

Section ControlReturns.

Context (E : evl_core).

Lemma tp_scan_windows_returns (n : nat) :
  ∀ (ps : list __evl_tp_window) (acc : Z),
    (n ≤ length ps)%nat →
    ∃ r, tp_scan_windows E n ps acc = Done r.
Proof.
  induction n as [|n IH]; intros ps acc Hlen; [by eexists|].
  destruct ps as [|p ps]; [cbn in Hlen; lia|].
  cbn [tp_scan_windows head tail deref]. rewrite bind_Done.
  destruct (negb (u_timespec_to_ktime (offset p) =? acc)); [by eexists|].
  destruct (u_timespec_to_ktime (duration p) <=? 0); [by eexists|].
  destruct ((ptid p <? -1) || (CONFIG_EVL_SCHED_TP_NR_PART E <=? ptid p));
    [by eexists|].
  destruct (IH ps (acc + u_timespec_to_ktime (duration p))) as [r ->];
    [cbn in Hlen; lia|].
  rewrite bind_Done. by eexists.
Qed.

Lemma tp_switch_schedule_returns (new : option positive) (k : kernel) :
  tp_sound E k →
  tp_new_ok new k →
  ∃ r, tp_switch_schedule new k = Done r.
Proof.
  intros Hs Hok. unfold tp_switch_schedule.
  rewrite (set_tp_schedule_checked new k Hok), bind_Done.
  destruct (bool_decide (threads (rq_tp k) = [])); [|by eexists].
  destruct (gps (rq_tp k)) as [q|] eqn:Hq; [|by eexists].
  destruct (snd_table E k Hs q Hq) as (g & Hg & _).
  assert (kheap (tp_swapped new k) = kheap k) as Hh.
  { unfold tp_swapped, stop_tp_schedule.
    change (gps (rq_tp (raw_spin_lock k))) with (gps (rq_tp k)).
    by rewrite Hq. }
  rewrite (put_tp_schedule_live q g) by (by rewrite Hh). rewrite bind_Done.
  by eexists.
Qed.

Lemma tp_control_returns (fuel : nat) (cpu : Z) (pt : evl_tp_ctlparam)
  (infp : option evl_tp_ctlinfo) (mem : option positive) (k : kernel) :
  tp_sound E k →
  (∀ p, mem = Some p → kheap k !! p = None) →
  tp_request_ok pt infp k →
  tp_control E fuel cpu pt infp mem k ≠ Oops ∧
  (op pt ≠ evl_tp_start → ∃ r, tp_control E fuel cpu pt infp mem k = Done r).
Proof.
  intros Hs Hmem Hreq.
  assert (∀ o : outcome (Z * option evl_tp_ctlinfo * kernel),
            (∃ r, o = Done r) →
            o ≠ Oops ∧ (op pt ≠ evl_tp_start → ∃ r, o = Done r)) as Hdone.
  { intros o [r ->]. split; [discriminate | by eexists]. }
  destruct ((cpu <? 0) || negb (cpu_present E cpu)
            || negb (is_threading_cpu E cpu)) eqn:Hcpu.
  { apply Hdone. unfold tp_control. rewrite Hcpu. by eexists. }
  pose proof (tp_cpu_ok_of_check E cpu Hcpu) as Hok.
  assert (∃ r, ('(ret, k1) ← tp_switch_schedule None k; Done (ret, infp, k1))
               = Done r) as Hun.
  { destruct (tp_switch_schedule_returns None k Hs I) as [[e k1] ->].
    rewrite bind_Done. by eexists. }
  destruct pt as [o nr wsx]. unfold tp_request_ok in Hreq.
  destruct o; cbn [op nr_windows windows] in *.
  - (* install *)
    apply Hdone. unfold tp_control. rewrite Hcpu. cbn [op nr_windows windows].
    destruct (0 <? nr) eqn:Hnr; [|exact Hun]. apply Z.ltb_lt in Hnr.
    destruct mem as [p|]; [|by eexists]. specialize (Hmem p eq_refl).
    destruct (tp_scan_windows_returns (Z.to_nat nr) wsx 0 ltac:(lia))
      as [r Hscan].
    rewrite Hscan, bind_Done. destruct r as [[ws d]|]; [|by eexists].
    apply tp_scan_windows_sound in Hscan as (Hlen & Hparts & _ & Hpos).
    destruct (Hpos ltac:(lia)) as (Hd & w & Hw & Hw0).
    match goal with
    | |- context [tp_switch_schedule (Some p) ?k1] =>
        destruct (tp_switch_schedule_returns (Some p) k1) as [[e k2] ->]
    end.
    + apply (tp_sound_transfer E k); try done.
      intros q Hq. cbn.
      assert (p ≠ q) as Hne.
      { intros ->. destruct (snd_table E k Hs q Hq) as (g & Hg & _). congruence. }
      by rewrite !lookup_insert_ne.
    + eexists. split; [cbn; apply lookup_insert_eq|].
      split; cbn; [rewrite Hlen; lia | done | by exists w | lia].
    + rewrite bind_Done. by eexists.
  - (* uninstall *)
    apply Hdone. unfold tp_control. rewrite Hcpu. exact Hun.
  - (* start *)
    split; [|done]. unfold tp_control. rewrite Hcpu. cbn [op].
    destruct (gps (rq_tp k)) as [p|] eqn:Hp.
    + rewrite (start_tp_schedule_unfold E fuel (raw_spin_lock k) p Hp).
      destruct (snd_table E k Hs p Hp) as (g & Hg & Hsound & _).
      match goal with
      | |- context [tp_schedule_next E fuel ?k3] =>
          pose proof (tp_schedule_next_no_fault E fuel k3 g) as Hnf;
          destruct (tp_schedule_next E fuel k3)
      end; try discriminate.
      exfalso. apply Hnf; [|done].
      split; [by exists p | apply Hsound |].
      cbn. pose proof (ok_nr g (sound_ok E g Hsound)). lia.
    + unfold start_tp_schedule.
      change (gps (rq_tp (raw_spin_lock k))) with (gps (rq_tp k)).
      by rewrite Hp.
  - (* stop *)
    apply Hdone. unfold tp_control. rewrite Hcpu. by eexists.
  - (* get *)
    apply Hdone. destruct (gps (rq_tp k)) as [p|] eqn:Hp.
    + destruct (snd_table E k Hs p Hp) as (g & Hg & Hsound & Hrc).
      destruct infp as [it|].
      * rewrite (tp_control_get E fuel cpu nr wsx it mem k p g Hok Hp Hg Hrc).
        destruct (Hreq it p g eq_refl eq_refl Hg) as [Hroom Hfit].
        destruct (tp_copy_out_returns g (Z.min nr (pwin_nr g)) (it_windows it))
          as [out ->]; [apply Hsound | lia | done | done |].
        rewrite bind_Done. by eexists.
      * rewrite (tp_control_get_null E fuel cpu nr wsx mem k p g Hok Hp Hg Hrc).
        by eexists.
    + unfold tp_control. rewrite Hcpu. cbn [op]. unfold get_tp_schedule.
      change (gps (rq_tp (raw_spin_lock k))) with (gps (rq_tp k)).
      rewrite Hp. by eexists.
  - apply Hdone. unfold tp_control. rewrite Hcpu. by eexists.
Qed.

End ControlReturns.

(** X19. No fault in the control interface. On every run queue reachable from
    [tp_init], a control request whose user memory is there (at least
    [nr_windows] windows to install; for a get request, room in the reply
    for the windows to copy and for one window at least) and whose block, if
    [evl_alloc] gave one, is not in use, never faults, whatever its
    arguments; and unless it is a start request, which can stay in the
    catch-up loop, it returns. *)
Theorem tp_control_no_fault (E : evl_core) (fuel : nat) (cpu : Z)
  (pt : evl_tp_ctlparam) (infp : option evl_tp_ctlinfo) (mem : option positive)
  (k : kernel) :
  tp_reachable E k →
  tp_call_ok (CallControl cpu pt infp mem) k →
  tp_request_ok pt infp k →
  tp_control E fuel cpu pt infp mem k ≠ Oops ∧
  (op pt ≠ evl_tp_start → ∃ r, tp_control E fuel cpu pt infp mem k = Done r).
Proof.
  intros Hreach.
  assert (tp_sound E k) as Hs.
  { induction Hreach as [k0 | fuel' c k k' _ IH Hc' Hrun].
    - apply tp_init_sound.
    - by apply (tp_call_run_sound E fuel' c k k'). }
  intros Hc Hreq.
  apply tp_control_returns; [done | | done].
  intros p ->. exact Hc.
Qed.

Lemma tp_control_no_fault_witness :
  ∃ r,
    tp_control frame_core 0 0
               {| op := evl_tp_get; nr_windows := 0; windows := [] |}
               (Some (blank_info 1)) None installed = Done r.
Proof.
  destruct (tp_control_no_fault frame_core 0 0
              {| op := evl_tp_get; nr_windows := 0; windows := [] |}
              (Some (blank_info 1)) None installed) as [_ Hret].
  - apply (tp_reach_call frame_core 1
             (CallControl 0 (request evl_tp_install three_windows) None
                (Some 1%positive))
             (booted frame_core) installed).
    + apply tp_reach_init.
    + reflexivity.
    + by vm_compute.
  - exact I.
  - intros it p g Hit Hp Hg. injection Hit as <-. cbn. split; [lia|].
    assert (0 < pwin_nr g); [|lia].
    injection Hp as <-. vm_compute in Hg. injection Hg as <-. reflexivity.
  - apply Hret. discriminate.
Defined.

(** ** The frame timer moves forward on every reachable run queue *)

Section Timed.

Context (E : evl_core).











End Timed.



(** ** The windows an install request reads *)

Lemma tp_scan_windows_take (E : evl_core) (n : nat) :
  ∀ (ps : list __evl_tp_window) (acc : Z),
    tp_scan_windows E n ps acc = tp_scan_windows E n (take n ps) acc.
Proof.
  induction n as [|n IH]; intros ps acc; [reflexivity|].
  destruct ps as [|p ps]; [reflexivity|].
  cbn [tp_scan_windows take head tail deref]. rewrite !bind_Done.
  by rewrite (IH ps).
Qed.

(** X21. An install request reads the first [nr_windows] windows it is given
    and no other: whatever follows them in the list makes no difference to
    what the request returns and does. *)
Theorem tp_install_reads_nr_windows (E : evl_core) (fuel : nat) (cpu : Z)
  (nr : Z) (ws : list __evl_tp_window) (infp : option evl_tp_ctlinfo)
  (mem : option positive) (k : kernel) :
  tp_control E fuel cpu
             {| op := evl_tp_install; nr_windows := nr; windows := ws |}
             infp mem k =
  tp_control E fuel cpu
             {| op := evl_tp_install; nr_windows := nr;
                windows := take (Z.to_nat nr) ws |}
             infp mem k.
Proof.
  unfold tp_control. cbn [op nr_windows windows].
  by rewrite (tp_scan_windows_take E (Z.to_nat nr) ws).
Qed.

(** ** Reading the parameters back *)

Lemma tp_getparam_thread (thread : nat) (k : kernel) (t : evl_thread) (n : Z) :
  kthreads k !! thread = Some t → th_tps t = Some n →
  tp_getparam thread k = Done {| tp_prio := cprio t; tp_ptid := n |}.
Proof.
  intros Ht Hn. unfold tp_getparam. rewrite Ht. simpl deref.
  rewrite bind_Done, Hn. reflexivity.
Qed.

(** X22. Reading the parameters of a thread back returns its current
    priority and the id of its partition, so that it follows every change
    of priority: the priority supplied by a boost, the base priority after a
    restore, the capped priority after a ceiling call, with the partition
    id the same throughout. *)
Theorem tp_getparam_reports_current (E : evl_core) (thread : nat) (k : kernel)
  (t : evl_thread) (n : Z) :
  kthreads k !! thread = Some t →
  th_tps t = Some n →
  tp_getparam thread k = Done {| tp_prio := cprio t; tp_ptid := n |} ∧
  (∀ prm : evl_sched_param,
     ∃ k' : kernel,
       tp_trackprio thread (Some prm) k = Done k' ∧
       tp_getparam thread k' = Done {| tp_prio := tp_prio prm; tp_ptid := n |}) ∧
  (∃ k' : kernel,
     tp_trackprio thread None k = Done k' ∧
     tp_getparam thread k' = Done {| tp_prio := bprio t; tp_ptid := n |}) ∧
  (∀ prio : Z,
     ∃ k' : kernel,
       tp_ceilprio E thread prio k = Done k' ∧
       tp_getparam thread k' =
         Done {| tp_prio := Z.min prio (EVL_TP_MAX_PRIO E); tp_ptid := n |}).
Proof.
  intros Ht Hn. split; [by apply tp_getparam_thread|]. split_and!.
  - intros prm.
    destruct (tp_trackprio_thread thread t (Some prm) k Ht)
      as (k' & Hrun & Hth & _).
    exists k'. split; [exact Hrun|].
    apply (tp_getparam_thread thread k' (set_cprio (tp_prio prm) t) n);
      [rewrite Hth; apply lookup_insert_eq | exact Hn].
  - destruct (tp_trackprio_thread thread t None k Ht) as (k' & Hrun & Hth & _).
    exists k'. split; [exact Hrun|].
    apply (tp_getparam_thread thread k' (set_cprio (bprio t) t) n);
      [rewrite Hth; apply lookup_insert_eq | exact Hn].
  - intros prio. eexists. split; [by apply tp_ceilprio_thread|].
    apply (tp_getparam_thread thread _
             (set_cprio (Z.min prio (EVL_TP_MAX_PRIO E)) t) n);
      [cbn; apply lookup_insert_eq | exact Hn].
Qed.

Lemma tp_getparam_reports_current_witness :
  ∃ k' : kernel,
    tp_ceilprio frame_core 0 99 overrun_kernel = Done k' ∧
    tp_getparam 0 k' = Done {| tp_prio := 50; tp_ptid := 0 |}.
Proof.
  destruct (tp_getparam_reports_current frame_core 0 overrun_kernel woso_thread 0)
    as (_ & _ & _ & Hceil).
  - reflexivity.
  - reflexivity.
  - destruct (Hceil 99) as (k' & Hrun & Hget). by exists k'.
Defined.
